(** * Temu price-adjustment bot: order processing, record store, scheduler

    A shallow embedding of the decision logic of [main.py] and [utils.py]:
    Python dicts are finite maps from keys to dynamically typed values,
    the browser and the file system are explicit environments, and code
    that can raise runs in a small state-and-exception monad. *)

From Stdlib Require Import ZArith Lia.
From stdpp Require Import base gmap strings list fin_maps pretty.

#[local] Open Scope string_scope.
#[local] Open Scope list_scope.
#[local] Open Scope Z_scope.

(** ** Naive datetimes

    A Python [datetime] without time zone is a proleptic Gregorian day
    (its [toordinal()], day 1 being 0001-01-01) and a time of day.
    Python orders datetimes by (year, month, day, hour, minute, second,
    microsecond), which is the order on (ordinal, hour, ...), and adds a
    [timedelta] of whole days by moving the ordinal. *)

Record datetime := mk_datetime {
  ordinal : Z;
  hour : Z;
  minute : Z;
  second : Z;
  microsecond : Z
}.

#[global] Instance datetime_eq_dec : EqDecision datetime.
Proof. solve_decision. Defined.

Definition MAXORDINAL : Z := 3652059.

Definition wf_datetime (d : datetime) : Prop :=
  1 <= ordinal d <= MAXORDINAL /\ 0 <= hour d < 24 /\ 0 <= minute d < 60
  /\ 0 <= second d < 60 /\ 0 <= microsecond d < 1000000.

(** [datetime.__ge__]: lexicographic comparison of the components. *)
Definition datetime_ge (a b : datetime) : bool :=
  if negb (ordinal a =? ordinal b) then ordinal b <? ordinal a
  else if negb (hour a =? hour b) then hour b <? hour a
  else if negb (minute a =? minute b) then minute b <? minute a
  else if negb (second a =? second b) then second b <? second a
  else microsecond b <=? microsecond a.

Definition datetime_lt (a b : datetime) : bool := negb (datetime_ge a b).

(** [d + timedelta(days=n)]; [OverflowError] outside [date.min .. date.max]. *)
Definition add_days (d : datetime) (n : Z) : option datetime :=
  let o := ordinal d + n in
  if (1 <=? o) && (o <=? MAXORDINAL)
  then Some (mk_datetime o (hour d) (minute d) (second d) (microsecond d))
  else None.

(** Position on the time line, in microseconds since 0001-01-01T00:00. *)
Definition to_us (d : datetime) : Z :=
  (((ordinal d - 1) * 24 + hour d) * 60 + minute d) * 60000000
  + second d * 1000000 + microsecond d.

Definition US_PER_DAY : Z := 86400000000.

(** Calendar arithmetic of CPython's [datetime] module. *)
Definition is_leap (year : Z) : bool :=
  (year mod 4 =? 0) && (negb (year mod 100 =? 0) || (year mod 400 =? 0)).

Definition days_before_year (year : Z) : Z :=
  let y := year - 1 in y * 365 + y / 4 - y / 100 + y / 400.

Definition DAYS_IN_MONTH : list Z := [31; 28; 31; 30; 31; 30; 31; 31; 30; 31; 30; 31].

(** [_DAYS_BEFORE_MONTH]; both tables are indexed from month 1. *)
Definition DAYS_BEFORE_MONTH : list Z :=
  [0; 31; 59; 90; 120; 151; 181; 212; 243; 273; 304; 334].

Definition month_entry (table : list Z) (month : Z) : Z :=
  default 0 (table !! Z.to_nat (month - 1)).

Definition days_in_month (year month : Z) : Z :=
  if (month =? 2) && is_leap year then 29 else month_entry DAYS_IN_MONTH month.

Definition days_before_month (year month : Z) : Z :=
  month_entry DAYS_BEFORE_MONTH month
  + (if (2 <? month) && is_leap year then 1 else 0).

Definition ymd2ord (year month day : Z) : Z :=
  days_before_year year + days_before_month year month + day.

(** [datetime(year, month, day)]: [ValueError] unless the date exists. *)
Definition make_date (year month day : Z) : option datetime :=
  if (1 <=? year) && (year <=? 9999) && (1 <=? month) && (month <=? 12)
     && (1 <=? day) && (day <=? days_in_month year month)
  then Some (mk_datetime (ymd2ord year month day) 0 0 0 0)
  else None.

Definition ord2ymd (n0 : Z) : Z * Z * Z :=
  let n := n0 - 1 in
  let n400 := n / 146097 in
  let n := n mod 146097 in
  let year := n400 * 400 + 1 in
  let n100 := n / 36524 in
  let n := n mod 36524 in
  let n4 := n / 1461 in
  let n := n mod 1461 in
  let n1 := n / 365 in
  let n := n mod 365 in
  let year := year + n100 * 100 + n4 * 4 + n1 in
  if (n1 =? 4) || (n100 =? 4) then (year - 1, 12, 31)
  else
    let leapyear := (n1 =? 3) && (negb (n4 =? 24) || (n100 =? 3)) in
    let month := Z.shiftr (n + 50) 5 in
    let preceding :=
      month_entry DAYS_BEFORE_MONTH month
      + (if (2 <? month) && leapyear then 1 else 0) in
    if n <? preceding then
      let month' := month - 1 in
      let preceding' :=
        preceding - (month_entry DAYS_IN_MONTH month'
                     + (if (month' =? 2) && leapyear then 1 else 0)) in
      (year, month', n - preceding' + 1)
    else (year, month, n - preceding + 1).

(** ["%0wd" % n] for a non-negative [n]. *)
Definition zero_pad (width : nat) (n : Z) : string :=
  let s := pretty n in
  String.concat "" (replicate (width - String.length s) "0") +:+ s.

(** [_format_time] with [timespec='auto']. *)
Definition format_time (d : datetime) : string :=
  zero_pad 2 (hour d) +:+ ":" +:+ zero_pad 2 (minute d) +:+ ":"
  +:+ zero_pad 2 (second d)
  +:+ (if microsecond d =? 0 then "" else "." +:+ zero_pad 6 (microsecond d)).

Definition isoformat_sep (sep : string) (d : datetime) : string :=
  let '(y, m, dd) := ord2ymd (ordinal d) in
  zero_pad 4 y +:+ "-" +:+ zero_pad 2 m +:+ "-" +:+ zero_pad 2 dd +:+ sep
  +:+ format_time d.

Definition isoformat : datetime -> string := isoformat_sep "T".

(** ** Python values and order dicts *)

Inductive value :=
  | VNone
  | VBool (b : bool)
  | VInt (n : Z)
  | VStr (s : string)
  | VDatetime (d : datetime)
  | VElement (handle : nat)              (* a selenium [WebElement] *)
  | VDict (fields : gmap string string). (* [tracking_info], [details] *)

#[global] Instance value_eq_dec : EqDecision value.
Proof. solve_decision. Defined.

(** An order is a Python dict with string keys. *)
Abbreviation order := (gmap string value).

(** Truth value of an object in a condition. *)
Definition truthy (v : value) : bool :=
  match v with
  | VNone => false
  | VBool b => b
  | VInt n => negb (n =? 0)
  | VStr s => negb (String.eqb s "")
  | VDatetime _ => true
  | VElement _ => true
  | VDict fields => negb (bool_decide (fields = ∅))
  end.

(** [v == w]: [bool] is a subclass of [int], so [True == 1]; values of
    unrelated types are unequal. *)
Definition py_eqb (v w : value) : bool :=
  match v, w with
  | VBool b, VInt n | VInt n, VBool b => n =? (if b then 1 else 0)
  | _, _ => bool_decide (v = w)
  end.

Definition is_element (v : value) : bool :=
  match v with VElement _ => true | _ => false end.

(** ** The order record store, [orders.json] *)

(** The file holds a JSON array of objects, here the list of dicts that
    was handed to [json.dump]. Read back, the file gives these dicts
    when their values are JSON values, as those of an order are once
    its elements are dropped and its date is converted; a datetime left
    under another key is written by [default=str] as a string and comes
    back as one. Statements that compare the ids of two saves therefore
    ask for ids that [json.dump] writes as they are ([has_json_id]). *)
Inductive orders_file :=
  | Missing       (* the file does not exist *)
  | Corrupt       (* the file is read and is not JSON: [json.JSONDecodeError] *)
  | Unreadable    (* reading the file raises another exception *)
  | Stored (records : list order).

#[global] Instance orders_file_eq_dec : EqDecision orders_file.
Proof. solve_decision. Defined.

(** Outcome of [open(file_path, 'w')] followed by [json.dump]. *)
Inductive write_outcome :=
  | WriteOk
  | OpenFails                    (* raised before the file was truncated *)
  | DumpFails.                   (* raised after it was truncated *)

(** Exceptions are carried by their message, which is all the callers use. *)
Definition exn := string.

(** [next((o for o in orders if o['id'] == order['id']), None)]: the
    generator stops at the first match; a visited record without ['id'],
    or an order without it once a record is visited, raises [KeyError]. *)
Fixpoint find_existing (orders : list order) (o : order) : exn + option nat :=
  match orders with
  | [] => inr None
  | r :: rest =>
      match r !! "id" with
      | None => inl "'id'"
      | Some rid =>
          match o !! "id" with
          | None => inl "'id'"
          | Some oid =>
              if py_eqb rid oid then inr (Some 0%nat)
              else match find_existing rest o with
                   | inl e => inl e
                   | inr found => inr (S <$> found)
                   end
          end
      end
  end.

(** [existing.update(order)]: the order's fields win, the others stay. *)
Definition dict_update (existing o : order) : order := o ∪ existing.

(** The two first steps of both savers: drop ['element'] and every field
    holding a [WebElement]. *)
Definition drop_elements (o : order) : order :=
  filter (fun kv => is_element kv.2 = false) (delete "element" o).

Definition upsert (orders : list order) (o : order) : exn + list order :=
  match find_existing orders o with
  | inl e => inl e
  | inr (Some i) => inr (alter (fun existing => dict_update existing o) i orders)
  | inr None => inr (orders ++ [o])
  end.

Definition write_orders (w : write_outcome) (file : orders_file)
    (orders : list order) : bool * orders_file :=
  match w with
  | WriteOk => (true, Stored orders)
  | OpenFails => (false, file)
  | DumpFails => (false, Corrupt)
  end.

(** The list main.py works on: it resets to [[]] on every exception of
    the read. *)
Definition load_orders (file : orders_file) : list order :=
  match file with Stored records => records | _ => [] end.

(** utils.py catches [json.JSONDecodeError] only; another exception of
    [open] or [json.load] reaches the outer handler. *)
Definition read_orders (file : orders_file) : exn + list order :=
  match file with
  | Unreadable => inl "orders.json cannot be read"
  | _ => inr (load_orders file)
  end.

Module Main.

(** [if 'date_obj' in order and order['date_obj']:
       order['date_obj'] = order['date_obj'].isoformat()]
    Only a datetime has [isoformat]; any other truthy value raises
    [AttributeError]. *)
Definition convert_date (o : order) : exn + order :=
  match o !! "date_obj" with
  | Some v =>
      if truthy v then
        match v with
        | VDatetime d => inr (<["date_obj" := VStr (isoformat d)]> o)
        | _ => inl "object has no attribute 'isoformat'"
        end
      else inr o
  | None => inr o
  end.

(** [save_order_data] of main.py. The dict is mutated in place, so the
    caller's order is returned next to the result and the file. *)
Definition save_order_data (w : write_outcome) (file : orders_file)
    (o : order) : bool * order * orders_file :=
  let o1 := drop_elements o in
  match convert_date o1 with
  | inl _ => (false, o1, file)
  | inr o2 =>
      match upsert (load_orders file) o2 with
      | inl _ => (false, o2, file)
      | inr orders =>
          let '(ok, file') := write_orders w file orders in (ok, o2, file')
      end
  end.

End Main.

Module Utils.

(** utils.py converts the date only [if isinstance(order['date_obj'], datetime)]. *)
Definition convert_date (o : order) : order :=
  match o !! "date_obj" with
  | Some (VDatetime d) => <["date_obj" := VStr (isoformat d)]> o
  | _ => o
  end.

Definition save_order_data (w : write_outcome) (file : orders_file)
    (o : order) : bool * order * orders_file :=
  let o2 := convert_date (drop_elements o) in
  match read_orders file with
  | inl _ => (false, o2, file)
  | inr stored =>
      match upsert stored o2 with
      | inl _ => (false, o2, file)
      | inr orders =>
          let '(ok, file') := write_orders w file orders in (ok, o2, file')
      end
  end.

End Utils.

(** ** Text

    A Python [str] is a sequence of code points. Literals of this file are
    written as UTF-8 strings and decoded by [str]. *)

Abbreviation text := (list Z).

Fixpoint utf8_decode (bytes : list Z) : text :=
  match bytes with
  | [] => []
  | b :: rest =>
      if b <? 128 then b :: utf8_decode rest
      else if b <? 224 then
        match rest with
        | c :: rest' => ((b - 192) * 64 + (c - 128)) :: utf8_decode rest'
        | [] => [b]
        end
      else if b <? 240 then
        match rest with
        | c :: d :: rest' =>
            ((b - 224) * 4096 + (c - 128) * 64 + (d - 128)) :: utf8_decode rest'
        | _ => [b]
        end
      else
        match rest with
        | c :: d :: e :: rest' =>
            ((b - 240) * 262144 + (c - 128) * 4096 + (d - 128) * 64 + (e - 128))
              :: utf8_decode rest'
        | _ => [b]
        end
  end.

Definition str (s : string) : text :=
  utf8_decode (map (fun a => Z.of_N (Ascii.N_of_ascii a)) (String.list_ascii_of_string s)).

(** [str.lower()] and [str.upper()] on Basic Latin and Latin-1, where
    Python folds code point by code point as written here. Code points
    beyond U+00FF are left as they are: Python's full case tables, which
    fold further code points (U+212A to k), some by their neighbours and
    some to two characters, are not reproduced. Statements about
    lowered text are made for texts within U+00FF ([latin1]). *)
Definition lower_cp (c : Z) : Z :=
  if (65 <=? c) && (c <=? 90) then c + 32
  else if (192 <=? c) && (c <=? 222) && negb (c =? 215) then c + 32
  else c.

Definition upper_cp (c : Z) : Z :=
  if (97 <=? c) && (c <=? 122) then c - 32
  else if (224 <=? c) && (c <=? 254) && negb (c =? 247) then c - 32
  else c.

Definition lower (s : text) : text := map lower_cp s.

Fixpoint is_prefix (p s : text) : bool :=
  match p, s with
  | [], _ => true
  | a :: p', b :: s' => (a =? b) && is_prefix p' s'
  | _ :: _, [] => false
  end.

(** [sub in s]. *)
Fixpoint contains (sub s : text) : bool :=
  is_prefix sub s || match s with [] => false | _ :: s' => contains sub s' end.

(** [s.replace(c, '')] for a single character [c]. *)
Definition remove_char (c : Z) (s : text) : text :=
  filter (fun x => x <> c) s.

(** [s.split(sep)] for a non-empty [sep]: [skip] counts the characters of
    a separator still to be dropped, [cur] is the part being read,
    reversed. *)
Fixpoint split_aux (sep : text) (skip : nat) (cur : text) (s : text) : list text :=
  match s with
  | [] => [reverse cur]
  | c :: s' =>
      match skip with
      | S k => split_aux sep k cur s'
      | O =>
          if is_prefix sep s
          then reverse cur :: split_aux sep (length sep - 1) [] s'
          else split_aux sep O (c :: cur) s'
      end
  end.

Definition split (sep s : text) : list text := split_aux sep O [] s.

(** ** Regular expressions

    The fragment of Python's [re] the sources use, with the backtracking
    order of the library: [rx_match] lists the ways a pattern matches a
    prefix of the input, first the one [re] finds first. [\d], [\s] and
    [\w] are the classes of Basic Latin; Python's classes for [str]
    patterns also hold the digits, spaces and letters beyond it, so what
    is said of a match is said of Basic Latin text. *)

Inductive charset :=
  | CDigit                       (* \d *)
  | CSpace                       (* \s *)
  | CRange (lo hi : Z).          (* [lo-hi] *)

Inductive regex :=
  | Eps
  | Lit (s : text)               (* a run of literal characters *)
  | Cls (cs : charset) (lo hi : nat)  (* cs{lo,hi}, greedy *)
  | Plus (cs : charset)          (* cs+, greedy *)
  | Opt (r : regex)              (* r?, greedy *)
  | Seq (r1 r2 : regex)
  | Alt (r1 r2 : regex)
  | Group (name : string) (r : regex). (* (?P<name>r) *)

Definition cat (rs : list regex) : regex := foldr Seq Eps rs.

Definition alts (rs : list regex) : regex :=
  match rs with
  | [] => Eps
  | r :: rs' => foldl Alt r rs'
  end.

Definition in_range (lo hi c : Z) : bool := (lo <=? c) && (c <=? hi).

Definition in_charset (ignorecase : bool) (cs : charset) (c : Z) : bool :=
  match cs with
  | CDigit => in_range 48 57 c
  | CSpace => in_range 9 13 c || in_range 28 32 c
  | CRange lo hi =>
      in_range lo hi c
      || (ignorecase && (in_range lo hi (lower_cp c) || in_range lo hi (upper_cp c)))
  end.

(** A literal under [re.IGNORECASE]: equal after case folding, or one of
    the pairs the library treats as equivalent (i and dotless i, s and
    long s). *)
Definition char_matches (ignorecase : bool) (p c : Z) : bool :=
  (p =? c)
  || (ignorecase
      && ((lower_cp p =? lower_cp c)
          || ((lower_cp p =? 105) && (c =? 305))
          || ((lower_cp p =? 115) && (c =? 383)))).

Fixpoint lit_match (ignorecase : bool) (p s : text) : option text :=
  match p, s with
  | [], _ => Some s
  | a :: p', c :: s' =>
      if char_matches ignorecase a c then lit_match ignorecase p' s' else None
  | _ :: _, [] => None
  end.

(** The runs of at most [hi] characters of the class at the head of [s],
    longest first, each with its length and the rest of the input. *)
Fixpoint class_runs (f : Z -> bool) (hi : nat) (s : text) : list (nat * text) :=
  match hi, s with
  | S h, c :: s' =>
      if f c
      then map (fun kr => (S kr.1, kr.2)) (class_runs f h s') ++ [(O, s)]
      else [(O, s)]
  | _, _ => [(O, s)]
  end.

Definition captures := list (string * text).

Definition consumed (s rest : text) : text := take (length s - length rest) s.

Fixpoint rx_match (ic : bool) (r : regex) (s : text) : list (captures * text) :=
  match r with
  | Eps => [([], s)]
  | Lit p => match lit_match ic p s with Some rest => [([], rest)] | None => [] end
  | Cls cs lo hi =>
      map (fun kr => ([], kr.2))
        (filter (fun kr => (lo <= kr.1)%nat) (class_runs (in_charset ic cs) hi s))
  | Plus cs =>
      map (fun kr => ([], kr.2))
        (filter (fun kr => (1 <= kr.1)%nat)
           (class_runs (in_charset ic cs) (length s) s))
  | Opt r1 => rx_match ic r1 s ++ [([], s)]
  | Seq r1 r2 =>
      m1 ← rx_match ic r1 s;
      m2 ← rx_match ic r2 m1.2;
      [(m1.1 ++ m2.1, m2.2)]
  | Alt r1 r2 => rx_match ic r1 s ++ rx_match ic r2 s
  | Group name r1 =>
      map (fun m => (m.1 ++ [(name, consumed s m.2)], m.2)) (rx_match ic r1 s)
  end.

(** [re.match]: the first way to match at the start of the input. *)
Definition re_match (ic : bool) (r : regex) (s : text) : option (captures * text) :=
  head (rx_match ic r s).

(** [re.search]: the leftmost position with a match; the result is
    [match.group(0)], the matched text. *)
Fixpoint re_search (ic : bool) (r : regex) (s : text) : option text :=
  match re_match ic r s with
  | Some m => Some (consumed s m.2)
  | None =>
      match s with
      | [] => None
      | _ :: s' => re_search ic r s'
      end
  end.

Definition group (name : string) (caps : captures) : option text :=
  (fun found => found.2.2) <$> list_find (fun kv => kv.1 = name) caps.

(** ** [datetime.strptime]

    CPython turns the format into a regular expression (a directive
    becomes a named group, a run of white space becomes [\s+]), matches
    it case-insensitively at the start of the data, rejects data left
    over after the first match, and builds the date from the groups. *)

Definition digit_range (lo hi : Z) : regex := Cls (CRange (48 + lo) (48 + hi)) 1 1.

Definition a_month : list text :=
  map str ["jan"; "feb"; "mar"; "apr"; "may"; "jun";
           "jul"; "aug"; "sep"; "oct"; "nov"; "dec"].

Definition directive (d : Z) : option regex :=
  if d =? 100 (* %d *) then
    Some (Group "d" (alts [Seq (Lit (str "3")) (digit_range 0 1);
                           Seq (digit_range 1 2) (Cls CDigit 1 1);
                           Seq (Lit (str "0")) (digit_range 1 9);
                           digit_range 1 9;
                           Seq (Lit (str " ")) (digit_range 1 9)]))
  else if d =? 109 (* %m *) then
    Some (Group "m" (alts [Seq (Lit (str "1")) (digit_range 0 2);
                           Seq (Lit (str "0")) (digit_range 1 9);
                           digit_range 1 9]))
  else if d =? 89 (* %Y *) then Some (Group "Y" (Cls CDigit 4 4))
  else if d =? 98 (* %b *) then Some (Group "b" (alts (map Lit a_month)))
  else None.

(** [TimeRE.pattern]; [in_space] is set while a run of white space that
    has already produced its [\s+] is being skipped. *)
Fixpoint format_regex (in_space : bool) (fmt : text) : option (list regex) :=
  match fmt with
  | [] => Some []
  | c :: rest =>
      if c =? 37 (* % *) then
        match rest with
        | d :: rest' =>
            r ← directive d; rs ← format_regex false rest'; Some (r :: rs)
        | [] => None
        end
      else if in_charset false CSpace c then
        rs ← format_regex true rest;
        Some (if in_space then rs else Plus CSpace :: rs)
      else
        rs ← format_regex false rest; Some (Lit [c] :: rs)
  end.

(** [int(s)] on a captured group: decimal digits, white space ignored. *)
Definition parse_int (s : text) : Z :=
  foldl (fun acc c => if in_range 48 57 c then acc * 10 + (c - 48) else acc) 0 s.

Definition index_of (x : text) (l : list text) : option nat :=
  fst <$> list_find (fun y => y = x) l.

Definition strptime (data fmt : text) : option datetime :=
  rs ← format_regex false fmt;
  found ← re_match true (cat rs) data;
  if negb (bool_decide (found.2 = [])) then None (* unconverted data remains *)
  else
    let year := from_option parse_int 1900 (group "Y" found.1) in
    day ← Some (from_option parse_int 1 (group "d" found.1));
    month ← match group "b" found.1 with
            | Some b => (fun i => Z.of_nat (S i)) <$> index_of (lower b) a_month
            | None => Some (from_option parse_int 1 (group "m" found.1))
            end;
    make_date year month day.

(** ** [parse_order_date] *)

Definition upper_letter : regex := Cls (CRange 65 90) 1 1.
Definition lower_letters (n : nat) : regex := Cls (CRange 97 122) n n.
Definition digits (lo hi : nat) : regex := Cls CDigit lo hi.

(** The last pattern of the list. *)
Definition dash_pattern : regex :=
  cat [digits 1 2; Lit (str "-"); digits 1 2; Lit (str "-"); digits 4 4].

Definition patterns : list regex :=
  [ (* [A-Z][a-z]{2} \d{1,2},? \d{4} *)
    cat [upper_letter; lower_letters 2; Lit (str " "); digits 1 2;
         Opt (Lit (str ",")); Lit (str " "); digits 4 4];
    (* \d{1,2} [A-Z][a-z]{2} \d{4} *)
    cat [digits 1 2; Lit (str " "); upper_letter; lower_letters 2;
         Lit (str " "); digits 4 4];
    (* [A-Z][a-z]{2} \d{1,2} *)
    cat [upper_letter; lower_letters 2; Lit (str " "); digits 1 2];
    (* \d{1,2}/\d{1,2}/\d{4} *)
    cat [digits 1 2; Lit (str "/"); digits 1 2; Lit (str "/"); digits 4 4];
    (* \d{1,2}-\d{1,2}-\d{4} *)
    dash_pattern ].

Definition formats : list text :=
  map str ["%b %d %Y"; "%d %b %Y"; "%d/%m/%Y"; "%m/%d/%Y"].

(** The nested [try] blocks: the first format that parses. *)
Definition try_formats (date_part : text) : option datetime :=
  head (omap (strptime date_part) formats).

Fixpoint try_patterns (ps : list regex) (date_str : text) : option datetime :=
  match ps with
  | [] => None
  | p :: ps' =>
      match re_search false p date_str with
      | Some m =>
          match try_formats (remove_char 44 m) with
          | Some d => Some d
          | None => try_patterns ps' date_str
          end
      | None => try_patterns ps' date_str
      end
  end.

(** [frames] bounds the depth of the recursion on the text after
    "Order time:"; beyond it Python raises [RecursionError], which the
    function's own [except Exception] turns into [None]. *)
Fixpoint parse_order_date (frames : nat) (date_str : text) : option datetime :=
  match frames with
  | O => None
  | S frames' =>
      match try_patterns patterns date_str with
      | Some d => Some d
      | None =>
          if contains (str "Order time:") date_str then
            match split (str "Order time:") date_str with
            | _ :: part :: _ => parse_order_date frames' part
            | _ => None
            end
          else None
      end
  end.

(** ** [validate_order_date] *)

Definition validate_order_date (now : datetime) (order_date : option datetime)
    : option bool :=
  match order_date with
  | None => Some false
  | Some d =>
      (* [None] is the [OverflowError] of [now - timedelta(days=30)] *)
      thirty_days_ago ← add_days now (-30);
      Some (datetime_ge d thirty_days_ago)
  end.

(** ** [TemuBot.get_orders] *)

(** A Python [str] as the UTF-8 string that the order dict holds. *)
Definition encode_cp (c : Z) : list Z :=
  if c <? 128 then [c]
  else if c <? 2048 then [192 + c / 64; 128 + c mod 64]
  else if c <? 65536 then [224 + c / 4096; 128 + c / 64 mod 64; 128 + c mod 64]
  else [240 + c / 262144; 128 + c / 4096 mod 64; 128 + c / 64 mod 64;
        128 + c mod 64].

Definition to_string (s : text) : string :=
  String.string_of_list_ascii
    (map (fun b => Ascii.ascii_of_N (Z.to_N b)) (s ≫= encode_cp)).

(** [\w] on Basic Latin, as [\d] and [\s] are; Python's class also holds
    the letters and digits beyond it. *)
Definition is_word (c : Z) : bool :=
  in_range 48 57 c || in_range 65 90 c || in_range 97 122 c || (c =? 95).

(** [re.search(r'PO-[\w-]+', s)]: the class is none of [charset], so the
    pattern is matched here as [rx_match] matches a literal followed by
    a greedy run, at the leftmost position where that succeeds. *)
Fixpoint search_order_id (s : text) : option text :=
  match
    rest ← lit_match false (str "PO-") s;
    head (filter (fun kr => (1 <= kr.1)%nat)
            (class_runs (fun c => is_word c || (c =? 45)) (length rest) rest))
  with
  | Some kr => Some (consumed s kr.2)
  | None =>
      match s with
      | [] => None
      | _ :: s' => search_order_id s'
      end
  end.

(** [(\d+)\s+items?] *)
Definition items_pattern : regex :=
  cat [Group "1" (Plus CDigit); Plus CSpace; Lit (str "item"); Opt (Lit (str "s"))].

(** [re.search] again, for the groups of the leftmost match. *)
Fixpoint re_search_groups (ic : bool) (r : regex) (s : text) : option captures :=
  match re_match ic r s with
  | Some m => Some m.1
  | None =>
      match s with
      | [] => None
      | _ :: s' => re_search_groups ic r s'
      end
  end.

(** An order element of the page: the stripped texts of the three
    spans, [None] where [safe_find_element] finds none and raises, and
    the clock as [validate_order_date] reads it. *)
Record order_element := mk_order_element {
  element_handle : nat;
  id_text : option text;
  date_text : option text;
  items_text : option text;
  now_read : datetime
}.

(** The body of the loop of [get_orders]; [None] when it raises, and the
    element is skipped with a warning. [frames] is the depth left to
    [parse_order_date]. *)
Definition get_order (frames : nat) (el : order_element) : option order :=
  order_id_text ← id_text el;
  let order_id := from_option to_string "N/A" (search_order_id order_id_text) in
  date_str ← date_text el;
  let order_date := parse_order_date frames date_str in
  items_shown ← items_text el;
  let item_count :=
    match re_search_groups false items_pattern items_shown with
    | Some caps => from_option to_string "N/A" (group "1" caps)
    | None => "N/A"
    end in
  valid ← match order_date with
          | Some d => validate_order_date (now_read el) (Some d)
          | None => Some false
          end;
  Some (list_to_map
          [("id", VStr order_id); ("date_str", VStr (to_string date_str));
           ("date_obj", from_option VDatetime VNone order_date);
           ("item_count", VStr item_count); ("valid", VBool valid);
           ("element", VElement (element_handle el))]).

(** [elements] is what [get_order_elements] returns, [None] when it
    raises. *)
Definition get_orders (frames : nat) (elements : option (list order_element))
    : list order :=
  match elements with
  | Some els => omap (get_order frames) els
  | None => []
  end.

(** ** [parse_delivery_date] of utils.py *)

Definition month_names : list (text * text) :=
  map (fun kv : string * string => (str kv.1, str kv.2))
    [("Jan", "January"); ("Feb", "February"); ("Mar", "March"); ("Apr", "April");
     ("May", "May"); ("Jun", "June"); ("Jul", "July"); ("Aug", "August");
     ("Sep", "September"); ("Oct", "October"); ("Nov", "November");
     ("Dec", "December")].

(** [month_names.get(month, month)] *)
Definition month_name (month : text) : text :=
  from_option (fun found => found.2.2) month
    (list_find (fun kv => kv.1 = month) month_names).

(** [\w] and [\w{3}] on Basic Latin; Python's class also holds the
    letters and digits beyond it (the three letters of "até"). *)
Definition word_char : regex :=
  alts [Cls (CRange 97 122) 1 1; Cls (CRange 65 90) 1 1; Cls CDigit 1 1;
        Lit (str "_")].

Definition word3 : regex := cat [word_char; word_char; word_char].

(** The three patterns; each is one group, so [match.group(1)] is the
    matched text. *)
Definition month_days_pattern : regex :=       (* (\w{3} \d{1,2}-\d{1,2}) *)
  cat [word3; Lit (str " "); digits 1 2; Lit (str "-"); digits 1 2].

Definition days_month_pattern : regex :=       (* (\d{1,2}-\d{1,2} \w{3}) *)
  cat [digits 1 2; Lit (str "-"); digits 1 2; Lit (str " "); word3].

Definition two_days_pattern : regex :=  (* (\d{1,2} \w{3} - \d{1,2} \w{3}) *)
  cat [digits 1 2; Lit (str " "); word3; Lit (str " - "); digits 1 2;
       Lit (str " "); word3].

Definition delivery_patterns : list regex :=
  [month_days_pattern; days_month_pattern; two_days_pattern].

(** What the body of the loop does with a match: it returns a text,
    raises, or goes on to the next pattern. *)
Inductive delivery_step :=
  | Returns (formatted : text)
  | Raises
  | NextPattern.

(** [f"{start_day} to {end_day} {month_names.get(month, month)}"] *)
Definition format_delivery (start_day end_day month : text) : text :=
  start_day ++ str " to " ++ end_day ++ str " " ++ month_name month.

(** Unpacking a list into two names raises [ValueError] unless it has
    two items; [start_parts[1]] raises [IndexError] when absent. *)
Definition on_delivery_match (date_range : text) : delivery_step :=
  if contains (str "-") date_range then
    match split (str " ") date_range with
    | [month; days] =>
        match split (str "-") days with
        | [start_day; end_day] => Returns (format_delivery start_day end_day month)
        | _ => Raises
        end
    | _ => Raises            (* [days, month = date_range.split(' ')] *)
    end
  else if contains (str " - ") date_range then
    match split (str " - ") date_range with
    | [start; finish] =>
        match split (str " ") start, split (str " ") finish with
        | start_day :: month :: _, end_day :: _ =>
            Returns (format_delivery start_day end_day month)
        | _, _ => Raises
        end
    | _ => Raises
    end
  else NextPattern.

Fixpoint delivery_loop (ps : list regex) (delivery_text : text) : text :=
  match ps with
  | [] => delivery_text
  | p :: ps' =>
      match re_search false p delivery_text with
      | Some date_range =>
          match on_delivery_match date_range with
          | Returns formatted => formatted
          | Raises => delivery_text           (* the [except] block *)
          | NextPattern => delivery_loop ps' delivery_text
          end
      | None => delivery_loop ps' delivery_text
      end
  end.

Definition parse_delivery_date (delivery_text : text) : text :=
  delivery_loop delivery_patterns delivery_text.

(** ** The dialog classifier, [TemuBot.check_dialog_type] *)

Inductive dialog_type := Success | Failure | Unknown.

(** What the browser shows when the classifier runs: the dialog's text
    ([None] when the wait for the dialog or the read raises) and, for a
    class name, how many elements carry it ([None] when the driver
    raises). *)
Record dialog_env := mk_dialog_env {
  dialog_text : option text;
  find_by_class : string -> option nat
}.

Definition failure_indicators : list regex :=
  [ cat [Lit (str "sorry"); Opt (Lit (str ",")); Lit (str " you cannot request")];
    Lit (str "not eligible for price adjustment");
    Lit (str "exact same specifications");
    Lit (str "same seller");
    cat [Lit (str "desculpe"); Opt (Lit (str ","));
         Lit (str " você não pode solicitar")];
    Lit (str "não é elegível para ajuste");
    Lit (str "mesmas especificações");
    Lit (str "mesmo vendedor");
    Lit (str "items that are sold out");
    Lit (str "discontinued");
    Lit (str "out of stock");
    Lit (str "no longer available");
    Lit (str "refunded");
    Lit (str "refund/return") ].

Definition success_indicators : list regex :=
  [ Lit (str "request a price adjustment");
    Lit (str "select refund method");
    Lit (str "price adjustment");
    Lit (str "refund amount");
    Lit (str "reembolso");
    Lit (str "ajuste de preço");
    Lit (str "solicitar ajuste");
    Lit (str "selecionar método") ].

Definition class_indicators : list string :=
  ["_39vL3TE4"; "_10EiyDKr"; "_2OaJDN8Y"].

(** [for indicator in indicators: if re.search(indicator, text, re.IGNORECASE)] *)
Definition any_indicator (indicators : list regex) (dialog : text) : bool :=
  existsb (fun indicator => bool_decide (is_Some (re_search true indicator dialog)))
    indicators.

(** [sum(1 for cls in class_indicators if find_elements(By.CLASS_NAME, cls))] *)
Fixpoint found_classes (find : string -> option nat) (classes : list string)
    : option nat :=
  match classes with
  | [] => Some O
  | cls :: rest =>
      n ← find cls;
      k ← found_classes find rest;
      Some (if (0 <? n)%nat then S k else k)
  end.

Definition check_dialog_type (env : dialog_env) : dialog_type :=
  match dialog_text env with
  | None => Unknown
  | Some shown =>
      let dialog_text := lower shown in
      if any_indicator failure_indicators dialog_text then Failure
      else if any_indicator success_indicators dialog_text then Success
      else
        match found_classes (find_by_class env) class_indicators with
        | Some found => if (2 <=? found)%nat then Failure else Unknown
        | None => Unknown
        end
  end.

(** ** [TemuBot.attempt_price_adjustment] *)

(** [handle_price_adjustment_flow]: [True] on a confirmation, with the
    refund amount it attaches to the order when the extraction did not
    raise; [False] otherwise. *)
Inductive flow_outcome :=
  | FlowConfirmed (refund_amount : option string)
  | FlowFailed.

(** What one sub-attempt meets. *)
Inductive sub_attempt :=
  | DriverRaises        (* an exception reaches the outer [except]          *)
  | ButtonNotFound      (* no strategy finds a displayed button             *)
  | ButtonTextChanged   (* the double verification of the text fails        *)
  | DialogTimeout       (* [TimeoutException] while waiting for the dialog  *)
  | DialogShown (dialog : dialog_env) (flow : flow_outcome).

Definition MAX_SUB_ATTEMPTS : nat := 7.

(** The [for attempt in range(1, max_attempts + 1)] loop, from [attempt]
    on, with [remaining] iterations left. The result is the tri-state
    return value and the refund amount attached to the order. *)
Fixpoint sub_attempts (remaining attempt : nat) (env : nat -> sub_attempt)
    : option bool * option string :=
  match remaining with
  | O => (None, None)          (* "All price adjustment attempts failed" *)
  | S remaining' =>
      let continue := sub_attempts remaining' (S attempt) env in
      match env attempt with
      | DriverRaises => (None, None)
      | ButtonNotFound =>
          if (attempt =? MAX_SUB_ATTEMPTS)%nat then (None, None) else continue
      | ButtonTextChanged => continue
      | DialogTimeout =>
          if (attempt <? MAX_SUB_ATTEMPTS)%nat then continue else (None, None)
      | DialogShown dialog flow =>
          match check_dialog_type dialog with
          | Success =>
              match flow with
              | FlowConfirmed refund => (Some true, refund)
              | FlowFailed => (Some false, None)
              end
          | Failure => (Some false, None)
          | Unknown => continue
          end
      end
  end.

Definition attempt_price_adjustment (env : nat -> sub_attempt)
    : option bool * option string :=
  sub_attempts MAX_SUB_ATTEMPTS 1 env.

(** ** The run scheduler, [Scheduler] of main.py *)

Record success_data := mk_success_data {
  hours : gmap string Z;        (* [str(hour)] to count *)
  timestamps : list string      (* ISO timestamps *)
}.

(** [{"hours": {}, "timestamps": []}] *)
Definition fresh_success_data : success_data := mk_success_data ∅ [].

Record scheduler := mk_scheduler {
  data : success_data;               (* [self.success_data] *)
  state_file : option success_data   (* scheduler_state.json, when readable *)
}.

(** [Scheduler.__init__] with [load_state]. *)
Definition load_state (file : option success_data) : scheduler :=
  mk_scheduler (default fresh_success_data file) file.

(** The in-memory part of [update_success]. *)
Definition record_success (timestamp : datetime) (sd : success_data) : success_data :=
  let hour_key := pretty (hour timestamp) in
  mk_success_data
    (<[hour_key := default 0 (hours sd !! hour_key) + 1]> (hours sd))
    (timestamps sd ++ [isoformat timestamp]).

(** [update_success]: the update, then [save_state], which raises when
    the file cannot be opened for writing ([write_error]); the file is
    then left as it was. An exception raised once the file is open
    would leave it truncated; [state_file] does not follow that case,
    which changes nothing else. *)
Definition update_success (timestamp : datetime) (write_error : option exn)
    (sch : scheduler) : option exn * scheduler :=
  let sd := record_success timestamp (data sch) in
  match write_error with
  | None => (None, mk_scheduler sd (Some sd))
  | Some e => (Some e, mk_scheduler sd (state_file sch))
  end.

Definition sum_hours (sd : success_data) : Z :=
  map_fold (fun _ count acc => count + acc) 0 (hours sd).

(** [datetime.replace(hour=h, minute=0, second=0)]; [ValueError] for an
    hour outside 0..23. *)
Definition replace_hour (d : datetime) (h : Z) : option datetime :=
  if (0 <=? h) && (h <? 24)
  then Some (mk_datetime (ordinal d) h 0 0 (microsecond d))
  else None.

(** [d + timedelta(minutes=n)]. *)
Definition add_minutes (d : datetime) (n : Z) : option datetime :=
  let total := hour d * 60 + minute d + n in
  add_days (mk_datetime (ordinal d) (total mod 1440 / 60) (total mod 60)
              (second d) (microsecond d))
           (total / 1440).

(** The clock, the random generator and the hour predicted by the
    regression (or by its fallback), which are floating-point and
    library code. *)
Record schedule_env := mk_schedule_env {
  clock : datetime;             (* [datetime.now()] when the run time is built *)
  clock_check : datetime;       (* [datetime.now()] in the final comparison *)
  randint : Z -> Z -> Z;        (* [random.randint(a, b)] as this run draws it *)
  predicted_hour : Z
}.

(** What the library promises of [random.randint(a, b)]: an integer [N]
    with [a <= N <= b]. *)
Definition fair_randint (env : schedule_env) : Prop :=
  forall a b, a <= b -> a <= randint env a b <= b.

(** [random.randint(9, 17)] and [random.randint(-30, 30)] *)
Definition default_hour (env : schedule_env) : Z := randint env 9 17.
Definition window_minutes (env : schedule_env) : Z := randint env (-30) 30.

(** [None] stands for the [ValueError] or [OverflowError] of the date
    arithmetic. With a history the model starts where the hour has been
    predicted. *)
Definition get_next_run_time (env : schedule_env) (sd : success_data)
    : option datetime :=
  match timestamps sd with
  | [] =>
      d ← replace_hour (clock env) (default_hour env);
      add_days d 1
  | _ :: _ =>
      d ← replace_hour (clock env) (predicted_hour env);
      next_run ← add_minutes d (window_minutes env);
      if datetime_lt next_run (clock_check env) then add_days next_run 1
      else Some next_run
  end.

(** ** The bot and its state-and-exception monad *)

(** [self.stats] (its counters), [self.scheduler], orders.json, and the
    writes of status files so far, in order, each with its status code
    and the order it rendered. The list is the history of the writes,
    not the content of the folder: before it writes, [save_order_to_txt]
    removes the files written earlier for the same order. *)
Record bot := mk_bot {
  stats : gmap string Z;
  sched : scheduler;
  orders_json : orders_file;
  status_files : list (string * order)
}.

(** The state of [process_order]: the bot, the order dict it mutates in
    place, and its local [result]. *)
Record proc := mk_proc {
  the_bot : bot;
  the_order : order;
  result : option bool
}.

(** A computation reads and writes the state and ends with a value or
    with an exception; what it wrote before raising stays written. *)
Definition M (A : Type) : Type := proc -> (exn + A) * proc.

Definition ret {A} (a : A) : M A := fun s => (inr a, s).
Definition raise {A} (e : exn) : M A := fun s => (inl e, s).
Definition bind {A B} (m : M A) (k : A -> M B) : M B :=
  fun s =>
    match m s with
    | (inr a, s') => k a s'
    | (inl e, s') => (inl e, s')
    end.
Definition try_except (m : M unit) (handler : exn -> M unit) : M unit :=
  fun s =>
    match m s with
    | (inr _, s') => (inr tt, s')
    | (inl e, s') => handler e s'
    end.

Declare Scope m_scope.
Delimit Scope m_scope with m.
Notation "'let*' x := m 'in' k" := (bind m (fun x => k))
  (at level 10, x name, m at level 100, k at level 200) : m_scope.
Notation "m >> k" := (bind m (fun _ => k))
  (at level 100, k at level 200, right associativity) : m_scope.

Definition modify_order (f : order -> order) : M unit :=
  fun s => (inr tt, mk_proc (the_bot s) (f (the_order s)) (result s)).
Definition modify_bot (f : bot -> bot) : M unit :=
  fun s => (inr tt, mk_proc (f (the_bot s)) (the_order s) (result s)).
Definition set_result (r : bool) : M unit :=
  fun s => (inr tt, mk_proc (the_bot s) (the_order s) (Some r)).

(** [order[key] = v] *)
Definition set_field (key : string) (v : value) : M unit :=
  modify_order (insert key v).

Definition set_stat (key : string) (n : Z) (b : bot) : bot :=
  mk_bot (<[key := n]> (stats b)) (sched b) (orders_json b) (status_files b).

Definition stat (key : string) (b : bot) : Z := default 0 (stats b !! key).

(** [self.stats[key] += 1] *)
Definition bump_stat (key : string) (b : bot) : bot :=
  set_stat key (stat key b + 1) b.

Definition bump (key : string) : M unit := modify_bot (bump_stat key).

(** [order['attempts']]; the key always holds an integer here. *)
Definition attempts_of (o : order) : Z :=
  match o !! "attempts" with Some (VInt n) => n | _ => 0 end.

(** [self.scheduler.update_success(datetime.now())] *)
Definition scheduler_update (now : datetime) (write_error : option exn) : M unit :=
  fun s =>
    let b := the_bot s in
    let '(err, sch) := update_success now write_error (sched b) in
    let s' := mk_proc (mk_bot (stats b) sch (orders_json b) (status_files b))
                      (the_order s) (result s) in
    match err with
    | None => (inr tt, s')
    | Some e => (inl e, s')
    end.

(** [save_order_data(order)] as called by [process_order]: the returned
    flag is ignored. *)
Definition save_order (w : write_outcome) : M unit :=
  fun s =>
    let b := the_bot s in
    let '(_, o, file) := Main.save_order_data w (orders_json b) (the_order s) in
    (inr tt, mk_proc (mk_bot (stats b) (sched b) file (status_files b)) o (result s)).

(** ** [save_order_to_txt] of utils.py *)

Definition status_map : gmap string string :=
  list_to_map [("success", "SUCESSO"); ("not_available", "INDISPONIVEL");
               ("failed", "FALHA"); ("not_attempted", "NAO_TENTADO");
               ("unknown", "DESCONHECIDO")].

(** [status_map.get(order.get('adjustment_status', 'unknown'), 'DESCONHECIDO')] *)
Definition status_code (o : order) : string :=
  match default (VStr "unknown") (o !! "adjustment_status") with
  | VStr status => default "DESCONHECIDO" (status_map !! status)
  | _ => "DESCONHECIDO"
  end.

(** The write is recorded by its status code and the order it renders;
    [write_error] is an [OSError] of [makedirs], [open] or [write]. The
    removal of the files matching [*_<name>.txt] that precedes the write
    is not followed (an error of [os.remove] is caught and logged):
    [status_files] keeps every write. *)
Definition save_order_to_txt (write_error : option exn) : M unit :=
  fun s =>
    match write_error with
    | Some e => (inl e, s)
    | None =>
        let b := the_bot s in
        let o := the_order s in
        (inr tt,
         mk_proc (mk_bot (stats b) (sched b) (orders_json b)
                    (status_files b ++ [(status_code o, o)]))
                 o (result s))
    end.

(** ** [TemuBot.process_order] *)

Definition MAX_ATTEMPTS : Z := 5.

(** What one attempt meets, in the order the code asks for it. *)
Record attempt_env := mk_attempt_env {
  details_page : bool;                  (* [get_order_details_page]        *)
  tracking : exn + gmap string string;  (* [get_tracking_info]             *)
  item_name : string;                   (* [get_element_text_or_default]   *)
  order_time : string;
  price_adjustment : nat -> sub_attempt;
  now : datetime;                       (* read for [update_success]       *)
  scheduler_write : option exn;         (* [Scheduler.save_state] raises   *)
  orders_write : write_outcome;         (* writing orders.json             *)
  status_write : option exn             (* [save_order_to_txt] raises      *)
}.

(** [str(v)] as used in messages and copied ids. *)
Definition py_str (v : value) : string :=
  match v with
  | VStr s => s
  | VInt n => pretty n
  | VBool true => "True"
  | VBool false => "False"
  | VNone => "None"
  | VDatetime d => isoformat_sep " " d
  | VElement _ => "<WebElement>"
  | VDict _ => "{...}"
  end.

(** [order['id']], read by the log lines; [KeyError] when absent. *)
Definition order_id : M value :=
  fun s =>
    match the_order s !! "id" with
    | Some v => (inr v, s)
    | None => (inl "'id'", s)
    end.

#[local] Open Scope m_scope.

(** The body of the [try] block of one iteration. *)
Definition attempt_body (e : attempt_env) : M unit :=
  modify_order (fun o => <["attempts" := VInt (attempts_of o + 1)]> o) >>
  let* id := order_id in
  if negb (details_page e) then ret tt                      (* continue *)
  else
    let* info := (match tracking e with inl err => raise err | inr t => ret t end) in
    set_field "tracking_info" (VDict info) >>
    set_field "adjustment_attempted" (VBool false) >>
    set_field "adjustment_success" (VBool false) >>
    set_field "adjustment_status" (VStr "not_attempted") >>
    set_field "last_error" (VStr "") >>
    set_field "details"
      (VDict (list_to_map [("item_name", item_name e);
                           ("order_date", order_time e);
                           ("order_id", py_str id)])) >>
    let adjustment := attempt_price_adjustment (price_adjustment e) in
    match adjustment.2 with
    | Some amount => set_field "refund_amount" (VStr amount)
    | None => ret tt
    end >>
    match adjustment.1 with
    | Some true =>
        bump "success" >>
        scheduler_update (now e) (scheduler_write e) >>
        set_field "adjustment_status" (VStr "success") >>
        set_field "adjustment_success" (VBool true) >>
        set_result true
    | Some false =>
        bump "adjustment_not_available" >>
        set_field "adjustment_status" (VStr "not_available") >>
        set_result false
    | None =>
        bump "failures" >>
        set_field "adjustment_status" (VStr "failed") >>
        set_field "last_error" (VStr "Price adjustment failed")
    end >>
    set_field "adjustment_attempted" (VBool true) >>
    save_order (orders_write e) >>
    save_order_to_txt (status_write e).

(** The [except Exception as e] block. *)
Definition on_exception (e : exn) : M unit :=
  bump "failures" >>
  let* _id := order_id in                (* [save_page_source(f"order_{...}")] *)
  set_field "last_error" (VStr e) >>
  set_field "adjustment_status" (VStr "failed").

Definition attempt (e : attempt_env) : M unit :=
  try_except (attempt_body e) on_exception.

#[local] Close Scope m_scope.

(** [while order['attempts'] < max_attempts and result is None]; the
    attempt numbered [n] meets [env n]. [fuel] bounds the iterations. *)
Fixpoint while_attempts (fuel : nat) (env : Z -> attempt_env) (s : proc)
    : option ((exn + unit) * proc) :=
  if (attempts_of (the_order s) <? MAX_ATTEMPTS) && bool_decide (result s = None)
  then
    match fuel with
    | O => None
    | S fuel' =>
        match attempt (env (attempts_of (the_order s) + 1)) s with
        | (inr _, s') => while_attempts fuel' env s'
        | (inl e, s') => Some (inl e, s')
        end
    end
  else Some (inr tt, s).

(** The result is the returned flag (or the exception that escapes the
    handler), the bot, and the caller's order dict as it was left. *)
Definition process_order (env : Z -> attempt_env) (b : bot) (o : order)
    : option ((exn + bool) * bot * order) :=
  match while_attempts (Z.to_nat MAX_ATTEMPTS) env
          (mk_proc b (<["attempts" := VInt 0]> o) None) with
  | None => None
  | Some (inr _, s) =>
      Some (inr (bool_decide (result s = Some true)), the_bot s, the_order s)
  | Some (inl e, s) => Some (inl e, the_bot s, the_order s)
  end.

(** ** [TemuBot.process_orders] *)

Record run_env := mk_run_env {
  listed : list order;                    (* what [get_orders()] returns *)
  attempt_envs : nat -> Z -> attempt_env  (* for the i-th processed order *)
}.

(** [[order for order in orders if order['valid']]] *)
Fixpoint valid_orders (orders : list order) : exn + list order :=
  match orders with
  | [] => inr []
  | o :: rest =>
      match o !! "valid" with
      | None => inl "'valid'"
      | Some v =>
          match valid_orders rest with
          | inl e => inl e
          | inr l => inr (if truthy v then o :: l else l)
          end
      end
  end.

Definition is_datetime (v : value) : bool :=
  match v with VDatetime _ => true | _ => false end.

(** The keys the log lines of the loop read. *)
Definition log_order (o : order) : option exn :=
  match o !! "id", o !! "date_obj", o !! "item_count" with
  | None, _, _ => Some "'id'"
  | Some _, None, _ => Some "'date_obj'"
  | Some _, Some d, count =>
      if truthy d && negb (is_datetime d)
      then Some "object has no attribute 'strftime'"
      else match count with None => Some "'item_count'" | Some _ => None end
  end.

(** The [for] loop over [orders_to_process]; [i] counts from 0. The trace
    lists the orders handed to [process_order], each with the dict as
    the call left it and with its answer. *)
Fixpoint process_each (i : nat) (todo : list order) (env : run_env) (b : bot)
    : option ((exn + unit) * bot * list (order * order * bool)) :=
  match todo with
  | [] => Some (inr tt, b, [])
  | o :: rest =>
      let b1 := bump_stat "processed" b in
      match log_order o with
      | Some e => Some (inl e, b1, [])
      | None =>
          match process_order (attempt_envs env i) b1 o with
          | None => None
          | Some (inl e, b2, o') => Some (inl e, b2, [(o, o', false)])
          | Some (inr ok, b2, o') =>
              match process_each (S i) rest env b2 with
              | None => None
              | Some (r, b3, trace) => Some (r, b3, (o, o', ok) :: trace)
              end
          end
      end
  end.

Definition MAX_ORDERS : nat := 10.

Definition process_orders (env : run_env) (b : bot)
    : option (bool * bot * list (order * order * bool)) :=
  match listed env with
  | [] => Some (true, b, [])                         (* "No orders found" *)
  | _ :: _ =>
      let orders := listed env in
      let b1 := set_stat "total_orders" (Z.of_nat (length orders)) b in
      match valid_orders orders with
      | inl _ => Some (false, b1, [])
      | inr valid =>
          let b2 := set_stat "valid_orders" (Z.of_nat (length valid)) b1 in
          let max_orders := Nat.min MAX_ORDERS (length valid) in
          let orders_to_process := take max_orders valid in
          match process_each 0 orders_to_process env b2 with
          | None => None
          | Some (inr _, b3, trace) => Some (true, b3, trace)
          | Some (inl _, b3, trace) => Some (false, b3, trace)
          end
      end
  end.

(** ** Loading all orders, the first loop of [process_orders] *)

(** What a call of [is_view_more_present] meets: the button, no button
    within the wait ([TimeoutException], answered [False]), or another
    exception of the driver, which leaves the loop. *)
Inductive view_more := Present | Absent | CheckRaises (e : exn).

(** [while self.is_view_more_present(): self.click_view_more(); ...]
    from the check numbered [checks] on. The answer of
    [click_view_more] is not looked at. The result is the number of
    clicks, with the exception that ended the loop if one did; [None]
    when [fuel] iterations were not enough. *)
Fixpoint load_more (fuel : nat) (check : nat -> view_more) (checks : nat)
    : option (nat * option exn) :=
  match check checks with
  | Absent => Some (checks, None)
  | CheckRaises e => Some (checks, Some e)
  | Present =>
      match fuel with
      | O => None
      | S fuel' => load_more fuel' check (S checks)
      end
  end.

(** ** Reading the store *)

(** The record carries an id equal to [v]. *)
Definition has_id (v : value) (r : order) : bool :=
  match r !! "id" with Some rid => py_eqb rid v | None => false end.

(** How many records of the store carry an id equal to [v]. *)
Fixpoint count_id (v : value) (records : list order) : nat :=
  match records with
  | [] => O
  | r :: rest => ((if has_id v r then 1 else 0) + count_id v rest)%nat
  end.

(** The date of the order can be serialised by main.py: it is absent,
    falsy, a datetime, or a [WebElement] (which is dropped first). *)
Definition date_convertible (o : order) : bool :=
  match o !! "date_obj" with
  | Some v => negb (truthy v) || is_datetime v || is_element v
  | None => true
  end.

(** ** Reading an attempt *)

(** The value an attempt assigns to [result], if it assigns one: the
    adjustment's answer when the details page loaded and the tracking
    data was read, [True] only if the scheduler state was written too. *)
Definition outcome (e : attempt_env) : option bool :=
  if details_page e then
    match tracking e with
    | inl _ => None
    | inr _ =>
        match (attempt_price_adjustment (price_adjustment e)).1 with
        | Some true =>
            match scheduler_write e with Some _ => None | None => Some true end
        | other => other
        end
    end
  else None.

(** The status an attempt that loads the details page leaves in the dict:
    the one of its outcome, overwritten by the exception handler when
    the status file cannot be written. *)
Definition outcome_status (r : option bool) : string :=
  match r with
  | Some true => "success"
  | Some false => "not_available"
  | None => "failed"
  end.

Definition final_status (e : attempt_env) : string :=
  match status_write e with
  | None => outcome_status (outcome e)
  | Some _ => "failed"
  end.

Definition status_of (o : order) : option value := o !! "adjustment_status".

(** [adjustment_success == True] implies [adjustment_status == "success"]. *)
Definition consistent (o : order) : Prop :=
  o !! "adjustment_success" = Some (VBool true) ->
  o !! "adjustment_status" = Some (VStr "success").

(** A dict as an attempt with environment [e] hands it to the savers. *)
Definition written_record (e : attempt_env) (id : value) (o : order) : Prop :=
  o !! "id" = Some id
  /\ o !! "adjustment_status" = Some (VStr (outcome_status (outcome e)))
  /\ o !! "adjustment_success" = Some (VBool (bool_decide (outcome e = Some true))).

(** What an attempt may do to orders.json and to the status files. *)
Definition store_step (e : attempt_env) (id : value) (before after : bot) : Prop :=
  (orders_json after = orders_json before
   \/ orders_json after = Corrupt
   \/ exists saved records',
        upsert (load_orders (orders_json before)) saved = inr records'
        /\ orders_json after = Stored records'
        /\ written_record e id saved)
  /\ (status_files after = status_files before
      \/ exists rendered,
           status_files after
           = status_files before ++ [(status_code rendered, rendered)]
           /\ written_record e id rendered).

(** What holds of the state once the attempt numbered [n] was the last. *)
Definition stopped_after (env : Z -> attempt_env) (id : value) (n : Z) (s' : proc)
    : Prop :=
  attempts_of (the_order s') = n
  /\ result s' = outcome (env n)
  /\ the_order s' !! "id" = Some id
  /\ (details_page (env n) = true ->
      status_of (the_order s') = Some (VStr (final_status (env n))))
  /\ (details_page (env n) = true -> (exists info, tracking (env n) = inr info) ->
      the_order s' !! "adjustment_success"
      = Some (VBool (bool_decide (outcome (env n) = Some true)))).

(** The store and the status files hold consistent records only. *)
Definition consistent_bot (b : bot) : Prop :=
  Forall consistent (load_orders (orders_json b))
  /\ Forall (fun file => consistent file.2) (status_files b).

(** An order as the loop of [process_orders] needs it: a string id and
    the keys its log lines read. *)
Definition well_listed (o : order) : Prop :=
  (exists id, o !! "id" = Some (VStr id)) /\ log_order o = None.

(** The orders of a trace, as they were handed to [process_order]. *)
Definition handed (trace : list (order * order * bool)) : list order :=
  map (fun entry => entry.1.1) trace.


(** The texts on which this file reads as Python does. On Basic Latin
    with Latin-1, [lower] is [str.lower()] and a literal matches under
    [re.IGNORECASE] as [char_matches] says; beyond U+00FF Python folds
    further code points, and not always one by one. On Basic Latin the
    classes [\d], [\s] and [\w] are the ones of Python's [re]; beyond
    it Python's classes hold further digits, spaces and letters. *)
Definition latin1 (s : text) : Prop := Forall (fun c => 0 <= c < 256) s.

Definition basic_latin (s : text) : Prop := Forall (fun c => 0 <= c < 128) s.

(** ** Reading a match *)

(** The character can be part of a text the pattern matches. *)
Fixpoint may_consume (ic : bool) (r : regex) (c : Z) : bool :=
  match r with
  | Eps => false
  | Lit p => existsb (fun a => char_matches ic a c) p
  | Cls cs _ _ => in_charset ic cs c
  | Plus cs => in_charset ic cs c
  | Opt r1 => may_consume ic r1 c
  | Seq r1 r2 => may_consume ic r1 c || may_consume ic r2 c
  | Alt r1 r2 => may_consume ic r1 c || may_consume ic r2 c
  | Group _ r1 => may_consume ic r1 c
  end.

(** The least and the greatest number of characters a match of the
    pattern consumes; [None] when there is no bound. *)
Fixpoint min_len (r : regex) : nat :=
  match r with
  | Eps => 0
  | Lit p => length p
  | Cls _ lo _ => lo
  | Plus _ => 1
  | Opt _ => 0
  | Seq r1 r2 => min_len r1 + min_len r2
  | Alt r1 r2 => Nat.min (min_len r1) (min_len r2)
  | Group _ r1 => min_len r1
  end.

Fixpoint max_len (r : regex) : option nat :=
  match r with
  | Eps => Some O
  | Lit p => Some (length p)
  | Cls _ _ hi => Some hi
  | Plus _ => None
  | Opt r1 => max_len r1
  | Seq r1 r2 => a ← max_len r1; b ← max_len r2; Some (a + b)%nat
  | Alt r1 r2 => a ← max_len r1; b ← max_len r2; Some (Nat.max a b)
  | Group _ r1 => max_len r1
  end.

(** A text that the pattern can match as a whole: its characters are
    characters the pattern consumes, its length lies between the bounds,
    and a literal matched with case is matched as it is written. *)
Definition piece_of (ic : bool) (r : regex) (piece : text) : Prop :=
  Forall (fun c => may_consume ic r c = true) piece
  /\ (min_len r <= length piece)%nat
  /\ (forall n, max_len r = Some n -> (length piece <= n)%nat)
  /\ (forall p, r = Lit p -> ic = false -> piece = p).

(** ** Reading a date *)

(** The patterns of [parse_order_date] that ask for a four-digit year in
    a form some format reads: the first, the second and the fourth. *)
Definition year_patterns : list regex :=
  omap (fun i => patterns !! i) [0; 1; 3]%nat.

(** The time of day is 00:00:00. *)
Definition is_midnight (d : datetime) : Prop :=
  hour d = 0 /\ minute d = 0 /\ second d = 0 /\ microsecond d = 0.

(** [validate_order_date] on a date at midnight: the date is at most 29
    days before today, or 30 days before today when the clock reads
    midnight exactly. *)
Definition in_window (now d : datetime) : Prop :=
  ordinal now - ordinal d < 30 \/ (ordinal now - ordinal d = 30 /\ is_midnight now).

(** The order carries the flag [valid == True]. *)
Definition is_valid (o : order) : Prop := o !! "valid" = Some (VBool true).

#[global] Instance is_valid_dec (o : order) : Decision (is_valid o).
Proof. unfold is_valid. apply _. Defined.

(** ** Reading the sub-attempts *)

(** A sub-attempt after which the loop goes on (or, at the last one, gives
    up): the button was not found or changed its text, no dialog came up,
    or the dialog was of unknown type. *)
Definition inconclusive (a : sub_attempt) : bool :=
  match a with
  | DriverRaises => false
  | ButtonNotFound | ButtonTextChanged | DialogTimeout => true
  | DialogShown dialog _ =>
      match check_dialog_type dialog with Unknown => true | _ => false end
  end.

(** The answer of a sub-attempt that is not inconclusive. *)
Definition verdict (a : sub_attempt) : option bool * option string :=
  match a with
  | DialogShown dialog flow =>
      match check_dialog_type dialog, flow with
      | Success, FlowConfirmed refund => (Some true, refund)
      | Success, FlowFailed | Failure, _ => (Some false, None)
      | Unknown, _ => (None, None)
      end
  | _ => (None, None)
  end.

(** The sub-attempts numbered [from], ..., [from + n - 1] are inconclusive. *)
Definition all_inconclusive (env : nat -> sub_attempt) (from n : nat) : Prop :=
  forall j, (from <= j < from + n)%nat -> inconclusive (env j) = true.

(** ** Reading a sequence of saves *)

(** No two records of the store carry the same id. *)
Definition unique_ids (records : list order) : Prop :=
  forall v, (count_id v records <= 1)%nat.

(** A store as [save_order_data] expects it and leaves it. *)
Definition clean_store (file : orders_file) : Prop :=
  Forall (fun r => is_Some (r !! "id")) (load_orders file)
  /\ unique_ids (load_orders file).

(** The saver of main.py or the one of utils.py. *)
Definition save_with (main : bool)
    : write_outcome -> orders_file -> order -> bool * order * orders_file :=
  if main then Main.save_order_data else Utils.save_order_data.

(** A sequence of saves, each by one of the two savers and with its own
    outcome of the write; the file after the last one. *)
Definition save_all (steps : list (bool * write_outcome * order))
    (file : orders_file) : orders_file :=
  foldl (fun f step => (save_with step.1.1 step.1.2 f step.2).2) file steps.

(** The order has an id that survives [drop_elements]. *)
Definition has_plain_id (o : order) : Prop :=
  exists oid, o !! "id" = Some oid /\ is_element oid = false.

(** The order has an id that [json.dump] writes as it is, so that the
    stored id read back equals it: not a datetime, which [default=str]
    turns into a string, and not an element. The ids that [get_orders]
    lists are strings. *)
Definition has_json_id (o : order) : Prop :=
  exists oid, o !! "id" = Some oid /\ is_element oid = false
              /\ is_datetime oid = false.

(** The dict went through [save_order_data] of main.py: its date is a
    string. *)
Definition date_serialised (o : order) : Prop :=
  exists iso, o !! "date_obj" = Some (VStr iso) /\ iso <> "".

(** orders.json has been written at most once since the file was
    [file]: either the dict still holds its datetime and the file is as
    it was, or the date is serialised and the file is what one call of
    [save_order_data] made of it, on the dict of some earlier moment. *)
Definition saved_once (d : datetime) (file : orders_file) (s : proc) : Prop :=
  (the_order s !! "date_obj" = Some (VDatetime d) /\ orders_json (the_bot s) = file)
  \/ (date_serialised (the_order s)
      /\ exists w saved_from,
           saved_from !! "date_obj" = Some (VDatetime d)
           /\ attempts_of saved_from <= attempts_of (the_order s)
           /\ orders_json (the_bot s) = (Main.save_order_data w file saved_from).2).

(** A computation that keeps a property of the state, also when it
    raises. *)
Definition preserves {A} (P : proc -> Prop) (m : M A) : Prop :=
  forall s, P s -> P (m s).2.

(** ** Reading the scheduler's history *)

(** A run of [update_success] calls, each with the outcome of its
    [save_state]. *)
Definition update_all (updates : list (datetime * option exn)) (sch : scheduler)
    : scheduler :=
  foldl (fun s u => (update_success u.1 u.2 s).2) sch updates.

(** How many of the timestamps fall in hour [h]. *)
Definition count_hour (h : Z) (stamps : list datetime) : Z :=
  Z.of_nat (length (filter (fun t => hour t = h) stamps)).

(** [hours.get(str(h), 0)] *)
Definition hour_count (sd : success_data) (h : Z) : Z :=
  default 0 (hours sd !! pretty h).

(** ** Reading the statistics *)

(** The counters an attempt of [process_order] may touch. *)
Definition outcome_counters : list string :=
  ["success"; "adjustment_not_available"; "failures"].

(** [len(self.scheduler.success_data['timestamps'])] *)
Definition recorded (b : bot) : Z :=
  Z.of_nat (length (timestamps (data (sched b)))).

(** What processing may do to the statistics, the scheduler and the
    history of status files: only the outcome counters move, no counter
    decreases, every counted success is a timestamp recorded by the
    scheduler, and writes are only added to the history. *)
Definition bot_step (b b' : bot) : Prop :=
  (forall k, k ∉ outcome_counters -> stats b' !! k = stats b !! k)
  /\ (forall k, stat k b <= stat k b')
  /\ stat "success" b' - stat "success" b = recorded b' - recorded b
  /\ status_files b `prefix_of` status_files b'.

(** A computation that moves the bot by [bot_step] only. *)
Definition respects {A} (m : M A) : Prop :=
  forall s, bot_step (the_bot s) (the_bot (m s).2).

(** ** Sample inputs *)

(** 2024-02-04T10:30:00 and 2024-01-05T00:00:00. *)
Definition sample_now : datetime := mk_datetime 738920 10 30 0 0.
Definition sample_date : datetime := mk_datetime 738890 0 0 0 0.

(** An order as [get_orders] lists it. *)
Definition listed_order (id : string) (date : datetime) (valid : bool) : order :=
  list_to_map [("id", VStr id); ("date_str", VStr "Jan 5, 2024");
               ("date_obj", VDatetime date); ("item_count", VStr "2");
               ("valid", VBool valid); ("element", VElement 7)].

Definition sample_order : order := listed_order "PO-1" sample_date true.

(** A stored record of an earlier run, and a record saved after it. *)
Definition stored_record (id status : string) : order :=
  list_to_map [("id", VStr id); ("date_obj", VStr "2024-01-05T00:00:00");
               ("adjustment_status", VStr status); ("refund_amount", VStr "$1.00")].

Definition later_record (id status : string) : order :=
  list_to_map [("id", VStr id); ("date_obj", VDatetime sample_date);
               ("adjustment_status", VStr status)].

(** A store that holds the same id twice. *)
Definition duplicate_store : orders_file :=
  Stored [stored_record "PO-1" "failed"; stored_record "PO-1" "success"].

Definition sample_bot : bot :=
  mk_bot (list_to_map [("total_orders", 0); ("valid_orders", 0); ("processed", 0);
                       ("success", 0); ("failures", 0);
                       ("adjustment_available", 0);
                       ("adjustment_not_available", 0)])
         (load_state None) Missing [].

Definition sample_tracking : gmap string string :=
  list_to_map [("tracking_number", "TN123"); ("delivery_text", "Jan 5-9");
               ("formatted_delivery", "5 to 9 January")].

(** A dialog with the given text and none of the structural markers. *)
Definition dialog_with (shown : string) : dialog_env :=
  mk_dialog_env (Some (str shown)) (fun _ => Some O).

Definition ineligible_dialog : dialog_env :=
  dialog_with "Sorry, this order is Not Eligible for Price Adjustment".

Definition request_dialog : dialog_env :=
  dialog_with "Request a price adjustment".

(** The details page times out. *)
Definition details_never_load : attempt_env :=
  mk_attempt_env false (inr ∅) "N/A" "N/A" (fun _ => ButtonNotFound)
    sample_now None WriteOk None.

(** The first dialog says the order is not eligible. *)
Definition ineligible_attempt : attempt_env :=
  mk_attempt_env true (inr sample_tracking) "Mug" "Order time: Jan 5, 2024"
    (fun _ => DialogShown ineligible_dialog FlowFailed)
    sample_now None WriteOk None.

(** The adjustment is confirmed; [status_write] says whether the status
    file can be written. *)
Definition confirmed_attempt (status_write : option exn) : attempt_env :=
  mk_attempt_env true (inr sample_tracking) "Mug" "Order time: Jan 5, 2024"
    (fun _ => DialogShown request_dialog (FlowConfirmed (Some "$1.00")))
    sample_now None WriteOk status_write.

(** A listed order whose adjustment is confirmed on the first attempt
    while its status file cannot be written. *)
Definition confirmed_without_status_file : option ((exn + bool) * bot * order) :=
  process_order (fun _ => confirmed_attempt (Some "File name too long"))
    sample_bot sample_order.

(** A listed order whose adjustment is confirmed on every attempt while
    scheduler_state.json cannot be written. *)
Definition confirmed_without_state_file : option ((exn + bool) * bot * order) :=
  process_order
    (fun _ => mk_attempt_env true (inr sample_tracking) "Mug" "Order time: Jan 5, 2024"
                (fun _ => DialogShown request_dialog (FlowConfirmed (Some "$1.00")))
                sample_now (Some "Permission denied: 'scheduler_state.json'")
                WriteOk None)
    sample_bot sample_order.

(** A listed order whose first dialog says it is not eligible while its
    status file cannot be written. *)
Definition ineligible_without_status_file : option ((exn + bool) * bot * order) :=
  process_order
    (fun _ => mk_attempt_env true (inr sample_tracking) "Mug" "Order time: Jan 5, 2024"
                (fun _ => DialogShown ineligible_dialog FlowFailed)
                sample_now None WriteOk (Some "File name too long"))
    sample_bot sample_order.

(** A listed order whose details page never loads. *)
Definition never_loaded : option ((exn + bool) * bot * order) :=
  process_order (fun _ => details_never_load) sample_bot sample_order.

(** An expired order followed by twelve valid ones. *)
Definition thirteen_orders : list order :=
  listed_order "PO-0" sample_date false
  :: map (fun i : nat => listed_order ("PO-" +:+ pretty i) sample_date true)
       (seq 1 12).

Definition sample_run : run_env :=
  mk_run_env thirteen_orders (fun _ _ => ineligible_attempt).

(** Dates as the order list may print them, for exhaustive checks. *)
Definition month_abbr : list string :=
  ["Jan"; "Feb"; "Mar"; "Apr"; "May"; "Jun"; "Jul"; "Aug"; "Sep"; "Oct"; "Nov"; "Dec"].

(** "Mon d yyyy" and "a/b/yyyy". *)
Definition render_month_name (y m d : Z) : text :=
  str (default "" (month_abbr !! Z.to_nat (m - 1)) +:+ " " +:+ pretty d +:+ " "
       +:+ zero_pad 4 y).

Definition render_slash (a b y : Z) : text :=
  str (pretty a +:+ "/" +:+ pretty b +:+ "/" +:+ zero_pad 4 y).

(** Day first when that is a date, month first otherwise. *)
Definition slash_reading (a b y : Z) : option datetime :=
  match make_date y b a with
  | Some d => Some d
  | None => make_date y a b
  end.

Definition all_pairs (f : Z -> Z -> bool) (xs ys : list Z) : bool :=
  forallb (fun x => forallb (f x) ys) xs.

(** A run that draws 10 for the default hour and -20 for the window. *)
Definition sample_schedule_env : schedule_env :=
  mk_schedule_env sample_now sample_now (fun a b => a + (b - a) / 6) 14.

(** A history with one success, recorded at [sample_now]. *)
Definition sample_history : success_data :=
  record_success sample_now fresh_success_data.

(** Three elements of the order list: a recent order, one with a dash
    date, and one whose id span is missing. *)
Definition sample_elements : list order_element :=
  [mk_order_element 1 (Some (str "Order ID: PO-211-00001 copy"))
     (Some (str "Order time: Jan 6, 2024")) (Some (str "3 items: $12.50"))
     sample_now;
   mk_order_element 2 (Some (str "PO-211-00002")) (Some (str "05-01-2024"))
     (Some (str "1 item")) sample_now;
   mk_order_element 3 None (Some (str "Jan 5, 2024")) (Some (str "1 item"))
     sample_now].

(** An order whose first attempt finds no button and whose second is
    confirmed. *)
Definition retried_order : option ((exn + bool) * bot * order) :=
  process_order
    (fun k => if k =? 1
              then mk_attempt_env true (inr sample_tracking) "Mug" "N/A"
                     (fun _ => ButtonNotFound) sample_now None WriteOk None
              else confirmed_attempt None)
    sample_bot sample_order.

(** * Properties *)

Example ord2ymd_samples :
  map ord2ymd [1; 365; 366; 730120; 738890; 738950; 739311; 146097; 3652059]
  = [(1, 1, 1); (1, 12, 31); (2, 1, 1); (2000, 1, 1); (2024, 1, 5);
     (2024, 3, 5); (2025, 3, 1); (400, 12, 31); (9999, 12, 31)].
Proof. reflexivity. Qed.

Example ymd2ord_samples :
  [ymd2ord 1 1 1; ymd2ord 2000 1 1; ymd2ord 2024 1 5; ymd2ord 2024 2 29;
   ymd2ord 9999 12 31]
  = [1; 730120; 738890; 738945; 3652059].
Proof. reflexivity. Qed.

Example isoformat_samples :
  isoformat (mk_datetime 738890 0 0 0 0) = "2024-01-05T00:00:00"
  /\ isoformat (mk_datetime 738945 9 5 7 1200) = "2024-02-29T09:05:07.001200".
Proof. split; reflexivity. Qed.


(** ** The 30-day window *)

Lemma datetime_ge_to_us (a b : datetime) :
  0 <= hour a < 24 -> 0 <= minute a < 60 -> 0 <= second a < 60 ->
  0 <= microsecond a < 1000000 ->
  0 <= hour b < 24 -> 0 <= minute b < 60 -> 0 <= second b < 60 ->
  0 <= microsecond b < 1000000 ->
  datetime_ge a b = true <-> to_us b <= to_us a.
Proof.
  intros. unfold datetime_ge, to_us.
  repeat match goal with
         | |- context [?x =? ?y] => destruct (Z.eqb_spec x y); simpl
         end;
    rewrite ?Z.ltb_lt, ?Z.leb_le; lia.
Qed.

Lemma add_days_some (d : datetime) (n : Z) (d' : datetime) :
  add_days d n = Some d' ->
  ordinal d' = ordinal d + n /\ hour d' = hour d /\ minute d' = minute d
  /\ second d' = second d /\ microsecond d' = microsecond d
  /\ 1 <= ordinal d' <= MAXORDINAL.
Proof.
  unfold add_days. destruct (_ && _) eqn:E; [|discriminate].
  intros [= <-]. simpl. apply andb_true_iff in E. lia.
Qed.

Lemma add_days_in_range (d : datetime) (n : Z) :
  1 <= ordinal d + n <= MAXORDINAL ->
  add_days d n
  = Some (mk_datetime (ordinal d + n) (hour d) (minute d) (second d) (microsecond d)).
Proof.
  intros. unfold add_days.
  replace ((1 <=? ordinal d + n) && (ordinal d + n <=? MAXORDINAL)) with true; [done|].
  symmetry. apply andb_true_iff. lia.
Qed.

(** C4. [validate_order_date] answers for every date, and answers true
    exactly for the dates that are not earlier than 30 days before now;
    the date 30 days before now is valid, the date 31 days before now is
    not, and an absent date is never valid. *)
Theorem validate_order_date_window (now d : datetime) :
  wf_datetime now -> wf_datetime d -> 31 < ordinal now ->
  validate_order_date now None = Some false
  /\ (exists valid, validate_order_date now (Some d) = Some valid
        /\ (valid = true <-> to_us now - 30 * US_PER_DAY <= to_us d))
  /\ (exists d30, add_days now (-30) = Some d30
        /\ validate_order_date now (Some d30) = Some true)
  /\ (exists d31, add_days now (-31) = Some d31
        /\ validate_order_date now (Some d31) = Some false).
Proof.
  intros (Ho & Hh & Hm & Hs & Hu) (Hdo & Hdh & Hdm & Hds & Hdu) Hlate.
  unfold validate_order_date.
  rewrite (add_days_in_range now (-30)) by lia.
  rewrite (add_days_in_range now (-31)) by lia. simpl.
  split; [done|]. split; [|split].
  - eexists; split; [done|].
    rewrite datetime_ge_to_us by (simpl; lia).
    unfold to_us, US_PER_DAY; simpl. lia.
  - eexists; split; [done|]. f_equal.
    apply datetime_ge_to_us; simpl; lia.
  - eexists; split; [done|]. f_equal.
    apply not_true_is_false. rewrite datetime_ge_to_us by (simpl; lia).
    unfold to_us; simpl. lia.
Qed.

Lemma validate_order_date_window_witness :
  (wf_datetime sample_now /\ wf_datetime sample_date /\ 31 < ordinal sample_now)
  /\ validate_order_date sample_now None = Some false
  /\ (exists valid, validate_order_date sample_now (Some sample_date) = Some valid
        /\ (valid = true
            <-> to_us sample_now - 30 * US_PER_DAY <= to_us sample_date))
  /\ (exists d30, add_days sample_now (-30) = Some d30
        /\ validate_order_date sample_now (Some d30) = Some true)
  /\ (exists d31, add_days sample_now (-31) = Some d31
        /\ validate_order_date sample_now (Some d31) = Some false).
Proof.
  assert (Hnow : wf_datetime sample_now)
    by (unfold wf_datetime, MAXORDINAL; simpl; lia).
  assert (Hdate : wf_datetime sample_date)
    by (unfold wf_datetime, MAXORDINAL; simpl; lia).
  assert (Hlate : 31 < ordinal sample_now) by (simpl; lia).
  split; [done|].
  exact (validate_order_date_window sample_now sample_date Hnow Hdate Hlate).
Defined.

(** An order dated at midnight 30 calendar days ago is already outside
    the window once the clock has passed midnight. *)
Example validate_midnight_30_days_ago :
  validate_order_date sample_now (make_date 2024 1 5) = Some false
  /\ validate_order_date (mk_datetime 738920 0 0 0 0)
       (make_date 2024 1 5) = Some true.
Proof. split; reflexivity. Qed.

(** ** The scheduler *)

Lemma sum_hours_insert (m : gmap string Z) (k : string) (n : Z) :
  map_fold (fun _ count acc => count + acc) 0 (<[k := n]> m)
  = map_fold (fun _ count acc => count + acc) 0 m - default 0 (m !! k) + n.
Proof.
  destruct (m !! k) as [c|] eqn:Hk; simpl.
  - rewrite <- insert_delete_eq.
    rewrite map_fold_insert_L; [|intros; lia|apply lookup_delete_eq].
    rewrite (map_fold_delete_L _ _ k c m); [lia|intros; lia|done].
  - rewrite map_fold_insert_L; [lia|intros; lia|done].
Qed.

Lemma record_success_sum (timestamp : datetime) (sd : success_data) :
  sum_hours (record_success timestamp sd) = sum_hours sd + 1.
Proof. unfold sum_hours, record_success; simpl. rewrite sum_hours_insert. lia. Qed.

(** C10. [update_success] keeps the sum of the hour counts equal to the
    number of timestamps: it adds one to the bucket of the timestamp's
    hour, leaves the other buckets alone and appends one timestamp; the
    fresh state satisfies the equation. *)
Theorem update_success_keeps_sum (timestamp : datetime) (write_error : option exn)
    (sch : scheduler) :
  sum_hours (data sch) = Z.of_nat (length (timestamps (data sch))) ->
  let after := data (update_success timestamp write_error sch).2 in
  let key := pretty (hour timestamp) in
  sum_hours after = Z.of_nat (length (timestamps after))
  /\ hours after !! key = Some (default 0 (hours (data sch) !! key) + 1)
  /\ (forall k, k <> key -> hours after !! k = hours (data sch) !! k)
  /\ timestamps after = timestamps (data sch) ++ [isoformat timestamp]
  /\ sum_hours fresh_success_data
     = Z.of_nat (length (timestamps fresh_success_data)).
Proof.
  intros Hinv after key.
  assert (Hafter : after = record_success timestamp (data sch)).
  { unfold after, update_success. by destruct write_error. }
  rewrite Hafter. split; [|split; [|split; [|split]]].
  - rewrite record_success_sum, Hinv. simpl. rewrite length_app. simpl. lia.
  - simpl. apply lookup_insert_eq.
  - intros k Hk. simpl. by apply lookup_insert_ne.
  - done.
  - done.
Qed.

Lemma update_success_keeps_sum_witness :
  sum_hours (data (load_state None))
  = Z.of_nat (length (timestamps (data (load_state None))))
  /\ sum_hours (data (update_success sample_now None (load_state None)).2) = 1
  /\ timestamps (data (update_success sample_now None (load_state None)).2)
     = ["2024-02-04T10:30:00"].
Proof.
  assert (H0 : sum_hours (data (load_state None))
               = Z.of_nat (length (timestamps (data (load_state None)))))
    by reflexivity.
  split; [exact H0|].
  destruct (update_success_keeps_sum sample_now None (load_state None) H0)
    as (Hsum & _ & _ & Hts & _).
  split; [|exact Hts].
  rewrite Hsum, Hts. reflexivity.
Defined.

(** What reaches the state file: the same data when the write succeeds,
    the file as it was when [open] raises. *)
Lemma update_success_state_file (timestamp : datetime) (sch : scheduler) :
  state_file (update_success timestamp None sch).2
  = Some (record_success timestamp (data sch))
  /\ forall e, state_file (update_success timestamp (Some e) sch).2 = state_file sch.
Proof. split; reflexivity. Qed.

(** C8. With no recorded timestamp, [get_next_run_time] returns tomorrow's
    date at the hour it draws with [random.randint(9, 17)], at minute 0
    and second 0: a time between 09:00 and 17:59, whatever the generator
    draws within the bounds it is given. *)
Theorem get_next_run_time_empty (env : schedule_env) (sd : success_data) :
  timestamps sd = [] ->
  fair_randint env ->
  1 <= ordinal (clock env) < MAXORDINAL ->
  exists next_run,
    get_next_run_time env sd = Some next_run
    /\ ordinal next_run = ordinal (clock env) + 1
    /\ 9 <= hour next_run <= 17
    /\ minute next_run = 0 /\ second next_run = 0
    /\ microsecond next_run = microsecond (clock env).
Proof.
  intros Hts Hfair Hord. unfold get_next_run_time. rewrite Hts.
  assert (Hhour : 9 <= default_hour env <= 17) by (apply Hfair; lia).
  unfold replace_hour.
  replace ((0 <=? default_hour env) && (default_hour env <? 24)) with true
    by (symmetry; apply andb_true_iff; lia).
  simpl. rewrite add_days_in_range by (simpl; lia). simpl.
  eexists; split; [done|]. simpl. lia.
Qed.

Lemma get_next_run_time_empty_witness :
  exists next_run,
    get_next_run_time sample_schedule_env fresh_success_data = Some next_run
    /\ ordinal next_run = ordinal (clock sample_schedule_env) + 1
    /\ 9 <= hour next_run <= 17
    /\ minute next_run = 0 /\ second next_run = 0
    /\ microsecond next_run = microsecond (clock sample_schedule_env).
Proof.
  apply get_next_run_time_empty; [reflexivity | | unfold MAXORDINAL; simpl; lia].
  intros a b Hab. cbn [sample_schedule_env randint].
  pose proof (Z.div_pos (b - a) 6). pose proof (Z.div_le_upper_bound (b - a) 6 (b - a)).
  lia.
Defined.

(** ** The record store *)

Ltac py_eqb_cases := cbv beta iota delta [py_eqb].

Ltac bool_eq :=
  apply Bool.eq_iff_eq_true;
  rewrite ?bool_decide_eq_true, ?Z.eqb_eq;
  split; intros; simplify_eq; try done; try lia.

Lemma py_eqb_refl (v : value) : py_eqb v v = true.
Proof. destruct v; py_eqb_cases; by apply bool_decide_eq_true_2. Qed.

Lemma py_eqb_sym (v w : value) : py_eqb v w = py_eqb w v.
Proof. destruct v, w; py_eqb_cases; bool_eq. Qed.

Lemma py_eqb_trans (a b c : value) :
  py_eqb a b = true -> py_eqb a c = py_eqb b c.
Proof.
  destruct a, b; py_eqb_cases; rewrite ?bool_decide_eq_true, ?Z.eqb_eq;
    try discriminate; intros H; simplify_eq; try done.
  all: destruct c; py_eqb_cases; try done.
  all: repeat match goal with b : bool |- _ => destruct b end.
  all: bool_eq.
Qed.

Lemma has_id_trans (v w : value) (r : order) :
  py_eqb v w = true -> has_id v r = has_id w r.
Proof.
  intros H. unfold has_id. destruct (r !! "id") as [rid|]; [|done].
  rewrite (py_eqb_sym rid v), (py_eqb_sym rid w). by apply py_eqb_trans.
Qed.

Lemma count_id_app (v : value) (l1 l2 : list order) :
  count_id v (l1 ++ l2) = (count_id v l1 + count_id v l2)%nat.
Proof. induction l1 as [|r l1 IH]; simpl; [done|]. rewrite IH. lia. Qed.

Lemma count_id_alter (v : value) (f : order -> order) (i : nat) (records : list order) :
  (forall r, records !! i = Some r -> has_id v (f r) = has_id v r) ->
  count_id v (alter f i records) = count_id v records.
Proof.
  revert i. induction records as [|r rest IH]; intros [|i] Hf; simpl; try done.
  - by rewrite (Hf r).
  - f_equal. apply IH. intros r' Hr'. by apply Hf.
Qed.

(** [find_existing] finds the first record with the order's id. *)
Lemma find_existing_spec (records : list order) (o : order) (oid : value) :
  o !! "id" = Some oid ->
  Forall (fun r => is_Some (r !! "id")) records ->
  match find_existing records o with
  | inl _ => False
  | inr None => count_id oid records = O
  | inr (Some i) =>
      exists r, records !! i = Some r /\ has_id oid r = true
                /\ count_id oid (take i records) = O
  end.
Proof.
  intros Hid. induction 1 as [|r rest [rid Hr] _ IH]; simpl; [done|].
  rewrite Hr, Hid. unfold has_id at 1. 
  destruct (py_eqb rid oid) eqn:E.
  - exists r. simpl. unfold has_id. by rewrite Hr.
  - destruct (find_existing rest o) as [e|[i|]]; simpl; [done| |].
    + destruct IH as (r' & ? & ? & ?). exists r'. simpl.
      unfold has_id at 1. rewrite Hr, E. done.
    + unfold has_id. by rewrite Hr, E.
Qed.

Lemma drop_elements_lookup (o : order) (k : string) (v : value) :
  drop_elements o !! k = Some v
  <-> o !! k = Some v /\ k <> "element" /\ is_element v = false.
Proof.
  unfold drop_elements. rewrite map_lookup_filter_Some. simpl.
  destruct (decide (k = "element")) as [->|Hk].
  - rewrite lookup_delete_eq. split; [by intros [? _]|by intros (_ & ? & _)].
  - rewrite lookup_delete_ne by done. intuition.
Qed.

Lemma drop_elements_keeps (o : order) (k : string) (v : value) :
  o !! k = Some v -> k <> "element" -> is_element v = false ->
  drop_elements o !! k = Some v.
Proof. intros. by apply drop_elements_lookup. Qed.

Lemma utils_convert_date_lookup (o : order) (k : string) :
  k <> "date_obj" -> Utils.convert_date o !! k = o !! k.
Proof.
  intros Hk. unfold Utils.convert_date.
  destruct (o !! "date_obj") as [[]|]; try done. by rewrite lookup_insert_ne.
Qed.

Lemma main_convert_date_ok (o : order) :
  date_convertible o = true ->
  Main.convert_date (drop_elements o) = inr (Utils.convert_date (drop_elements o)).
Proof.
  unfold date_convertible, Main.convert_date, Utils.convert_date.
  destruct (drop_elements o !! "date_obj") as [v|] eqn:E; [|done].
  apply drop_elements_lookup in E as (-> & _ & Hv).
  destruct v; simpl in *; try done;
    rewrite ?orb_false_r; intros ->%negb_true_iff; done.
Qed.

Lemma main_convert_date_cases (o : order) :
  (exists e, Main.convert_date o = inl e)
  \/ Main.convert_date o = inr (Utils.convert_date o).
Proof.
  unfold Main.convert_date, Utils.convert_date.
  destruct (o !! "date_obj") as [v|]; [|by right].
  destruct (truthy v) eqn:E; destruct v; simpl in *; eauto; try discriminate.
Qed.

Lemma upsert_spec (records : list order) (o : order) (oid : value) :
  o !! "id" = Some oid ->
  Forall (fun r => is_Some (r !! "id")) records ->
  exists records',
    upsert records o = inr records'
    /\ count_id oid records' = Nat.max 1 (count_id oid records)
    /\ (forall w, py_eqb oid w = false -> count_id w records' = count_id w records)
    /\ (count_id oid records = O -> records' = records ++ [o])
    /\ (count_id oid records <> O ->
        exists i old,
          records !! i = Some old /\ has_id oid old = true
          /\ count_id oid (take i records) = O
          /\ records' = alter (fun existing => dict_update existing o) i records).
Proof.
  intros Hid Hall. pose proof (find_existing_spec records o oid Hid Hall) as Hf.
  assert (Hself : has_id oid o = true).
  { unfold has_id. rewrite Hid. apply py_eqb_refl. }
  unfold upsert. destruct (find_existing records o) as [e|[i|]]; [done| |].
  - destruct Hf as (old & Hi & Hold & Hbefore).
    assert (Hupd : forall w r, records !! i = Some r ->
               has_id w (dict_update r o) = has_id w r).
    { intros w r Hr. assert (r = old) as -> by congruence.
      unfold has_id at 1, dict_update.
      rewrite (lookup_union_Some_l _ _ _ _ Hid).
      unfold has_id in Hold |- *. destruct (old !! "id") as [rid|]; [|done].
      symmetry. by apply py_eqb_trans. }
    assert (Hpos : count_id oid records <> O).
    { rewrite <- (take_drop_middle records i old Hi), count_id_app. simpl.
      rewrite Hold. lia. }
    eexists; split; [done|]. split; [|split; [|split]].
    + rewrite count_id_alter by (intros; by apply Hupd). lia.
    + intros w _. apply count_id_alter. intros; by apply Hupd.
    + done.
    + intros _. by exists i, old.
  - eexists; split; [done|]. split; [|split; [|split]].
    + rewrite count_id_app, Hf. simpl. by rewrite Hself.
    + intros w Hw. rewrite count_id_app. simpl. unfold has_id.
      rewrite Hid, Hw. lia.
    + done.
    + done.
Qed.

(** What holds of one save. When at most one stored record carries the
    order's id, a save whose write succeeds leaves exactly one: a new id
    appends the saved dict at the end; a known id updates the stored
    record in place with every field of the saved dict, keeps the fields
    only the stored record had, and touches no other record. Both savers
    agree when main.py can serialise the date and utils.py can read the
    file. *)
Theorem save_order_data_upsert (file : orders_file) (o : order) (oid : value) :
  o !! "id" = Some oid -> is_element oid = false ->
  Forall (fun r => is_Some (r !! "id")) (load_orders file) ->
  (count_id oid (load_orders file) <= 1)%nat ->
  date_convertible o = true ->
  let records := load_orders file in
  let saved := Utils.convert_date (drop_elements o) in
  exists records',
    Main.save_order_data WriteOk file o = (true, saved, Stored records')
    /\ (file <> Unreadable ->
        Utils.save_order_data WriteOk file o = (true, saved, Stored records'))
    /\ saved !! "id" = Some oid
    /\ count_id oid records' = 1%nat
    /\ (forall w, py_eqb oid w = false -> count_id w records' = count_id w records)
    /\ (count_id oid records = 0%nat -> records' = records ++ [saved])
    /\ (count_id oid records = 1%nat ->
        exists i old new,
          records !! i = Some old /\ has_id oid old = true
          /\ records' !! i = Some new
          /\ (forall k v, saved !! k = Some v -> new !! k = Some v)
          /\ (forall k, saved !! k = None -> new !! k = old !! k)
          /\ length records' = length records
          /\ (forall j, j <> i -> records' !! j = records !! j)).
Proof.
  intros Hid Hel Hall Hone Hdate records saved.
  assert (Hsaved : saved !! "id" = Some oid).
  { unfold saved. rewrite utils_convert_date_lookup by done.
    by apply drop_elements_keeps. }
  destruct (upsert_spec records saved oid Hsaved Hall)
    as (records' & Hup & Hcount & Hother & Hnew & Hold).
  exists records'.
  unfold Main.save_order_data, Utils.save_order_data.
  rewrite (main_convert_date_ok o Hdate). fold saved records. rewrite Hup. simpl.
  split; [done|]. split.
  { intros Hread. unfold read_orders. fold saved.
    destruct file; try done; fold records; by rewrite Hup. }
  split; [done|].
  split; [rewrite Hcount; fold records in Hone; lia|].
  split; [done|]. split; [done|].
  intros H1. destruct Hold as (i & old & Hi & Hhas & _ & ->); [lia|].
  exists i, old, (dict_update old saved).
  split; [done|]. split; [done|].
  split; [by rewrite list_lookup_alter_eq, Hi|].
  split; [intros k v Hk; by apply lookup_union_Some_l|].
  split; [intros k Hk; by apply lookup_union_r|].
  split; [apply length_alter|].
  intros j Hj. by apply list_lookup_alter_ne.
Qed.

Lemma save_order_data_upsert_witness :
  exists records',
    Main.save_order_data WriteOk
      (Stored [stored_record "PO-0" "success"; stored_record "PO-1" "failed"])
      (later_record "PO-1" "not_available")
    = (true, Utils.convert_date (drop_elements (later_record "PO-1" "not_available")),
       Stored records')
    /\ count_id (VStr "PO-1") records' = 1%nat
    /\ length records' = 2%nat.
Proof.
  destruct (save_order_data_upsert
              (Stored [stored_record "PO-0" "success"; stored_record "PO-1" "failed"])
              (later_record "PO-1" "not_available") (VStr "PO-1"))
    as (records' & Hmain & _ & _ & Hcount & _ & _ & Hupd).
  - reflexivity.
  - reflexivity.
  - repeat constructor; eexists; reflexivity.
  - vm_compute. lia.
  - reflexivity.
  - exists records'. split; [exact Hmain|]. split; [exact Hcount|].
    destruct Hupd as (i & old & new & _ & _ & _ & _ & _ & Hlen & _); [reflexivity|].
    exact Hlen.
Defined.

(** On a store that already holds the id twice, only the first record
    is updated, and both remain. *)
Lemma save_order_data_keeps_duplicates :
  (exists saved records',
     Main.save_order_data WriteOk duplicate_store (later_record "PO-1" "not_available")
     = (true, saved, Stored records')
     /\ count_id (VStr "PO-1") records' = 2%nat)
  /\ (exists saved records',
        Utils.save_order_data WriteOk duplicate_store
          (later_record "PO-1" "not_available")
        = (true, saved, Stored records')
        /\ count_id (VStr "PO-1") records' = 2%nat).
Proof. split; do 2 eexists; split; reflexivity. Qed.

(** Without the hypothesis on the number of records with the id: a save
    never removes a record and adds one only for a new id. *)
Lemma save_order_data_count (file : orders_file) (o : order) (oid : value) :
  o !! "id" = Some oid -> is_element oid = false ->
  Forall (fun r => is_Some (r !! "id")) (load_orders file) ->
  file <> Unreadable ->
  exists saved records',
    Utils.save_order_data WriteOk file o = (true, saved, Stored records')
    /\ count_id oid records' = Nat.max 1 (count_id oid (load_orders file)).
Proof.
  intros Hid Hel Hall Hread.
  assert (Hsaved : Utils.convert_date (drop_elements o) !! "id" = Some oid).
  { rewrite utils_convert_date_lookup by done. by apply drop_elements_keeps. }
  destruct (upsert_spec _ _ oid Hsaved Hall) as (records' & Hup & Hcount & _).
  unfold Utils.save_order_data, read_orders.
  destruct file; try done; cbn [load_orders] in *; rewrite Hup; simpl; eauto.
Qed.

Lemma read_orders_readable (file : orders_file) :
  file <> Unreadable -> read_orders file = inr (load_orders file).
Proof. by destruct file. Qed.

(** A file that cannot be read: main.py resets the store to the saved
    order alone, utils.py returns [False] and leaves the file. *)
Lemma save_order_data_unreadable (w : write_outcome) (o : order) :
  (Utils.save_order_data w Unreadable o).1.1 = false
  /\ (Utils.save_order_data w Unreadable o).2 = Unreadable
  /\ (date_convertible o = true -> is_Some (o !! "id") ->
      Main.save_order_data WriteOk Unreadable o
      = (true, Utils.convert_date (drop_elements o),
         Stored [Utils.convert_date (drop_elements o)])).
Proof.
  split; [done|]. split; [done|]. intros Hdate [oid Hid].
  unfold Main.save_order_data. rewrite (main_convert_date_ok o Hdate).
  cbn [load_orders upsert find_existing write_orders app]. done.
Qed.

(** C7, where it fails. main.py cannot save a dict twice: the first save
    of an order leaves its date in the dict as a string; when the same
    dict is saved again with a later status, [date_obj.isoformat()]
    raises inside [save_order_data], which returns [False] and leaves
    the one stored record with the older status, not the latest values.
    utils.py checks the type of the date and saves the later status. *)
Theorem main_save_order_data_twice :
  let first := Main.save_order_data WriteOk Missing (later_record "PO-1" "failed") in
  let again := <["adjustment_status" := VStr "not_available"]> first.1.2 in
  first.1.1 = true
  /\ (Main.save_order_data WriteOk first.2 again).1.1 = false
  /\ (Main.save_order_data WriteOk first.2 again).2 = first.2
  /\ (fun r : order => r !! "adjustment_status")
     <$> load_orders (Main.save_order_data WriteOk first.2 again).2
     = [Some (VStr "failed")]
  /\ (Utils.save_order_data WriteOk first.2 again).1.1 = true
  /\ (Utils.save_order_data WriteOk first.2 again).2 = Stored [again].
Proof. vm_compute. repeat split; reflexivity. Qed.

(** ** One attempt *)

Ltac run_m :=
  cbv beta iota zeta delta
    [attempt try_except attempt_body on_exception bind ret raise modify_order
     modify_bot set_result set_field bump order_id scheduler_update save_order
     save_order_to_txt the_order the_bot result fst snd
     details_page tracking item_name order_time price_adjustment now
     scheduler_write orders_write status_write negb].

Ltac run_with H :=
  repeat first
    [ progress run_m
    | rewrite lookup_insert_ne by done
    | rewrite H ].

Lemma main_save_order_data_cases (w : write_outcome) (file : orders_file) (o : order) :
  exists ok o' file',
    Main.save_order_data w file o = (ok, o', file')
    /\ (o' = drop_elements o \/ o' = Utils.convert_date (drop_elements o))
    /\ (file' = file \/ file' = Corrupt
        \/ exists records',
             upsert (load_orders file) (Utils.convert_date (drop_elements o))
             = inr records'
             /\ file' = Stored records').
Proof.
  unfold Main.save_order_data.
  destruct (main_convert_date_cases (drop_elements o)) as [[e ->]| ->].
  { do 3 eexists. split; [done|]. eauto. }
  destruct (upsert _ _) as [e|records'] eqn:Hup.
  { do 3 eexists. split; [done|]. eauto. }
  destruct w; simpl; do 3 eexists; (split; [done|]); eauto 10.
Qed.

Lemma saved_order_lookup (o o' : order) (k : string) (v : value) :
  o' = drop_elements o \/ o' = Utils.convert_date (drop_elements o) ->
  o !! k = Some v -> k <> "element" -> k <> "date_obj" -> is_element v = false ->
  o' !! k = Some v.
Proof.
  intros [-> | ->] Hk ???; rewrite ?utils_convert_date_lookup by done;
    by apply drop_elements_keeps.
Qed.


Ltac lookups :=
  repeat first
    [ rewrite lookup_insert_eq
    | rewrite lookup_insert_ne by done ].

Lemma attempts_of_insert (o : order) (k : string) (v : value) :
  k <> "attempts" -> attempts_of (<[k := v]> o) = attempts_of o.
Proof. intros. unfold attempts_of. by rewrite lookup_insert_ne. Qed.

Lemma attempts_of_set (o : order) (n : Z) :
  attempts_of (<["attempts" := VInt n]> o) = n.
Proof. unfold attempts_of. by rewrite lookup_insert_eq. Qed.

Lemma saved_order_lookup_eq (o o' : order) (k : string) :
  o' = drop_elements o \/ o' = Utils.convert_date (drop_elements o) ->
  k <> "element" -> k <> "date_obj" ->
  match o !! k with Some v => is_element v = false | None => True end ->
  o' !! k = o !! k.
Proof.
  intros Ho' ?? Hv. destruct (o !! k) as [v|] eqn:Hk.
  - by apply (saved_order_lookup o).
  - assert (drop_elements o !! k = None) as Hdrop.
    { apply eq_None_not_Some. intros [v Hv']. apply drop_elements_lookup in Hv'.
      destruct Hv' as [? _]. congruence. }
    destruct Ho' as [-> | ->]; rewrite ?utils_convert_date_lookup by done; done.
Qed.

(** The details page does not load: the attempt is counted and nothing
    else changes. *)
Lemma attempt_no_details_page (e : attempt_env) (s : proc) (id : value) :
  the_order s !! "id" = Some id -> details_page e = false ->
  attempt e s
  = (inr tt,
     mk_proc (the_bot s)
       (<["attempts" := VInt (attempts_of (the_order s) + 1)]> (the_order s))
       (result s)).
Proof.
  destruct e, s as [b o r]. simpl. intros Hid ->. by run_with Hid.
Qed.

(** Reading the tracking data raises: the handler records the failure. *)
Lemma attempt_tracking_raises (e : attempt_env) (s : proc) (id : value) (err : exn) :
  the_order s !! "id" = Some id -> details_page e = true -> tracking e = inl err ->
  attempt e s
  = (inr tt,
     mk_proc (bump_stat "failures" (the_bot s))
       (<["adjustment_status" := VStr "failed"]>
          (<["last_error" := VStr err]>
             (<["attempts" := VInt (attempts_of (the_order s) + 1)]> (the_order s))))
       (result s)).
Proof.
  destruct e, s as [b o r]. simpl. intros Hid -> ->. run_m.
  by run_with Hid.
Qed.


Lemma converted_lookup_eq (o : order) (k : string) :
  k <> "element" -> k <> "date_obj" ->
  match o !! k with Some v => is_element v = false | None => True end ->
  Utils.convert_date (drop_elements o) !! k = o !! k.
Proof. intros. apply (saved_order_lookup_eq o); auto. Qed.

(** Lookups in the dict [o'] that [save_order_data] hands back, reduced
    to lookups in the dict it was given. *)
Ltac saved_lookups Ho' Hid :=
  lookups;
  repeat (rewrite (saved_order_lookup_eq _ _ _ Ho')
            by (try done; lookups; rewrite ?Hid; done));
  lookups; rewrite ?Hid.

(** The attempt reaches the adjustment. *)
Lemma attempt_adjusts (e : attempt_env) (s : proc) (id : value)
    (info : gmap string string) :
  the_order s !! "id" = Some id -> is_element id = false ->
  details_page e = true -> tracking e = inr info ->
  exists s',
    attempt e s = (inr tt, s')
    /\ the_order s' !! "id" = Some id
    /\ attempts_of (the_order s') = attempts_of (the_order s) + 1
    /\ result s' = match outcome e with Some r => Some r | None => result s end
    /\ status_of (the_order s') = Some (VStr (final_status e))
    /\ the_order s' !! "adjustment_success"
       = Some (VBool (bool_decide (outcome e = Some true)))
    /\ store_step e id (the_bot s) (the_bot s').
Proof.
  destruct e as [page trk item time pa now sw ow tw], s as [b o r]. simpl.
  intros Hid Hel -> ->.
  unfold store_step, written_record, outcome, final_status, outcome, status_of.
  simpl. run_with Hid.
  destruct (attempt_price_adjustment pa) as [[[|]|] refund];
    destruct refund as [amount|]; run_with Hid;
    unfold update_success; destruct sw as [swe|]; run_with Hid.
  all: try match goal with
    | |- context [Main.save_order_data ?w ?f ?o1] =>
        change f with (orders_json b);
        destruct (main_save_order_data_cases w (orders_json b) o1)
          as (ok & o' & file' & Hsave & Ho' & Hfile);
        rewrite Hsave;
        assert (Hid' : o' !! "id" = Some id) by (saved_lookups Ho' Hid; done);
        destruct tw as [twe|]; run_with Hid'
    end.
  all: eexists; (split; [reflexivity|]);
       cbv beta iota zeta delta [the_order the_bot result orders_json status_files].
  all: unfold attempts_of.
  all: rewrite ?bool_decide_eq_true_2 by done;
       rewrite ?bool_decide_eq_false_2 by done.
  all: try destruct tw.
  all: repeat match goal with |- _ /\ _ => split end;
       try (saved_lookups Ho' Hid; done); try (lookups; rewrite ?Hid; done).
  all: try (left; reflexivity).
  all: try (right; eexists; split; [reflexivity|];
            repeat split; saved_lookups Ho' Hid; done).
  all: destruct Hfile as [-> | [-> | (records' & Hup & ->)]];
       [by left | by right; left | right; right].
  all: do 2 eexists; split; [exact Hup|]; split; [reflexivity|].
  all: repeat split;
       rewrite converted_lookup_eq by (try done; lookups; rewrite ?Hid; done);
       lookups; rewrite ?Hid; done.
Qed.
Lemma outcome_no_page (e : attempt_env) : details_page e = false -> outcome e = None.
Proof. unfold outcome. by intros ->. Qed.

Lemma outcome_tracking_raises (e : attempt_env) (err : exn) :
  tracking e = inl err -> outcome e = None.
Proof. unfold outcome. intros ->. by destruct (details_page e). Qed.

(** Every attempt on an order with an id ends normally, counts itself,
    keeps the id, and sets [result] exactly when it has an outcome. *)
Lemma attempt_spec (e : attempt_env) (s : proc) (id : value) :
  the_order s !! "id" = Some id -> is_element id = false ->
  exists s',
    attempt e s = (inr tt, s')
    /\ the_order s' !! "id" = Some id
    /\ attempts_of (the_order s') = attempts_of (the_order s) + 1
    /\ result s' = match outcome e with Some r => Some r | None => result s end
    /\ (details_page e = true -> status_of (the_order s') = Some (VStr (final_status e)))
    /\ (details_page e = false ->
        status_of (the_order s') = status_of (the_order s)
        /\ the_bot s' = the_bot s)
    /\ (details_page e = true ->
        (exists info, tracking e = inr info) ->
        the_order s' !! "adjustment_success"
        = Some (VBool (bool_decide (outcome e = Some true))))
    /\ (outcome e = None ->
        (details_page e = false \/ exists err, tracking e = inl err) ->
        the_order s' !! "adjustment_success" = the_order s !! "adjustment_success")
    /\ store_step e id (the_bot s) (the_bot s').
Proof.
  intros Hid Hel. destruct (details_page e) eqn:Hpage.
  - destruct (tracking e) as [err|info] eqn:Htrk.
    + rewrite (attempt_tracking_raises e s id err) by done.
      eexists; split; [done|]. simpl.
      rewrite (outcome_tracking_raises e err) by done.
      unfold attempts_of, status_of, final_status, store_step.
      rewrite (outcome_tracking_raises e err) by done. lookups.
      split_and!; try done.
      * by destruct (status_write e).
      * intros _ [info ?]; congruence.
      * by left.
      * by left.
    + destruct (attempt_adjusts e s id info Hid Hel Hpage Htrk)
        as (s' & -> & ? & ? & ? & ? & ? & Hstore).
      exists s'. split_and!; try done.
      intros Hnone [?|[err ?]]; congruence.
  - rewrite (attempt_no_details_page e s id) by done.
    eexists; split; [done|]. simpl. rewrite (outcome_no_page e) by done.
    unfold attempts_of, status_of, store_step. lookups.
    split_and!; try done; by left.
Qed.
(** ** The attempt loop *)

Lemma written_record_consistent (e : attempt_env) (id : value) (o : order) :
  written_record e id o -> consistent o.
Proof.
  intros (_ & Hstatus & Hsuccess) Htrue. rewrite Hsuccess in Htrue.
  injection Htrue as Htrue. apply bool_decide_eq_true in Htrue.
  by rewrite Hstatus, Htrue.
Qed.

Lemma upsert_consistent (e : attempt_env) (id : value) (records records' : list order)
    (saved : order) :
  written_record e id saved -> upsert records saved = inr records' ->
  Forall consistent records -> Forall consistent records'.
Proof.
  intros Hw Hup Hall. pose proof (written_record_consistent e id saved Hw) as Hc.
  unfold upsert in Hup. destruct (find_existing records saved) as [err|[i|]];
    simplify_eq.
  - apply Forall_alter; [done|]. intros old _ _ Htrue.
    destruct Hw as (_ & Hstatus & Hsuccess).
    unfold dict_update in *.
    rewrite (lookup_union_Some_l _ _ _ _ Hsuccess) in Htrue.
    rewrite (lookup_union_Some_l _ _ _ _ Hstatus).
    rewrite <- Hstatus. apply Hc. by rewrite Hsuccess.
  - apply Forall_app. split; [done|]. by constructor.
Qed.

Lemma store_step_consistent (e : attempt_env) (id : value) (b b' : bot) :
  store_step e id b b' -> consistent_bot b -> consistent_bot b'.
Proof.
  intros [Hjson Hfiles] [Hrecords Hrendered]. split.
  - destruct Hjson as [-> | [-> | (saved & records' & Hup & -> & Hw)]];
      [done | by constructor |].
    simpl. by eapply upsert_consistent.
  - destruct Hfiles as [-> | (rendered & -> & Hw)]; [done|].
    apply Forall_app. split; [done|]. constructor; [|done].
    by apply (written_record_consistent e id).
Qed.

Lemma while_attempts_unfold (fuel : nat) (env : Z -> attempt_env) (s : proc) :
  while_attempts fuel env s
  = if (attempts_of (the_order s) <? MAX_ATTEMPTS) && bool_decide (result s = None)
    then
      match fuel with
      | O => None
      | S fuel' =>
          match attempt (env (attempts_of (the_order s) + 1)) s with
          | (inr _, s') => while_attempts fuel' env s'
          | (inl e, s') => Some (inl e, s')
          end
      end
    else Some (inr tt, s).
Proof. by destruct fuel. Qed.

Lemma while_attempts_spec (env : Z -> attempt_env) (id : value) (fuel : nat) :
  forall s : proc,
    the_order s !! "id" = Some id -> is_element id = false ->
    result s = None ->
    0 <= attempts_of (the_order s) < MAX_ATTEMPTS ->
    MAX_ATTEMPTS - attempts_of (the_order s) <= Z.of_nat fuel ->
    exists s' n,
      while_attempts fuel env s = Some (inr tt, s')
      /\ attempts_of (the_order s) < n <= MAX_ATTEMPTS
      /\ (forall k, attempts_of (the_order s) < k < n -> outcome (env k) = None)
      /\ (n < MAX_ATTEMPTS -> is_Some (outcome (env n)))
      /\ stopped_after env id n s'
      /\ (consistent_bot (the_bot s) -> consistent_bot (the_bot s'))
      /\ (the_order s !! "adjustment_success" <> Some (VBool true) ->
          the_order s' !! "adjustment_success" = Some (VBool true) ->
          outcome (env n) = Some true).
Proof.
  unfold MAX_ATTEMPTS.
  induction fuel as [|fuel IH]; intros s Hid Hel Hres Hatt Hfuel; [lia|].
  rewrite while_attempts_unfold. unfold MAX_ATTEMPTS.
  rewrite Hres, bool_decide_eq_true_2 by done.
  replace (attempts_of (the_order s) <? 5) with true by (symmetry; apply Z.ltb_lt; lia).
  simpl andb. cbv iota.
  set (n := attempts_of (the_order s) + 1).
  destruct (attempt_spec (env n) s id Hid Hel)
    as (s1 & -> & Hid1 & Hatt1 & Hres1 & Hstatus1 & _ & Hsucc1 & Hkeep1 & Hstore1).
  fold n in Hatt1.
  assert (Hflag1 : the_order s !! "adjustment_success" <> Some (VBool true) ->
            the_order s1 !! "adjustment_success" = Some (VBool true) ->
            outcome (env n) = Some true).
  { intros Hfresh Htrue. destruct (outcome (env n)) as [[|]|] eqn:Hout; [done| |].
    - unfold outcome in Hout. destruct (details_page (env n)) eqn:Hpage; [|done].
      destruct (tracking (env n)) as [err|info] eqn:Htrk; [done|].
      rewrite Hsucc1 in Htrue by eauto. by rewrite bool_decide_eq_false_2 in Htrue.
    - destruct (details_page (env n)) eqn:Hpage.
      + destruct (tracking (env n)) as [err|info] eqn:Htrk.
        * rewrite Hkeep1 in Htrue by eauto. done.
        * rewrite Hsucc1 in Htrue by eauto. by rewrite bool_decide_eq_false_2 in Htrue.
      + rewrite Hkeep1 in Htrue by eauto. done. }
  assert (Hlast : while_attempts fuel env s1 = Some (inr tt, s1) ->
          (n < 5 -> is_Some (outcome (env n))) ->
          exists s' n',
            while_attempts fuel env s1 = Some (inr tt, s')
            /\ attempts_of (the_order s) < n' <= 5
            /\ (forall k, attempts_of (the_order s) < k < n' -> outcome (env k) = None)
            /\ (n' < 5 -> is_Some (outcome (env n')))
            /\ stopped_after env id n' s'
            /\ (consistent_bot (the_bot s) -> consistent_bot (the_bot s'))
            /\ (the_order s !! "adjustment_success" <> Some (VBool true) ->
                the_order s' !! "adjustment_success" = Some (VBool true) ->
                outcome (env n') = Some true)).
  { intros Hstop Hsome. exists s1, n. split; [done|]. split; [lia|].
    split; [intros k ?; lia|]. split; [done|]. split; [|split; [|done]].
    - split_and!; try done. rewrite Hres1, Hres. by destruct (outcome (env n)).
    - by apply (store_step_consistent (env n) id). }
  destruct (outcome (env n)) as [r|] eqn:Hout.
  - apply Hlast; [|by eauto]. rewrite while_attempts_unfold, Hres1.
    rewrite bool_decide_eq_false_2 by done. by rewrite andb_false_r.
  - destruct (decide (n = 5)) as [Hn|Hn].
    + apply Hlast; [|lia]. rewrite while_attempts_unfold, Hatt1.
      unfold MAX_ATTEMPTS. by replace (n <? 5) with false by (symmetry; apply Z.ltb_ge; lia).
    + assert (Hres1' : result s1 = None) by (by rewrite Hres1).
      assert (Hatt1' : 0 <= attempts_of (the_order s1) < MAX_ATTEMPTS)
        by (unfold MAX_ATTEMPTS; lia).
      assert (Hfuel1 : MAX_ATTEMPTS - attempts_of (the_order s1) <= Z.of_nat fuel)
        by (unfold MAX_ATTEMPTS; lia).
      destruct (IH s1 Hid1 Hel Hres1' Hatt1' Hfuel1)
        as (s' & n' & Hrun & Hn' & Hbefore & Hsome & Hstop & Hcons & Hflag).
      unfold MAX_ATTEMPTS in *.
      exists s', n'. split; [done|]. split; [lia|]. split.
      { intros k Hk. destruct (decide (k = n)) as [->|]; [done|].
        apply Hbefore. lia. }
      split; [done|]. split; [done|]. split.
      * intros Hc. apply Hcons.
        by apply (store_step_consistent (env n) id (the_bot s)).
      * intros Hfresh. apply Hflag. intros Htrue.
        specialize (Hflag1 Hfresh Htrue). congruence.
Qed.
(** ** [process_order] *)

Lemma process_order_spec (env : Z -> attempt_env) (b : bot) (o : order) (id : value) :
  o !! "id" = Some id -> is_element id = false ->
  exists b' o' n,
    process_order env b o
    = Some (inr (bool_decide (outcome (env n) = Some true)), b', o')
    /\ 1 <= n <= MAX_ATTEMPTS
    /\ (forall k, 1 <= k < n -> outcome (env k) = None)
    /\ (n < MAX_ATTEMPTS -> is_Some (outcome (env n)))
    /\ stopped_after env id n (mk_proc b' o' (outcome (env n)))
    /\ (consistent_bot b -> consistent_bot b')
    /\ (o !! "adjustment_success" <> Some (VBool true) ->
        o' !! "adjustment_success" = Some (VBool true) ->
        outcome (env n) = Some true).
Proof.
  intros Hid Hel. unfold process_order.
  set (s0 := mk_proc b (<["attempts" := VInt 0]> o) None).
  assert (H0 : attempts_of (the_order s0) = 0) by apply attempts_of_set.
  destruct (while_attempts_spec env id (Z.to_nat MAX_ATTEMPTS) s0)
    as (s' & n & -> & Hn & Hbefore & Hsome & Hstop & Hcons & Hflag).
  { simpl. by rewrite lookup_insert_ne. }
  { done. }
  { done. }
  { rewrite H0. unfold MAX_ATTEMPTS. lia. }
  { rewrite H0. unfold MAX_ATTEMPTS. lia. }
  rewrite H0 in *. destruct s' as [b' o' r']. simpl in *.
  assert (r' = outcome (env n)) as -> by apply Hstop.
  exists b', o', n. split; [done|]. split; [lia|].
  split; [intros k ?; apply Hbefore; lia|]. split; [done|]. split; [done|].
  split; [done|]. intros Hfresh. apply Hflag. by rewrite lookup_insert_ne.
Qed.
Lemma first_dialog_failure (e : attempt_env) (dialog : dialog_env) (flow : flow_outcome)
    (info : gmap string string) :
  details_page e = true -> tracking e = inr info ->
  price_adjustment e 1%nat = DialogShown dialog flow ->
  check_dialog_type dialog = Failure ->
  outcome e = Some false.
Proof.
  intros Hpage Htrk Hsub Hdialog. unfold outcome. rewrite Hpage, Htrk.
  unfold attempt_price_adjustment, MAX_SUB_ATTEMPTS. simpl.
  by rewrite Hsub, Hdialog.
Qed.

(** What holds of the loop for every environment. [process_order]
    returns after at most 5 attempts; it stops at the first attempt that
    assigns [result] ([outcome]) and not before, so attempts that raise
    or stay indecisive are counted and retried; the flag it returns is
    true exactly when the last attempt assigned [True]; "not available"
    and "failed" both return false, and leave the statuses
    ["not_available"] and ["failed"] when the status file of the last
    attempt is written and its details page loaded. *)
Theorem process_order_attempts (env : Z -> attempt_env) (b : bot) (o : order)
    (id : value) :
  o !! "id" = Some id -> is_element id = false ->
  exists flag b' o' n,
    process_order env b o = Some (inr flag, b', o')
    /\ attempts_of o' = n /\ 1 <= n <= 5
    /\ (forall k, 1 <= k < n -> outcome (env k) = None)
    /\ (n < 5 -> is_Some (outcome (env n)))
    /\ (flag = true <-> outcome (env n) = Some true)
    /\ (outcome (env n) = Some false -> status_write (env n) = None ->
        flag = false /\ status_of o' = Some (VStr "not_available"))
    /\ (outcome (env n) = None -> details_page (env n) = true ->
        flag = false /\ status_of o' = Some (VStr "failed"))
    /\ (forall info dialog flow,
          details_page (env 1) = true -> tracking (env 1) = inr info ->
          price_adjustment (env 1) 1%nat = DialogShown dialog flow ->
          check_dialog_type dialog = Failure -> status_write (env 1) = None ->
          n = 1 /\ flag = false /\ status_of o' = Some (VStr "not_available")).
Proof.
  intros Hid Hel.
  destruct (process_order_spec env b o id Hid Hel)
    as (b' & o' & n & Hrun & Hn & Hbefore & Hsome & Hstop & _).
  destruct Hstop as (Hatt & _ & _ & Hstatus & _). simpl in Hatt, Hstatus.
  unfold MAX_ATTEMPTS in *.
  exists (bool_decide (outcome (env n) = Some true)), b', o', n.
  assert (Hfalse : outcome (env n) = Some false -> status_write (env n) = None ->
            bool_decide (outcome (env n) = Some true) = false
            /\ status_of o' = Some (VStr "not_available")).
  { intros Hout Hw. split; [by rewrite Hout|].
    assert (Hpage : details_page (env n) = true).
    { unfold outcome in Hout. by destruct (details_page (env n)). }
    rewrite (Hstatus Hpage). unfold final_status. by rewrite Hw, Hout. }
  split; [done|]. split; [done|]. split; [lia|]. split; [done|].
  split; [done|]. split; [apply bool_decide_eq_true|]. split; [done|]. split.
  - intros Hout Hpage. split; [by rewrite Hout|].
    rewrite (Hstatus Hpage). unfold final_status. rewrite Hout.
    by destruct (status_write (env n)).
  - intros info dialog flow Hpage Htrk Hsub Hdialog Hw.
    pose proof (first_dialog_failure _ _ _ _ Hpage Htrk Hsub Hdialog) as Hout1.
    assert (n = 1) as ->.
    { destruct (decide (n = 1)) as [|Hne]; [done|].
      rewrite Hbefore in Hout1 by lia. done. }
    split; [done|]. by apply Hfalse.
Qed.

Lemma process_order_attempts_witness :
  exists flag b' o',
    process_order (fun _ => ineligible_attempt) sample_bot sample_order
    = Some (inr flag, b', o')
    /\ attempts_of o' = 1 /\ flag = false
    /\ status_of o' = Some (VStr "not_available").
Proof.
  destruct (process_order_attempts (fun _ => ineligible_attempt) sample_bot
              sample_order (VStr "PO-1") eq_refl eq_refl)
    as (flag & b' & o' & n & Hrun & Hatt & _ & _ & _ & _ & _ & _ & Hfirst).
  destruct (Hfirst sample_tracking ineligible_dialog FlowFailed)
    as (Hn & Hflag & Hstatus); try (vm_compute; reflexivity).
  exists flag, b', o'.
  split; [exact Hrun|]. split; [by rewrite Hatt|]. split; [exact Hflag|exact Hstatus].
Defined.

(** Whatever the attempts meet, the store and the status files hold
    consistent records after processing if they did before; the dict in
    memory is consistent too when the order came without a success flag
    and the status file of a confirmed success could be written. *)
Lemma process_order_consistent (env : Z -> attempt_env) (b : bot) (o : order)
    (id : value) :
  o !! "id" = Some id -> is_element id = false ->
  exists flag b' o' n,
    process_order env b o = Some (inr flag, b', o')
    /\ attempts_of o' = n
    /\ (consistent_bot b -> consistent_bot b')
    /\ (o !! "adjustment_success" <> Some (VBool true) ->
        (outcome (env n) = Some true -> status_write (env n) = None) ->
        consistent o').
Proof.
  intros Hid Hel.
  destruct (process_order_spec env b o id Hid Hel)
    as (b' & o' & n & Hrun & Hn & _ & _ & Hstop & Hcons & Hflag).
  destruct Hstop as (Hatt & _ & _ & Hstatus & _). simpl in Hatt, Hstatus.
  exists (bool_decide (outcome (env n) = Some true)), b', o', n.
  split_and!; try done.
  intros Hfresh Hwrite Htrue. specialize (Hflag Hfresh Htrue).
  assert (Hpage : details_page (env n) = true).
  { unfold outcome in Hflag. by destruct (details_page (env n)). }
  unfold status_of in Hstatus. rewrite (Hstatus Hpage). unfold final_status.
  by rewrite (Hwrite Hflag), Hflag.
Qed.

(** C5, where it fails. A decisive answer of [attempt_price_adjustment]
    does not always end the loop, and the status of a decisive attempt
    does not always stay. The adjustment of a listed order is confirmed
    while scheduler_state.json cannot be written: [update_success] raises
    before [result] is assigned, the handler counts a failure, and the
    loop asks for the adjustment again, five times in all; five successes
    and five failures are counted, nothing is saved, the call returns
    false and the status is ["failed"]. An order whose first dialog says
    it is not eligible, while its status file cannot be written, ends
    after one attempt with the status ["failed"], not ["not_available"];
    orders.json holds ["not_available"]. *)
Theorem process_order_decisive_attempt_retried :
  (attempt_price_adjustment
     (fun _ => DialogShown request_dialog (FlowConfirmed (Some "$1.00")))).1
  = Some true
  /\ (fun r => r.1.1) <$> confirmed_without_state_file = Some (inr false)
  /\ (fun r => attempts_of r.2) <$> confirmed_without_state_file = Some 5
  /\ (fun r => stat "success" r.1.2) <$> confirmed_without_state_file = Some 5
  /\ (fun r => stat "failures" r.1.2) <$> confirmed_without_state_file = Some 5
  /\ (fun r => status_of r.2) <$> confirmed_without_state_file
     = Some (Some (VStr "failed"))
  /\ (fun r => orders_json r.1.2) <$> confirmed_without_state_file = Some Missing
  /\ (attempt_price_adjustment
        (fun _ => DialogShown ineligible_dialog FlowFailed)).1
     = Some false
  /\ (fun r => r.1.1) <$> ineligible_without_status_file = Some (inr false)
  /\ (fun r => attempts_of r.2) <$> ineligible_without_status_file = Some 1
  /\ (fun r => status_of r.2) <$> ineligible_without_status_file
     = Some (Some (VStr "failed"))
  /\ (fun r => (fun saved : order => saved !! "adjustment_status")
               <$> load_orders (orders_json r.1.2))
     <$> ineligible_without_status_file
     = Some [Some (VStr "not_available")].
Proof. split_and!; vm_compute; reflexivity. Qed.

(** C1, where it fails. The adjustment of a listed order is confirmed and
    saved, then the status file cannot be written: the handler sets the
    status to ["failed"] and leaves [adjustment_success] true. The call
    still returns true, and orders.json holds the consistent record
    written before the exception. *)
Theorem process_order_success_flag_survives_handler :
  (fun r => r.1.1) <$> confirmed_without_status_file = Some (inr true)
  /\ (fun r => r.2 !! "adjustment_success") <$> confirmed_without_status_file
     = Some (Some (VBool true))
  /\ (fun r => r.2 !! "adjustment_status") <$> confirmed_without_status_file
     = Some (Some (VStr "failed"))
  /\ (fun r => (fun saved : order => saved !! "adjustment_status")
               <$> load_orders (orders_json r.1.2))
     <$> confirmed_without_status_file
     = Some [Some (VStr "success")].
Proof. split_and!; vm_compute; reflexivity. Qed.

Lemma confirmed_without_status_file_inconsistent :
  exists r, confirmed_without_status_file = Some r /\ ~ consistent r.2.
Proof.
  assert (Hflag : (fun r => r.2 !! "adjustment_success")
                  <$> confirmed_without_status_file = Some (Some (VBool true)))
    by (vm_compute; reflexivity).
  assert (Hstatus : (fun r => r.2 !! "adjustment_status")
                    <$> confirmed_without_status_file = Some (Some (VStr "failed")))
    by (vm_compute; reflexivity).
  destruct confirmed_without_status_file as [r|]; [|discriminate].
  exists r. split; [done|]. intros Hc.
  injection Hflag as Hflag. injection Hstatus as Hstatus.
  specialize (Hc Hflag). congruence.
Qed.
(** ** The details page never loads *)

Lemma while_attempts_no_page (env : Z -> attempt_env) (id : value) (fuel : nat) :
  (forall k, details_page (env k) = false) ->
  forall s : proc,
    the_order s !! "id" = Some id -> result s = None ->
    0 <= attempts_of (the_order s) < MAX_ATTEMPTS ->
    MAX_ATTEMPTS - attempts_of (the_order s) <= Z.of_nat fuel ->
    while_attempts fuel env s
    = Some (inr tt, mk_proc (the_bot s)
                      (<["attempts" := VInt MAX_ATTEMPTS]> (the_order s)) None).
Proof.
  intros Hpage. unfold MAX_ATTEMPTS.
  induction fuel as [|fuel IH]; intros s Hid Hres Hatt Hfuel; [lia|].
  rewrite while_attempts_unfold. unfold MAX_ATTEMPTS.
  rewrite Hres, bool_decide_eq_true_2 by done.
  replace (attempts_of (the_order s) <? 5) with true by (symmetry; apply Z.ltb_lt; lia).
  simpl andb. cbv iota.
  rewrite (attempt_no_details_page _ s id) by done. rewrite Hres.
  set (n := attempts_of (the_order s) + 1).
  destruct (decide (n = 5)) as [->|Hn].
  - rewrite while_attempts_unfold. simpl the_order. by rewrite attempts_of_set.
  - rewrite IH; simpl; rewrite ?attempts_of_set; try lia; try done.
    + by rewrite insert_insert_eq.
    + by rewrite lookup_insert_ne.
Qed.

(** An order whose details page loads on no attempt: five attempts are
    counted, the call returns false, and neither the dict (beyond the
    counter), nor the statistics, nor the store record the failure. *)
Lemma process_order_never_loaded (env : Z -> attempt_env) (b : bot) (o : order)
    (id : value) :
  o !! "id" = Some id -> (forall k, details_page (env k) = false) ->
  process_order env b o = Some (inr false, b, <["attempts" := VInt 5]> o).
Proof.
  intros Hid Hpage. unfold process_order.
  rewrite (while_attempts_no_page env id) with (s := mk_proc b _ None); simpl.
  - by rewrite insert_insert_eq.
  - done.
  - by rewrite lookup_insert_ne.
  - done.
  - rewrite attempts_of_set. unfold MAX_ATTEMPTS. lia.
  - rewrite attempts_of_set. unfold MAX_ATTEMPTS. lia.
Qed.

(** C2, where it fails. The details page of a listed order times out on
    every attempt: [process_order] returns false with [attempts] equal to
    5, and the order has no [adjustment_status] at all, not ["failed"];
    no failure is counted and nothing is stored. *)
Theorem process_order_details_never_load :
  never_loaded = Some (inr false, sample_bot, <["attempts" := VInt 5]> sample_order)
  /\ attempts_of (<["attempts" := VInt 5]> sample_order) = 5
  /\ status_of (<["attempts" := VInt 5]> sample_order) = None
  /\ stat "failures" sample_bot = 0
  /\ orders_json sample_bot = Missing.
Proof.
  split; [|by vm_compute].
  by apply (process_order_never_loaded _ _ _ (VStr "PO-1")).
Qed.
(** ** The batch loop *)

Lemma process_order_returns (env : Z -> attempt_env) (b : bot) (o : order) :
  well_listed o ->
  exists flag b' o', process_order env b o = Some (inr flag, b', o').
Proof.
  intros [[id Hid] _].
  destruct (process_order_spec env b o (VStr id) Hid eq_refl)
    as (b' & o' & n & Hrun & _). eauto.
Qed.

Lemma process_each_prefix (env : run_env) (todo : list order) :
  forall i b r b' trace,
    process_each i todo env b = Some (r, b', trace) ->
    handed trace `prefix_of` todo.
Proof.
  induction todo as [|o rest IH]; intros i b r b' trace Hrun; simpl in Hrun.
  { injection Hrun as <- <- <-. done. }
  destruct (log_order o); [injection Hrun as <- <- <-; apply prefix_nil|].
  destruct (process_order _ _ o) as [[[[e|ok] b2] o']|]; [| |done].
  - injection Hrun as <- <- <-. simpl. apply prefix_cons, prefix_nil.
  - destruct (process_each (S i) rest env b2) as [[[r3 b3] trace3]|] eqn:Hrest;
      [|done].
    injection Hrun as <- <- <-. simpl. apply prefix_cons. by eapply IH.
Qed.

Lemma process_each_all (env : run_env) (todo : list order) :
  Forall well_listed todo ->
  forall i b,
    exists b' trace,
      process_each i todo env b = Some (inr tt, b', trace)
      /\ handed trace = todo.
Proof.
  induction 1 as [|o rest Ho _ IH]; intros i b; simpl; [by eauto|].
  destruct Ho as [Hid Hlog]. rewrite Hlog.
  destruct (process_order_returns (attempt_envs env i) (bump_stat "processed" b) o)
    as (flag & b2 & o' & ->); [done|].
  destruct (IH (S i) b2) as (b3 & trace & -> & Htrace).
  do 2 eexists. split; [done|]. simpl. by rewrite Htrace.
Qed.

Lemma valid_orders_filter (orders : list order) :
  Forall (fun o => is_Some (o !! "valid")) orders ->
  valid_orders orders
  = inr (filter (fun o => from_option truthy false (o !! "valid") = true) orders).
Proof.
  induction 1 as [|o rest [v Hv] _ IH]; simpl; [done|].
  rewrite Hv, IH. rewrite filter_cons. simpl. rewrite Hv. simpl.
  destruct (truthy v); by rewrite ?decide_True, ?decide_False by done.
Qed.

(** C9. A run hands to [process_order] orders taken in order from the
    first ten valid ones and no other; when the listed orders are well
    formed it hands over exactly the first min(10, number of valid
    orders) of them, so a valid order beyond the tenth is not attempted. *)
Theorem process_orders_first_ten (env : run_env) (b : bot) (valid : list order) :
  valid_orders (listed env) = inr valid ->
  (forall ok b' trace,
     process_orders env b = Some (ok, b', trace) ->
     handed trace `prefix_of` take 10 valid /\ (length trace <= 10)%nat)
  /\ (Forall well_listed valid ->
      exists b' trace,
        process_orders env b = Some (true, b', trace)
        /\ handed trace = take (Nat.min 10 (length valid)) valid
        /\ length trace = Nat.min 10 (length valid)).
Proof.
  intros Hvalid.
  assert (Htake : take (Nat.min MAX_ORDERS (length valid)) valid = take 10 valid).
  { unfold MAX_ORDERS. destruct (Nat.min_spec 10 (length valid)) as [[_ ->]|[Hle ->]];
      [done|]. by rewrite !take_ge by lia. }
  unfold process_orders. destruct (listed env) as [|o rest] eqn:Hlisted.
  { simpl in Hvalid. injection Hvalid as <-. split.
    - intros ok b' trace [= <- <- <-]. split; [done|simpl; lia].
    - intros _. exists b, []. done. }
  rewrite Hvalid. cbv zeta. rewrite Htake. split.
  - intros ok b' trace Hrun.
    destruct (process_each 0 (take 10 valid) env _) as [[[r b3] trace3]|] eqn:Heach;
      [|done].
    assert (trace = trace3) as -> by (destruct r; congruence).
    pose proof (process_each_prefix _ _ _ _ _ _ _ Heach) as Hpre.
    split; [done|]. apply prefix_length in Hpre.
    unfold handed in Hpre. rewrite length_map, length_take in Hpre. lia.
  - intros Hwell.
    destruct (process_each_all env (take 10 valid) (Forall_take _ _ _ Hwell) 0%nat
                (set_stat "valid_orders" (Z.of_nat (length valid))
                   (set_stat "total_orders" (Z.of_nat (length (o :: rest))) b)))
      as (b3 & trace & -> & Htrace).
    exists b3, trace. split; [done|]. unfold MAX_ORDERS in Htake.
    split; [by rewrite Htake|].
    rewrite <- (length_map (fun entry : order * order * bool => entry.1.1) trace).
    fold (handed trace). rewrite Htrace, length_take. lia.
Qed.

Lemma process_orders_first_ten_witness :
  exists b' trace,
    process_orders sample_run sample_bot = Some (true, b', trace)
    /\ handed trace = take 10 (drop 1 thirteen_orders)
    /\ length trace = 10%nat.
Proof.
  assert (Hvalid : valid_orders (listed sample_run) = inr (drop 1 thirteen_orders))
    by (vm_compute; reflexivity).
  assert (Hwell : Forall well_listed (drop 1 thirteen_orders)).
  { repeat constructor; try (eexists; vm_compute; reflexivity);
      vm_compute; reflexivity. }
  destruct (process_orders_first_ten sample_run sample_bot _ Hvalid) as [_ Htotal].
  destruct (Htotal Hwell) as (b' & trace & Hrun & Htrace & Hlen).
  exists b', trace. split; [exact Hrun|]. split; [exact Htrace|exact Hlen].
Defined.
(** ** The dialog classifier *)

Lemma lower_app (a b : text) : lower (a ++ b) = lower a ++ lower b.
Proof. apply map_app. Qed.

(** The two scopes, decided by evaluation. *)
Lemma latin1_forallb (s : text) :
  forallb (fun c => (0 <=? c) && (c <? 256)) s = true -> latin1 s.
Proof.
  intros Hall. apply Forall_forall. intros c Hc.
  apply list_elem_of_In in Hc.
  apply (proj1 (forallb_forall _ _) Hall) in Hc. lia.
Qed.

Lemma basic_latin_forallb (s : text) :
  forallb (fun c => (0 <=? c) && (c <? 128)) s = true -> basic_latin s.
Proof.
  intros Hall. apply Forall_forall. intros c Hc.
  apply list_elem_of_In in Hc.
  apply (proj1 (forallb_forall _ _) Hall) in Hc. lia.
Qed.







(** The success phrase does not make a success when the text also
    carries a failure indicator, here "refunded". *)
Example failure_takes_precedence :
  check_dialog_type
    (dialog_with "Request a price adjustment - this order was already refunded")
  = Failure.
Proof. vm_compute. reflexivity. Qed.

(** Two markers without any keyword make a failure. *)
Example two_markers_fail :
  check_dialog_type
    (mk_dialog_env (Some (str "Oops"))
       (fun cls => if String.eqb cls "_2OaJDN8Y" then Some O else Some 1%nat))
  = Failure.
Proof. vm_compute. reflexivity. Qed.
(** ** What a match consumes *)

Section Matching.

(** The lemmas hold with and without [re.IGNORECASE]. *)
Variable ic : bool.

Lemma consumed_app (pre rest : text) : consumed (pre ++ rest) rest = pre.
Proof.
  unfold consumed. rewrite length_app.
  replace (length pre + length rest - length rest)%nat with (length pre) by lia.
  by rewrite take_app_length.
Qed.

Lemma class_runs_spec (f : Z -> bool) (hi : nat) (s rest : text) (k : nat) :
  (k, rest) ∈ class_runs f hi s ->
  exists pre, s = pre ++ rest /\ length pre = k /\ Forall (fun c => f c = true) pre.
Proof.
  revert s k. induction hi as [|hi IH]; intros s k Hin.
  - destruct s; simpl in Hin; apply list_elem_of_singleton in Hin;
      injection Hin as -> ->; by exists [].
  - destruct s as [|c s]; simpl in Hin.
    { apply list_elem_of_singleton in Hin. injection Hin as -> ->. by exists []. }
    destruct (f c) eqn:Hc.
    + apply elem_of_app in Hin as [Hin|Hin].
      * apply list_elem_of_In, in_map_iff in Hin as ([k' rest'] & [= <- <-] & Hin).
        apply list_elem_of_In, IH in Hin as (pre & -> & <- & Hall).
        exists (c :: pre). simpl. split; [done|]. split; [done|]. by constructor.
      * apply list_elem_of_singleton in Hin. injection Hin as -> ->. by exists [].
    + apply list_elem_of_singleton in Hin. injection Hin as -> ->. by exists [].
Qed.

Lemma lit_match_spec (p s rest : text) :
  lit_match ic p s = Some rest ->
  exists pre, s = pre ++ rest
    /\ Forall2 (fun a c => char_matches ic a c = true) p pre.
Proof.
  revert s. induction p as [|a p IH]; intros s; simpl.
  - intros [= ->]. by exists [].
  - destruct s as [|c s]; [done|]. destruct (char_matches ic a c) eqn:Hc; [|done].
    intros (pre & -> & Hall)%IH. exists (c :: pre). split; [done|]. by constructor.
Qed.

(** Every way a pattern matches consumes a prefix made of characters the
    pattern can consume. *)
Lemma rx_match_consumes (r : regex) :
  forall s caps rest,
    (caps, rest) ∈ rx_match ic r s ->
    exists pre, s = pre ++ rest /\ Forall (fun c => may_consume ic r c = true) pre.
Proof.
  induction r as [|p|cs lo hi|cs|r IH|r1 IH1 r2 IH2|r1 IH1 r2 IH2|name r IH];
    intros s caps rest Hin; simpl in Hin.
  - apply list_elem_of_singleton in Hin. injection Hin as -> ->. by exists [].
  - destruct (lit_match ic p s) as [rest'|] eqn:Hm; [|by apply not_elem_of_nil in Hin].
    apply list_elem_of_singleton in Hin. injection Hin as -> ->.
    apply lit_match_spec in Hm as (pre & -> & Hall). exists pre. split; [done|].
    clear -Hall. induction Hall as [|a c p pre Hc _ IH]; constructor.
    + simpl. by rewrite Hc.
    + eapply Forall_impl; [exact IH|]. simpl. intros x ->. apply orb_true_r.
  - apply list_elem_of_In, in_map_iff in Hin as ([k rest'] & [= <- <-] & Hin).
    apply list_elem_of_In, list_elem_of_filter in Hin as [_ Hin].
    apply class_runs_spec in Hin as (pre & -> & _ & Hall). by exists pre.
  - apply list_elem_of_In, in_map_iff in Hin as ([k rest'] & [= <- <-] & Hin).
    apply list_elem_of_In, list_elem_of_filter in Hin as [_ Hin].
    apply class_runs_spec in Hin as (pre & -> & _ & Hall). by exists pre.
  - apply elem_of_app in Hin as [Hin|Hin]; [by apply IH in Hin|].
    apply list_elem_of_singleton in Hin. injection Hin as -> ->. by exists [].
  - apply list_elem_of_bind in Hin as ([c1 mid] & Hin & H1).
    apply list_elem_of_bind in Hin as ([c2 rest2] & Hin & H2).
    apply list_elem_of_singleton in Hin. injection Hin as -> ->. simpl in *.
    apply IH1 in H1 as (pre1 & -> & Hall1). apply IH2 in H2 as (pre2 & -> & Hall2).
    exists (pre1 ++ pre2). split; [by rewrite app_assoc|].
    apply Forall_app. split.
    + eapply Forall_impl; [exact Hall1|]. simpl. by intros x ->.
    + eapply Forall_impl; [exact Hall2|]. simpl. intros x ->. apply orb_true_r.
  - apply elem_of_app in Hin as [Hin|Hin].
    + apply IH1 in Hin as (pre & -> & Hall). exists pre. split; [done|].
      eapply Forall_impl; [exact Hall|]. simpl. by intros x ->.
    + apply IH2 in Hin as (pre & -> & Hall). exists pre. split; [done|].
      eapply Forall_impl; [exact Hall|]. simpl. intros x ->. apply orb_true_r.
  - apply list_elem_of_In, in_map_iff in Hin as ([c1 rest1] & [= <- <-] & Hin).
    apply list_elem_of_In in Hin. by apply IH in Hin.
Qed.

Lemma rx_match_seq (r1 r2 : regex) (s rest : text) (caps : captures) :
  (caps, rest) ∈ rx_match ic (Seq r1 r2) s ->
  exists c1 c2 mid,
    (c1, mid) ∈ rx_match ic r1 s /\ (c2, rest) ∈ rx_match ic r2 mid.
Proof.
  simpl. intros Hin.
  apply list_elem_of_bind in Hin as ([c1 mid] & Hin & H1).
  apply list_elem_of_bind in Hin as ([c2 rest2] & Hin & H2).
  apply list_elem_of_singleton in Hin. injection Hin as -> ->. eauto.
Qed.

Lemma re_search_spec (r : regex) (s m : text) :
  re_search ic r s = Some m ->
  exists before caps rest,
    s = before ++ m ++ rest /\ (caps, rest) ∈ rx_match ic r (m ++ rest).
Proof.
  induction s as [|c s IH]; simpl.
  - unfold re_match. destruct (rx_match ic r []) as [|[caps rest] l] eqn:Hm; [done|].
    simpl. intros [= <-].
    assert (Hin : (caps, rest) ∈ rx_match ic r []) by (rewrite Hm; left).
    destruct (rx_match_consumes r _ _ _ Hin) as (pre & Hs & _).
    symmetry in Hs. apply app_eq_nil in Hs as [-> ->].
    exists [], caps, []. done.
  - unfold re_match at 1.
    destruct (rx_match ic r (c :: s)) as [|[caps rest] l] eqn:Hm; simpl.
    + intros (before & caps & rest & -> & Hin)%IH.
      exists (c :: before), caps, rest. done.
    + intros [= <-].
      assert (Hin : (caps, rest) ∈ rx_match ic r (c :: s)) by (rewrite Hm; left).
      destruct (rx_match_consumes r _ _ _ Hin) as (pre & Hs & _).
      rewrite Hs, consumed_app. exists [], caps, rest. by rewrite <- Hs.
Qed.

End Matching.

(** ** Dash dates *)

Lemma strptime_consumes (data fmt : text) (d : datetime) :
  strptime data fmt = Some d ->
  exists rs, format_regex false fmt = Some rs
    /\ Forall (fun c => may_consume true (cat rs) c = true) data.
Proof.
  unfold strptime. destruct (format_regex false fmt) as [rs|]; [|done]. simpl.
  unfold re_match. destruct (rx_match true (cat rs) data) as [|[caps rest] l] eqn:Hm;
    [done|]. simpl.
  destruct (bool_decide (rest = [])) eqn:Hrest; [|done].
  apply bool_decide_eq_true in Hrest as ->. intros _.
  assert (Hin : (caps, []) ∈ rx_match true (cat rs) data) by (rewrite Hm; left).
  apply rx_match_consumes in Hin as (pre & -> & Hall).
  exists rs. split; [done|]. by rewrite app_nil_r.
Qed.

Lemma omap_none {A B} (f : A -> option B) (l : list A) :
  (forall x, x ∈ l -> f x = None) -> omap f l = [].
Proof.
  induction l as [|x l IH]; intros Hnone; [done|].
  cbn [omap list_omap]. rewrite (Hnone x) by left.
  apply IH. intros y Hy. apply Hnone. by right.
Qed.

Lemma try_patterns_skip (skipped ps : list regex) (date_str : text) :
  (forall p, p ∈ skipped -> re_search false p date_str = None) ->
  try_patterns (skipped ++ ps) date_str = try_patterns ps date_str.
Proof.
  induction skipped as [|p skipped IH]; intros Hnone; [done|].
  cbn [app try_patterns]. rewrite (Hnone p) by left.
  apply IH. intros q Hq. apply Hnone. by right.
Qed.

Lemma parse_order_date_unfold (frames : nat) (date_str : text) :
  parse_order_date (S frames) date_str
  = match try_patterns patterns date_str with
    | Some d => Some d
    | None =>
        if contains (str "Order time:") date_str then
          match split (str "Order time:") date_str with
          | _ :: part :: _ => parse_order_date frames part
          | _ => None
          end
        else None
    end.
Proof. reflexivity. Qed.

(** No format of [parse_order_date] reads a text with a dash in it. *)
Lemma try_formats_dash (data : text) : 45 ∈ data -> try_formats data = None.
Proof.
  intros Hdash.
  assert (Hnone : forall fmt, fmt ∈ formats -> strptime data fmt = None).
  { intros fmt Hfmt. destruct (strptime data fmt) as [d|] eqn:Hd; [|done].
    apply strptime_consumes in Hd as (rs & Hrs & Hall).
    rewrite Forall_forall in Hall. specialize (Hall 45 Hdash).
    unfold formats in Hfmt. simpl in Hfmt.
    repeat (apply elem_of_cons in Hfmt as [->|Hfmt];
            [vm_compute in Hrs; injection Hrs as <-; by vm_compute in Hall|]).
    by apply not_elem_of_nil in Hfmt. }
  unfold try_formats. by rewrite omap_none.
Qed.

Lemma dash_match_has_dash (s m : text) :
  re_search false dash_pattern s = Some m -> 45 ∈ m.
Proof.
  intros (before & caps & rest & _ & Hin)%re_search_spec.
  unfold dash_pattern, cat in Hin. simpl foldr in Hin.
  apply rx_match_seq in Hin as (c1 & c2 & mid & H1 & Hin).
  apply rx_match_seq in Hin as (c3 & c4 & mid2 & H2 & Hin).
  apply rx_match_consumes in H1 as (pre1 & Hs & _).
  apply rx_match_consumes in Hin as (pre3 & -> & _).
  change (str "-") with [45] in H2. cbn [rx_match] in H2.
  destruct (lit_match false [45] mid) as [after|] eqn:Hlit;
    [|by apply not_elem_of_nil in H2].
  apply list_elem_of_singleton in H2. injection H2 as _ <-.
  apply lit_match_spec in Hlit as (dash & -> & Hdash).
  apply Forall2_cons_inv_l in Hdash as (c & tl & Hc & Htl & ->).
  apply Forall2_nil_inv_l in Htl as ->.
  unfold char_matches in Hc. rewrite orb_false_r in Hc.
  apply Z.eqb_eq in Hc as <-.
  assert (m = pre1 ++ 45 :: pre3) as ->.
  { apply (app_inv_tail rest). rewrite Hs. by rewrite <- !app_assoc. }
  apply elem_of_app. right. left.
Qed.

Lemma remove_char_keeps (c x : Z) (s : text) :
  x <> c -> x ∈ s -> x ∈ remove_char c s.
Proof. intros. by apply list_elem_of_filter. Qed.

(** A text that only the dash pattern matches is never parsed: its
    match reaches no format that could read it. *)
Lemma dash_dates_never_parse (frames : nat) (date_str : text) :
  (forall p, p ∈ take 4 patterns -> re_search false p date_str = None) ->
  contains (str "Order time:") date_str = false ->
  parse_order_date frames date_str = None.
Proof.
  intros Hothers Hlabel. destruct frames as [|frames]; [done|].
  rewrite parse_order_date_unfold, Hlabel.
  change patterns with (take 4 patterns ++ [dash_pattern]).
  rewrite try_patterns_skip by done. cbn [try_patterns].
  destruct (re_search false dash_pattern date_str) as [m|] eqn:Hm; [|done].
  rewrite try_formats_dash; [done|].
  apply remove_char_keeps; [done|]. by apply dash_match_has_dash in Hm.
Qed.

Example dash_dates_never_parse_sample :
  parse_order_date 5 (str "Delivered 25-01-2024") = None.
Proof.
  apply dash_dates_never_parse; [|by vm_compute].
  intros p Hp. unfold patterns in Hp. cbn [take] in Hp.
  repeat (apply elem_of_cons in Hp as [->|Hp]; [by vm_compute|]).
  by apply not_elem_of_nil in Hp.
Qed.

(** ** Parsing order dates *)

Lemma dash_pattern_listed : patterns !! 4%nat = Some dash_pattern.
Proof. reflexivity. Qed.

(** C3, where it fails. "25-01-2024" matches the dash pattern of
    [parse_order_date], and no format of the function reads a dash, so
    the result is [None] and not 2024-01-25; a month name with a day and
    no year is lost the same way. The month-name and slash dates parse:
    day first when that is a date, month first otherwise. *)
Theorem parse_order_date_dash_unparsed (frames : nat) :
  re_search false dash_pattern (str "25-01-2024") = Some (str "25-01-2024")
  /\ parse_order_date (S frames) (str "25-01-2024") = None
  /\ parse_order_date (S frames) (str "Jan 5") = None
  /\ parse_order_date (S frames) (str "Jan 5 2024") = make_date 2024 1 5
  /\ parse_order_date (S frames) (str "Jan 5, 2024") = make_date 2024 1 5
  /\ parse_order_date (S frames) (str "5 Jan 2024") = make_date 2024 1 5
  /\ parse_order_date (S frames) (str "05/01/2024") = make_date 2024 1 5
  /\ parse_order_date (S frames) (str "25/01/2024") = make_date 2024 1 25
  /\ parse_order_date (S frames) (str "01/25/2024") = make_date 2024 1 25
  /\ parse_order_date (S frames) (str "no date here") = None.
Proof. split_and!; vm_compute; reflexivity. Qed.

(** The label "Order time:" is stripped by a recursive call, while
    frames are left. *)
Example parse_order_date_label :
  parse_order_date 2 (str "Order time: 31/12/2023") = make_date 2023 12 31
  /\ parse_order_date 2 (str "Order time: soon") = None
  /\ parse_order_date 1 (str "Order time: soon") = None
  /\ isoformat <$> parse_order_date 2 (str "Order time: Feb 29, 2024")
     = Some "2024-02-29T00:00:00".
Proof. split_and!; vm_compute; reflexivity. Qed.

(** Every month-name date of 2023 and 2024, and every slash date of 2024,
    is read as its calendar date, or as nothing when it is none. *)
Example month_name_dates :
  all_pairs (fun m d =>
      bool_decide (parse_order_date 1 (render_month_name 2024 m d) = make_date 2024 m d)
      && bool_decide (parse_order_date 1 (render_month_name 2023 m d)
                      = make_date 2023 m d))
    (seqZ 1 12) (seqZ 1 31) = true.
Proof. vm_compute. reflexivity. Qed.

Example slash_dates :
  all_pairs (fun a b =>
      bool_decide (parse_order_date 1 (render_slash a b 2024) = slash_reading a b 2024))
    (seqZ 1 31) (seqZ 1 31) = true.
Proof. vm_compute. reflexivity. Qed.

(** * Further properties *)

(** An optional result that evaluates to a value is not [None]. *)
Lemma run_not_none {A} (run : option A) :
  from_option (fun _ => true) false run = true -> run <> None.
Proof. by destruct run. Qed.

(** ** The sub-attempts of [attempt_price_adjustment] *)

Lemma sub_attempts_spec (remaining attempt : nat) (env : nat -> sub_attempt) :
  (attempt + remaining = S MAX_SUB_ATTEMPTS)%nat ->
  (all_inconclusive env attempt remaining
   /\ sub_attempts remaining attempt env = (None, None))
  \/ exists k, (attempt <= k <= MAX_SUB_ATTEMPTS)%nat
       /\ all_inconclusive env attempt (k - attempt)
       /\ inconclusive (env k) = false
       /\ sub_attempts remaining attempt env = verdict (env k).
Proof.
  revert attempt. induction remaining as [|remaining IH]; intros attempt Hsum.
  { left. split; [intros j Hj; lia|done]. }
  assert (Hnext : (all_inconclusive env attempt (S remaining)
     /\ sub_attempts remaining (S attempt) env = (None, None))
    \/ (exists k, (attempt <= k <= MAX_SUB_ATTEMPTS)%nat
       /\ all_inconclusive env attempt (k - attempt)
       /\ inconclusive (env k) = false
       /\ sub_attempts remaining (S attempt) env = verdict (env k))
    \/ inconclusive (env attempt) = false).
  { destruct (inconclusive (env attempt)) eqn:Hi; [|by right; right].
    destruct (IH (S attempt)) as [[Hall Hres]|(k & Hk & Hall & Hdec & Hres)]; [lia| |].
    - left. split; [|done]. intros j Hj.
      destruct (decide (j = attempt)) as [->|]; [done|]. apply Hall. lia.
    - right; left. exists k. split; [lia|]. split; [|done]. intros j Hj.
      destruct (decide (j = attempt)) as [->|]; [done|]. apply Hall. lia. }
  assert (Hhere : inconclusive (env attempt) = false ->
    exists k, (attempt <= k <= MAX_SUB_ATTEMPTS)%nat
       /\ all_inconclusive env attempt (k - attempt)
       /\ inconclusive (env k) = false
       /\ verdict (env attempt) = verdict (env k)).
  { intros Hd. exists attempt. split; [unfold MAX_SUB_ATTEMPTS in *; lia|].
    split; [intros j Hj; lia|done]. }
  cbn [sub_attempts].
  destruct (env attempt) as [| | | |dialog flow] eqn:Ha.
  - right. destruct Hhere as (k & ? & ? & ? & Hv); [done|]. exists k.
    by rewrite <- Hv.
  - destruct (attempt =? MAX_SUB_ATTEMPTS)%nat eqn:E.
    + left. apply Nat.eqb_eq in E. assert (remaining = O) as -> by lia.
      split; [|done]. intros j Hj. by assert (j = attempt) as -> by lia; rewrite Ha.
    + destruct Hnext as [?|[?|?]]; [by left|by right|done].
  - destruct Hnext as [?|[?|?]]; [by left|by right|done].
  - destruct (attempt <? MAX_SUB_ATTEMPTS)%nat eqn:E.
    + destruct Hnext as [?|[?|?]]; [by left|by right|done].
    + left. apply Nat.ltb_ge in E.
      assert (remaining = O) as -> by (unfold MAX_SUB_ATTEMPTS in *; lia).
      split; [|done]. intros j Hj. by assert (j = attempt) as -> by lia; rewrite Ha.
  - cbn [inconclusive verdict] in *.
    destruct (check_dialog_type dialog) eqn:Hc.
    + right. destruct Hhere as (k & ? & ? & ? & Hv); [done|]. exists k.
      rewrite <- Hv. by destruct flow.
    + right. destruct Hhere as (k & ? & ? & ? & Hv); [done|]. exists k.
      by rewrite <- Hv.
    + destruct Hnext as [?|[?|?]]; [by left|by right|done].
Qed.

(** The sub-attempt that decides is the first one that is not inconclusive. *)
Lemma attempt_price_adjustment_cases (env : nat -> sub_attempt) :
  (all_inconclusive env 1 MAX_SUB_ATTEMPTS
   /\ attempt_price_adjustment env = (None, None))
  \/ exists k, (1 <= k <= MAX_SUB_ATTEMPTS)%nat
       /\ all_inconclusive env 1 (k - 1)
       /\ inconclusive (env k) = false
       /\ attempt_price_adjustment env = verdict (env k).
Proof. by apply sub_attempts_spec. Qed.

Lemma first_decisive_unique (env : nat -> sub_attempt) (j k : nat) :
  all_inconclusive env 1 (j - 1) -> inconclusive (env j) = false ->
  all_inconclusive env 1 (k - 1) -> inconclusive (env k) = false ->
  (1 <= j)%nat -> (1 <= k)%nat -> j = k.
Proof.
  intros Hj Hdj Hk Hdk ? ?.
  destruct (Nat.lt_trichotomy j k) as [Hlt|[->|Hlt]]; [|done|].
  - rewrite Hk in Hdj by lia. done.
  - rewrite Hj in Hdk by lia. done.
Qed.

(** [attempt_price_adjustment] returns [True] exactly when one of its
    seven sub-attempts shows a dialog classified as the request form
    whose flow ends in a confirmation, every earlier sub-attempt having
    been inconclusive; the refund amount set on the order is the one of
    that flow. *)
Theorem attempt_price_adjustment_true (env : nat -> sub_attempt)
    (refund : option string) :
  attempt_price_adjustment env = (Some true, refund)
  <-> exists k dialog,
        (1 <= k <= MAX_SUB_ATTEMPTS)%nat
        /\ all_inconclusive env 1 (k - 1)
        /\ env k = DialogShown dialog (FlowConfirmed refund)
        /\ check_dialog_type dialog = Success.
Proof.
  split.
  - intros Hres.
    destruct (attempt_price_adjustment_cases env)
      as [[_ Hnone]|(k & Hk & Hall & _ & Hv)]; [congruence|].
    rewrite Hres in Hv. exists k. unfold verdict in Hv.
    destruct (env k) as [| | | |dialog flow]; try discriminate.
    exists dialog. destruct (check_dialog_type dialog), flow; try discriminate.
    by injection Hv as <-.
  - intros (k & dialog & Hk & Hall & Hshown & Hclass).
    assert (Hdec : inconclusive (env k) = false).
    { rewrite Hshown. cbn [inconclusive]. by rewrite Hclass. }
    destruct (attempt_price_adjustment_cases env)
      as [[Hnone _]|(k' & Hk' & Hall' & Hdec' & ->)].
    + rewrite Hnone in Hdec by lia. done.
    + rewrite (first_decisive_unique env k' k) by (done || lia).
      rewrite Hshown. cbn [verdict]. by rewrite Hclass.
Qed.

(** [attempt_price_adjustment] returns [False] exactly when the first
    sub-attempt that is not inconclusive shows a dialog classified as a
    refusal, or a request form whose flow fails; no refund amount is set
    unless the answer is [True]. *)
Theorem attempt_price_adjustment_false (env : nat -> sub_attempt) :
  ((attempt_price_adjustment env).1 = Some false
   <-> exists k dialog flow,
         (1 <= k <= MAX_SUB_ATTEMPTS)%nat
         /\ all_inconclusive env 1 (k - 1)
         /\ env k = DialogShown dialog flow
         /\ (check_dialog_type dialog = Failure
             \/ check_dialog_type dialog = Success /\ flow = FlowFailed))
  /\ ((attempt_price_adjustment env).1 <> Some true ->
      (attempt_price_adjustment env).2 = None).
Proof.
  split; [split|].
  - intros Hres.
    destruct (attempt_price_adjustment_cases env)
      as [[_ Hnone]|(k & Hk & Hall & _ & Hv)]; [by rewrite Hnone in Hres|].
    rewrite Hv in Hres. exists k. unfold verdict in Hres.
    destruct (env k) as [| | | |dialog flow]; try discriminate.
    exists dialog, flow.
    destruct (check_dialog_type dialog), flow; try discriminate;
      split_and!; auto; lia.
  - intros (k & dialog & flow & Hk & Hall & Hshown & Hclass).
    assert (Hdec : inconclusive (env k) = false).
    { rewrite Hshown. cbn [inconclusive]. by destruct Hclass as [->|[-> _]]. }
    destruct (attempt_price_adjustment_cases env)
      as [[Hnone _]|(k' & Hk' & Hall' & Hdec' & ->)].
    + rewrite Hnone in Hdec by lia. done.
    + rewrite (first_decisive_unique env k' k) by (done || lia).
      rewrite Hshown. cbn [verdict]. by destruct Hclass as [->|[-> ->]].
  - destruct (attempt_price_adjustment_cases env)
      as [[_ ->]|(k & _ & _ & _ & ->)]; [done|].
    unfold verdict. destruct (env k) as [| | | |dialog flow]; try done.
    by destruct (check_dialog_type dialog), flow.
Qed.

(** [attempt_price_adjustment] returns [None] exactly when all seven
    sub-attempts are inconclusive, or an exception escapes a sub-attempt
    before any of them decided; what the eighth and later sub-attempts
    would have met does not matter. *)
Theorem attempt_price_adjustment_none (env : nat -> sub_attempt) :
  ((attempt_price_adjustment env).1 = None
   <-> all_inconclusive env 1 MAX_SUB_ATTEMPTS
       \/ exists k, (1 <= k <= MAX_SUB_ATTEMPTS)%nat
            /\ all_inconclusive env 1 (k - 1) /\ env k = DriverRaises)
  /\ (forall env' : nat -> sub_attempt,
        (forall k, (1 <= k <= MAX_SUB_ATTEMPTS)%nat -> env' k = env k) ->
        attempt_price_adjustment env' = attempt_price_adjustment env).
Proof.
  split; [split|].
  - intros Hres.
    destruct (attempt_price_adjustment_cases env)
      as [[Hall _]|(k & Hk & Hall & Hdec & Hv)]; [by left|].
    right. exists k. rewrite Hv in Hres. unfold verdict in Hres.
    destruct (env k) as [| | | |dialog flow]; try done.
    cbn [inconclusive] in Hdec.
    by destruct (check_dialog_type dialog), flow.
  - intros Hnone.
    destruct (attempt_price_adjustment_cases env)
      as [[_ ->]|(k' & Hk' & Hall' & Hdec' & ->)]; [done|].
    destruct Hnone as [Hall|(k & Hk & Hall & Hraise)].
    + rewrite Hall in Hdec' by lia. done.
    + rewrite (first_decisive_unique env k' k); [by rewrite Hraise|done..| | |];
        [by rewrite Hraise|lia|lia].
  - intros env' Hsame. unfold attempt_price_adjustment.
    assert (Hgen : forall remaining attempt,
              (attempt + remaining = S MAX_SUB_ATTEMPTS)%nat -> (1 <= attempt)%nat ->
              sub_attempts remaining attempt env' = sub_attempts remaining attempt env).
    { induction remaining as [|remaining IH]; intros attempt Hsum Hpos; [done|].
      cbn [sub_attempts]. rewrite Hsame by lia. rewrite IH by lia. done. }
    by apply Hgen.
Qed.

(** ** Saving twice, saving in sequence *)

Lemma count_id_trans (v w : value) (records : list order) :
  py_eqb v w = true -> count_id v records = count_id w records.
Proof.
  intros H. induction records as [|r rest IH]; simpl; [done|].
  by rewrite IH, (has_id_trans v w r H).
Qed.

Lemma drop_elements_idem (o : order) : drop_elements (drop_elements o) = drop_elements o.
Proof.
  apply map_eq. intros k. apply option_eq. intros v.
  rewrite !drop_elements_lookup. intuition.
Qed.

Lemma drop_elements_insert (o : order) (k : string) (v : value) :
  k <> "element" -> is_element v = false ->
  drop_elements (<[k := v]> o) = <[k := v]> (drop_elements o).
Proof.
  intros Hk Hv. apply map_eq. intros k'. apply option_eq. intros v'.
  rewrite drop_elements_lookup. destruct (decide (k' = k)) as [->|Hne].
  - rewrite !lookup_insert_eq. split; [by intros [? _]|]. by intros [= <-].
  - rewrite !lookup_insert_ne by done. by rewrite drop_elements_lookup.
Qed.

(** What both savers hand to [json.dump] holds no datetime under
    ['date_obj'] and no [WebElement]. *)
Lemma utils_convert_date_idem (o : order) :
  Utils.convert_date (Utils.convert_date o) = Utils.convert_date o.
Proof.
  unfold Utils.convert_date at 2 3.
  destruct (o !! "date_obj") as [v|] eqn:E.
  - destruct v; unfold Utils.convert_date; rewrite ?E, ?lookup_insert_eq; done.
  - unfold Utils.convert_date. by rewrite E.
Qed.

Lemma drop_elements_converted (o : order) :
  drop_elements (Utils.convert_date (drop_elements o))
  = Utils.convert_date (drop_elements o).
Proof.
  unfold Utils.convert_date.
  destruct (drop_elements o !! "date_obj") as [v|] eqn:E;
    [destruct v|]; try apply drop_elements_idem.
  rewrite drop_elements_insert by done. by rewrite drop_elements_idem.
Qed.

Lemma isoformat_nonempty (d : datetime) : isoformat d <> "".
Proof.
  unfold isoformat, isoformat_sep. destruct (ord2ymd (ordinal d)) as [[y m] dd].
  destruct (zero_pad 4 y); simpl; discriminate.
Qed.

Lemma find_existing_alter (records : list order) (o : order) (i : nat)
    (f : order -> order) :
  find_existing records o = inr (Some i) ->
  (forall r, records !! i = Some r -> f r !! "id" = o !! "id") ->
  find_existing (alter f i records) o = inr (Some i).
Proof.
  revert i. induction records as [|r rest IH]; intros i Hfind Hf; [done|].
  cbn [find_existing] in Hfind.
  destruct (r !! "id") as [rid|] eqn:Hr; [|done].
  destruct (o !! "id") as [oid|] eqn:Ho; [|done].
  destruct (py_eqb rid oid) eqn:E.
  - injection Hfind as <-. cbn [alter list_alter find_existing].
    rewrite (Hf r eq_refl), Ho. by rewrite py_eqb_refl.
  - destruct (find_existing rest o) as [e|[j|]] eqn:Hrest; try done.
    injection Hfind as <-.
    change (alter f (S j) (r :: rest)) with (r :: alter f j rest).
    cbn [find_existing]. rewrite Hr, Ho, E, (IH j); [done|done|].
    intros r' Hr'. by apply Hf.
Qed.

Lemma find_existing_app_new (records : list order) (o : order) :
  find_existing records o = inr None -> is_Some (o !! "id") ->
  find_existing (records ++ [o]) o = inr (Some (length records)).
Proof.
  intros Hfind [oid Ho]. induction records as [|r rest IH].
  - cbn [app find_existing]. by rewrite Ho, py_eqb_refl.
  - cbn [app find_existing length] in *.
    destruct (r !! "id") as [rid|]; [|done]. rewrite Ho in *.
    destruct (py_eqb rid oid); [done|].
    destruct (find_existing rest o) as [e|[j|]]; try done.
    by rewrite IH.
Qed.

(** A second save of the same dict through utils.py changes nothing,
    for an order whose id [json.dump] writes as it is. *)
Theorem utils_save_order_data_idempotent (file file' : orders_file)
    (o saved : order) :
  has_json_id o ->
  Utils.save_order_data WriteOk file o = (true, saved, file') ->
  Utils.save_order_data WriteOk file' saved = (true, saved, file').
Proof.
  intros (oid & Hid & Hel & _). unfold Utils.save_order_data.
  destruct (decide (file = Unreadable)) as [->|Hread]; [by intros [=]|].
  rewrite (read_orders_readable file Hread).
  set (o2 := Utils.convert_date (drop_elements o)).
  assert (Ho2 : o2 !! "id" = Some oid).
  { unfold o2. rewrite utils_convert_date_lookup by done.
    by apply drop_elements_keeps. }
  assert (Hfix : Utils.convert_date (drop_elements o2) = o2).
  { unfold o2. by rewrite drop_elements_converted, utils_convert_date_idem. }
  unfold upsert.
  destruct (find_existing (load_orders file) o2) as [e|[i|]] eqn:Hfind;
    cbn [write_orders]; intros [= <- <-]; cbn [read_orders load_orders];
    rewrite !Hfix.
  - rewrite (find_existing_alter _ _ i); [|done|].
    + rewrite list_alter_alter_eq.
      do 2 f_equal. apply list_alter_ext; [|done]. intros r _. unfold dict_update.
      simpl. by rewrite (assoc_L (∪)), (idemp_L (∪) o2).
    + intros r _. unfold dict_update. rewrite Ho2. by apply lookup_union_Some_l.
  - rewrite find_existing_app_new by done.
    rewrite (alter_app_r_alt _ _ _ (length (load_orders file))) by lia.
    rewrite Nat.sub_diag. cbn [alter list_alter]. unfold dict_update.
    by rewrite (idemp_L (∪) o2).
Qed.

Lemma utils_save_order_data_idempotent_witness :
  Utils.save_order_data WriteOk
    (Stored [stored_record "PO-0" "success";
             dict_update (stored_record "PO-1" "failed")
               (Utils.convert_date (later_record "PO-1" "not_available"))])
    (Utils.convert_date (later_record "PO-1" "not_available"))
  = (true, Utils.convert_date (later_record "PO-1" "not_available"),
     Stored [stored_record "PO-0" "success";
             dict_update (stored_record "PO-1" "failed")
               (Utils.convert_date (later_record "PO-1" "not_available"))]).
Proof.
  apply (utils_save_order_data_idempotent
           (Stored [stored_record "PO-0" "success"; stored_record "PO-1" "failed"])
           _ (later_record "PO-1" "not_available")).
  - exists (VStr "PO-1"). split_and!; reflexivity.
  - vm_compute. reflexivity.
Defined.

(** What the saver of main.py leaves in the caller's dict when the date
    is a datetime: the elements are dropped and the date is a string,
    whether or not the store could be read and written. *)
Lemma main_save_order_data_dict (w : write_outcome) (file : orders_file)
    (o : order) (d : datetime) :
  o !! "date_obj" = Some (VDatetime d) ->
  (Main.save_order_data w file o).1.2
  = <["date_obj" := VStr (isoformat d)]> (drop_elements o).
Proof.
  intros Hdate.
  assert (Hdrop : drop_elements o !! "date_obj" = Some (VDatetime d)).
  { by apply drop_elements_keeps. }
  unfold Main.save_order_data, Main.convert_date. rewrite Hdrop. cbn [truthy].
  destruct (upsert _ _); [done|]. by destruct w.
Qed.

(** The saver of main.py fails on a dict whose date is a string. *)
Lemma main_save_order_data_serialised (w : write_outcome) (file : orders_file)
    (o : order) (iso : string) :
  o !! "date_obj" = Some (VStr iso) -> iso <> "" ->
  Main.save_order_data w file o = (false, drop_elements o, file).
Proof.
  intros Hdate Hne. unfold Main.save_order_data, Main.convert_date.
  rewrite (drop_elements_keeps _ _ _ Hdate) by done. cbn [truthy].
  destruct (String.eqb_spec iso "") as [->|_]; done.
Qed.

(** main.py calls [isoformat()] on whatever truthy value it finds under
    ['date_obj']: a dict that went through [save_order_data] once holds a
    string there, and every later save of it fails before the file is
    read, whatever the first save returned. *)
Theorem main_save_order_data_once (w w' : write_outcome)
    (file file' : orders_file) (o : order) (d : datetime) :
  o !! "date_obj" = Some (VDatetime d) ->
  let saved := (Main.save_order_data w file o).1.2 in
  saved !! "date_obj" = Some (VStr (isoformat d))
  /\ Main.save_order_data w' file' saved = (false, saved, file').
Proof.
  intros Hdate. cbn zeta. rewrite (main_save_order_data_dict _ _ _ _ Hdate).
  split; [by rewrite lookup_insert_eq|].
  rewrite (main_save_order_data_serialised _ _ _ (isoformat d));
    [|by rewrite lookup_insert_eq|apply isoformat_nonempty].
  by rewrite drop_elements_insert, drop_elements_idem.
Qed.

Lemma main_save_order_data_once_witness :
  let saved := (Main.save_order_data WriteOk Missing sample_order).1.2 in
  saved !! "date_obj" = Some (VStr (isoformat sample_date))
  /\ Main.save_order_data WriteOk (Stored [saved]) saved
     = (false, saved, Stored [saved]).
Proof.
  apply (main_save_order_data_once WriteOk WriteOk Missing _ sample_order sample_date).
  reflexivity.
Defined.

Lemma upsert_has_ids (records records' : list order) (o : order) :
  upsert records o = inr records' -> is_Some (o !! "id") ->
  Forall (fun r => is_Some (r !! "id")) records ->
  Forall (fun r => is_Some (r !! "id")) records'.
Proof.
  unfold upsert. intros Hup Hid Hall.
  destruct (find_existing records o) as [e|[i|]]; [done| |];
    injection Hup as <-.
  - apply Forall_alter; [done|]. intros r _ _. unfold dict_update.
    destruct Hid as [oid Hid]. exists oid. by apply lookup_union_Some_l.
  - apply Forall_app. split; [done|]. by constructor.
Qed.

Lemma upsert_unique_ids (records records' : list order) (o : order) :
  upsert records o = inr records' -> is_Some (o !! "id") ->
  Forall (fun r => is_Some (r !! "id")) records ->
  unique_ids records -> unique_ids records'.
Proof.
  intros Hup [oid Hid] Hall Huniq v.
  destruct (upsert_spec records o oid Hid Hall)
    as (records'' & Hup' & Hcount & Hother & _).
  assert (records'' = records') as -> by congruence.
  destruct (py_eqb oid v) eqn:E.
  - rewrite <- (count_id_trans oid v) by done. rewrite Hcount.
    specialize (Huniq oid). lia.
  - rewrite Hother by done. apply Huniq.
Qed.

Lemma save_with_clean (main : bool) (w : write_outcome) (file : orders_file)
    (o : order) :
  has_plain_id o -> clean_store file -> clean_store (save_with main w file o).2.
Proof.
  intros (oid & Hid & Hel) [Hall Huniq].
  assert (Ho2 : is_Some (Utils.convert_date (drop_elements o) !! "id")).
  { exists oid. rewrite utils_convert_date_lookup by done.
    by apply drop_elements_keeps. }
  assert (Hutils : clean_store (Utils.save_order_data w file o).2).
  { unfold Utils.save_order_data.
    destruct (decide (file = Unreadable)) as [->|Hread]; [done|].
    rewrite (read_orders_readable file Hread).
    destruct (upsert _ _) as [e|records'] eqn:Hup; [done|].
    destruct w; cbn [write_orders snd];
      [|done|by split; [apply Forall_nil_2|intros v; simpl; lia]].
    split; cbn [load_orders];
      [by eapply upsert_has_ids|by eapply upsert_unique_ids]. }
  destruct main; [|done]. cbn [save_with].
  unfold Main.save_order_data.
  destruct (main_convert_date_cases (drop_elements o)) as [[e ->]| ->]; [done|].
  destruct (upsert _ _) as [e|records'] eqn:Hup; [done|].
  destruct w; cbn [write_orders snd];
    [|done|by split; [apply Forall_nil_2|intros v; simpl; lia]].
  split; cbn [load_orders];
    [by eapply upsert_has_ids|by eapply upsert_unique_ids].
Qed.

(** Every store that the two savers build from an empty, missing or
    unreadable file, or from a store without duplicates, is without
    duplicates: each record has an id and no id occurs twice, whichever
    saver is called, whether or not its write succeeds. The orders saved
    have ids that [json.dump] writes as they are. *)
Theorem save_order_data_keeps_ids_unique
    (steps : list (bool * write_outcome * order)) (file : orders_file) :
  Forall (fun step => has_json_id step.2) steps ->
  clean_store file -> clean_store (save_all steps file).
Proof.
  intros Hsteps. revert file.
  induction Hsteps as [|[[main w] o] steps Ho _ IH]; intros file Hclean; [done|].
  apply IH. apply save_with_clean; [|done].
  destruct Ho as (oid & Hid & Hel & _). by exists oid.
Qed.

Lemma save_order_data_keeps_ids_unique_witness :
  clean_store
    (save_all [(true, WriteOk, later_record "PO-1" "failed");
               (false, DumpFails, later_record "PO-2" "failed");
               (false, WriteOk, later_record "PO-1" "success");
               (true, WriteOk, stored_record "PO-1" "failed")] Missing).
Proof.
  apply save_order_data_keeps_ids_unique.
  - repeat (apply Forall_cons_2; [eexists; split_and!; reflexivity|]).
    apply Forall_nil_2.
  - split; [constructor|intros v; simpl; lia].
Defined.

(** One stored record without ['id'] blocks every save of an order whose
    id is not stored before it: [save_order_data] returns [False] and
    leaves the file as it was, in main.py and in utils.py. *)
Theorem save_order_data_record_without_id (main : bool) (w : write_outcome)
    (before after : list order) (bad o : order) (oid : value) :
  o !! "id" = Some oid -> is_element oid = false ->
  bad !! "id" = None ->
  Forall (fun r => is_Some (r !! "id")) before ->
  count_id oid before = O ->
  let file := Stored (before ++ bad :: after) in
  (save_with main w file o).1.1 = false
  /\ (save_with main w file o).2 = file.
Proof.
  intros Hid Hel Hbad Hall Hcount file.
  set (o2 := Utils.convert_date (drop_elements o)).
  assert (Ho2 : o2 !! "id" = Some oid).
  { unfold o2. rewrite utils_convert_date_lookup by done.
    by apply drop_elements_keeps. }
  assert (Hfind : exists e, find_existing (before ++ bad :: after) o2 = inl e).
  { clear -Ho2 Hbad Hall Hcount.
    induction Hall as [|r rest [rid Hr] _ IH]; cbn [app find_existing].
    - rewrite Hbad. eauto.
    - rewrite Hr, Ho2. simpl in Hcount. unfold has_id in Hcount.
      rewrite Hr in Hcount. destruct (py_eqb rid oid); [done|].
      destruct IH as [e ->]; [done|eauto]. }
  destruct Hfind as [e Hfind].
  assert (Hutils : (Utils.save_order_data w file o).1.1 = false
                   /\ (Utils.save_order_data w file o).2 = file).
  { unfold Utils.save_order_data, upsert. cbn [read_orders load_orders file].
    fold o2. by rewrite Hfind. }
  destruct main; [|done]. cbn [save_with]. unfold Main.save_order_data.
  destruct (main_convert_date_cases (drop_elements o)) as [[e' ->]| ->]; [done|].
  apply Hutils.
Qed.

Lemma save_order_data_record_without_id_witness :
  let file := Stored ([stored_record "PO-0" "success"]
                      ++ delete "id" (stored_record "PO-1" "failed")
                      :: [stored_record "PO-2" "failed"]) in
  (save_with true WriteOk file (later_record "PO-2" "success")).1.1 = false
  /\ (save_with true WriteOk file (later_record "PO-2" "success")).2 = file.
Proof.
  apply (save_order_data_record_without_id true WriteOk
           [stored_record "PO-0" "success"] [stored_record "PO-2" "failed"]
           (delete "id" (stored_record "PO-1" "failed"))
           (later_record "PO-2" "success") (VStr "PO-2")).
  - reflexivity.
  - reflexivity.
  - reflexivity.
  - repeat constructor. eexists. reflexivity.
  - reflexivity.
Defined.

(** ** The scheduler's history and the next run *)

Lemma record_success_hour_count (t : datetime) (sd : success_data) (h : Z) :
  hour_count (record_success t sd) h
  = hour_count sd h + (if decide (hour t = h) then 1 else 0).
Proof.
  unfold hour_count, record_success. cbn [hours].
  destruct (decide (hour t = h)) as [->|Hne].
  - by rewrite lookup_insert_eq.
  - rewrite lookup_insert_ne; [lia|]. intros E. by apply (inj pretty) in E.
Qed.

Lemma update_all_snoc (updates : list (datetime * option exn))
    (u : datetime * option exn) (sch : scheduler) :
  update_all (updates ++ [u]) sch
  = (update_success u.1 u.2 (update_all updates sch)).2.
Proof. unfold update_all. by rewrite foldl_app. Qed.

Lemma update_success_data (t : datetime) (w : option exn) (sch : scheduler) :
  data (update_success t w sch).2 = record_success t (data sch).
Proof. by destruct w. Qed.

(** The histogram of the scheduler counts the recorded successes: after
    any run of updates, the count under [str(h)] has grown by the number
    of timestamps of hour [h], and the timestamps were appended in order,
    whether or not [save_state] raised in any of the updates. *)
Theorem update_success_histogram (updates : list (datetime * option exn))
    (sch : scheduler) (h : Z) :
  let after := update_all updates sch in
  hour_count (data after) h
  = hour_count (data sch) h + count_hour h (updates.*1)
  /\ timestamps (data after)
     = timestamps (data sch) ++ (isoformat <$> updates.*1).
Proof.
  cbn zeta. split_and!.
  - induction updates as [|[t w] updates IH] using rev_ind.
    + unfold count_hour. simpl. lia.
    + rewrite update_all_snoc, update_success_data, record_success_hour_count, IH.
      rewrite fmap_app. unfold count_hour. rewrite filter_app, length_app.
      cbn [fmap list_fmap fst]. rewrite filter_cons, filter_nil.
      destruct (decide (hour t = h)); simpl; lia.
  - induction updates as [|[t w] updates IH] using rev_ind.
    + simpl. by rewrite app_nil_r.
    + rewrite update_all_snoc, update_success_data. cbn [record_success timestamps].
      rewrite IH, !fmap_app. cbn [fmap list_fmap fst]. by rewrite <- app_assoc.
Qed.

(** With a history, [get_next_run_time] never returns a time in the past
    when the predicted hour and the drawn window give a time of day that
    is not before midnight (as the clamp to 9..21 of the regression path
    guarantees): the result is today or tomorrow at that time of day,
    second 0, and not earlier than the clock. *)
Theorem get_next_run_time_not_past (env : schedule_env) (sd : success_data) :
  timestamps sd <> [] ->
  wf_datetime (clock env) -> wf_datetime (clock_check env) ->
  ordinal (clock_check env) = ordinal (clock env) ->
  ordinal (clock env) < MAXORDINAL ->
  0 <= predicted_hour env <= 23 ->
  -30 <= window_minutes env <= 30 ->
  0 <= predicted_hour env * 60 + window_minutes env ->
  exists next_run,
    get_next_run_time env sd = Some next_run
    /\ wf_datetime next_run
    /\ to_us (clock_check env) <= to_us next_run
    /\ ordinal (clock env) <= ordinal next_run <= ordinal (clock env) + 1
    /\ hour next_run * 60 + minute next_run
       = predicted_hour env * 60 + window_minutes env
    /\ second next_run = 0
    /\ microsecond next_run = microsecond (clock env).
Proof.
  intros Hts (Ho & Hh & Hm & Hs & Hu) (Hco & Hch & Hcm & Hcs & Hcu) Hday Hmax
    Hhour Hwin Htotal.
  unfold get_next_run_time. destruct (timestamps sd) as [|ts rest]; [done|].
  unfold replace_hour.
  replace ((0 <=? predicted_hour env) && (predicted_hour env <? 24)) with true
    by (symmetry; apply andb_true_iff; lia).
  cbn [mbind option_bind]. unfold add_minutes. cbn [hour minute ordinal second microsecond].
  set (total := predicted_hour env * 60 + 0 + window_minutes env).
  assert (Htot : 0 <= total < 1440) by (unfold total; lia).
  rewrite (Z.div_small total 1440), (Z.mod_small total 1440) by done.
  rewrite add_days_in_range by (cbn [ordinal]; lia).
  cbn [mbind option_bind ordinal hour minute second microsecond].
  rewrite Z.add_0_r.
  set (next_run := mk_datetime (ordinal (clock env)) (total / 60) (total mod 60) 0
                     (microsecond (clock env))).
  assert (Hq : 0 <= total / 60 < 24).
  { split; [apply Z.div_pos; lia|apply Z.div_lt_upper_bound; lia]. }
  assert (Hr : 0 <= total mod 60 < 60) by (apply Z.mod_pos_bound; lia).
  assert (Hsplit : total / 60 * 60 + total mod 60 = total).
  { pose proof (Z.div_mod total 60). lia. }
  unfold datetime_lt.
  destruct (datetime_ge next_run (clock_check env)) eqn:Hge; cbn [negb].
  - exists next_run. split; [done|].
    apply datetime_ge_to_us in Hge;
      [|unfold next_run; cbn [hour minute second microsecond]; lia..].
    unfold wf_datetime, next_run in *; cbn [ordinal hour minute second microsecond].
    unfold total in *. split_and!; try lia.
  - rewrite add_days_in_range by (unfold next_run; cbn [ordinal]; lia).
    eexists. split; [done|].
    unfold wf_datetime, to_us, next_run; cbn [ordinal hour minute second microsecond].
    unfold total in *. split_and!; try lia.
Qed.

Lemma get_next_run_time_not_past_witness :
  exists next_run,
    get_next_run_time sample_schedule_env sample_history = Some next_run
    /\ wf_datetime next_run
    /\ to_us (clock_check sample_schedule_env) <= to_us next_run
    /\ ordinal (clock sample_schedule_env) <= ordinal next_run
       <= ordinal (clock sample_schedule_env) + 1
    /\ hour next_run * 60 + minute next_run
       = predicted_hour sample_schedule_env * 60 + window_minutes sample_schedule_env
    /\ second next_run = 0
    /\ microsecond next_run = microsecond (clock sample_schedule_env).
Proof.
  apply get_next_run_time_not_past.
  - discriminate.
  - unfold wf_datetime, MAXORDINAL; simpl; lia.
  - unfold wf_datetime, MAXORDINAL; simpl; lia.
  - reflexivity.
  - unfold MAXORDINAL; simpl; lia.
  - simpl; lia.
  - change (window_minutes sample_schedule_env) with (-20). lia.
  - change (window_minutes sample_schedule_env) with (-20). simpl; lia.
Defined.

(** The fallback hour can be 0: with a negative window the time of day
    falls before midnight, and the day added at the end does not bring
    the result past the clock. *)
Example get_next_run_time_past :
  let late := mk_datetime 738920 23 45 0 0 in
  let env := mk_schedule_env late late (fun a _ => a) 0 in
  get_next_run_time env sample_history = Some (mk_datetime 738920 23 30 0 0)
  /\ datetime_lt (mk_datetime 738920 23 30 0 0) late = true.
Proof. split; reflexivity. Qed.

(** ** Statistics of an order and of a run *)

Lemma bot_step_refl (b : bot) : bot_step b b.
Proof. split_and!; [done|intros; lia|lia|done]. Qed.

Lemma bot_step_trans (a b c : bot) : bot_step a b -> bot_step b c -> bot_step a c.
Proof.
  intros (Hf1 & Hm1 & Hs1 & Hp1) (Hf2 & Hm2 & Hs2 & Hp2). split_and!.
  - intros k Hk. by rewrite Hf2, Hf1.
  - intros k. specialize (Hm1 k). specialize (Hm2 k). lia.
  - lia.
  - by etrans.
Qed.

(** Steps that leave the statistics, the scheduler and the status files
    alone. *)
Lemma bot_step_same (b b' : bot) :
  stats b' = stats b -> sched b' = sched b -> status_files b' = status_files b ->
  bot_step b b'.
Proof.
  intros Hst Hsc Hfi. unfold bot_step, stat, recorded. rewrite Hst, Hsc, Hfi.
  split_and!; [done|intros; lia|lia|done].
Qed.

Lemma stat_set_stat (k key : string) (n : Z) (b : bot) :
  stat k (set_stat key n b) = if decide (k = key) then n else stat k b.
Proof.
  unfold stat, set_stat. cbn [stats]. destruct (decide (k = key)) as [->|Hne].
  - by rewrite lookup_insert_eq.
  - by rewrite lookup_insert_ne.
Qed.

Lemma respects_ret {A} (a : A) : respects (ret a).
Proof. intros s. apply bot_step_refl. Qed.

Lemma respects_raise {A} (e : exn) : respects (@raise A e).
Proof. intros s. apply bot_step_refl. Qed.

Lemma respects_bind {A B} (m : M A) (k : A -> M B) :
  respects m -> (forall a, respects (k a)) -> respects (bind m k).
Proof.
  intros Hm Hk s. unfold bind. specialize (Hm s).
  destruct (m s) as [[e|a] s']; [done|].
  eapply bot_step_trans; [exact Hm|apply Hk].
Qed.

Lemma respects_try_except (m : M unit) (handler : exn -> M unit) :
  respects m -> (forall e, respects (handler e)) -> respects (try_except m handler).
Proof.
  intros Hm Hh s. unfold try_except. specialize (Hm s).
  destruct (m s) as [[e|a] s']; [|done].
  eapply bot_step_trans; [exact Hm|apply Hh].
Qed.

Lemma respects_modify_order (f : order -> order) : respects (modify_order f).
Proof. intros s. apply bot_step_refl. Qed.

Lemma respects_set_field (key : string) (v : value) : respects (set_field key v).
Proof. apply respects_modify_order. Qed.

Lemma respects_set_result (r : bool) : respects (set_result r).
Proof. intros s. apply bot_step_refl. Qed.

Lemma respects_order_id : respects order_id.
Proof. intros s. unfold order_id. destruct (_ !! _); apply bot_step_refl. Qed.

Lemma respects_save_order (w : write_outcome) : respects (save_order w).
Proof.
  intros s. unfold save_order.
  destruct (Main.save_order_data _ _ _) as [[ok o] file]. by apply bot_step_same.
Qed.

Lemma respects_save_order_to_txt (w : option exn) : respects (save_order_to_txt w).
Proof.
  intros s. unfold save_order_to_txt. destruct w; [apply bot_step_refl|].
  cbn [snd the_bot]. unfold bot_step, stat, recorded. cbn [stats sched status_files].
  split_and!; [done|intros; lia|lia|by apply prefix_app_r].
Qed.

(** A counter other than ["success"] is incremented. *)
Lemma respects_bump (key : string) :
  key ∈ outcome_counters -> key <> "success" -> respects (bump key).
Proof.
  intros Hin Hne s. cbn [bump modify_bot snd the_bot]. unfold bump_stat.
  split_and!.
  - intros k Hk. cbn [set_stat stats]. apply lookup_insert_ne. by intros ->.
  - intros k. rewrite stat_set_stat. destruct (decide (k = key)) as [->|]; lia.
  - rewrite stat_set_stat. rewrite decide_False by done. unfold recorded.
    cbn [set_stat sched]. lia.
  - done.
Qed.

(** [self.stats['success'] += 1] is followed at once by
    [self.scheduler.update_success], which records the timestamp in
    memory before it writes the file. *)
Lemma respects_bump_success {B} (now : datetime) (w : option exn) (k : M B) :
  respects k ->
  respects (bind (bump "success") (fun _ => bind (scheduler_update now w) (fun _ => k))).
Proof.
  intros Hk s.
  assert (Hboth : bot_step (the_bot s)
            (the_bot (scheduler_update now w
                        (mk_proc (bump_stat "success" (the_bot s)) (the_order s)
                           (result s))).2)).
  { unfold scheduler_update. cbn [the_bot the_order result].
    assert (Hdata : forall sch,
              length (timestamps (data (update_success now w sch).2))
              = S (length (timestamps (data sch)))).
    { intros sch. destruct w; cbn; rewrite length_app; simpl; lia. }
    specialize (Hdata (sched (bump_stat "success" (the_bot s)))).
    destruct (update_success now w _) as [err sch] eqn:Hup. cbn [snd] in Hdata.
    assert (Hstep : bot_step (the_bot s)
              (mk_bot (stats (bump_stat "success" (the_bot s))) sch
                 (orders_json (bump_stat "success" (the_bot s)))
                 (status_files (bump_stat "success" (the_bot s))))).
    { unfold bot_step, recorded, bump_stat in *.
      cbn [set_stat stats sched status_files] in *. split_and!.
      - intros k' Hk'. apply lookup_insert_ne. intros <-. apply Hk'.
        apply list_elem_of_here.
      - intros k'. unfold stat at 2. cbn [stats].
        destruct (decide (k' = "success")) as [->|Hne].
        + rewrite lookup_insert_eq. simpl. lia.
        + rewrite lookup_insert_ne by done. unfold stat. lia.
      - unfold stat at 1. cbn [stats]. rewrite lookup_insert_eq. simpl.
        rewrite Hdata. lia.
      - done. }
    by destruct err. }
  unfold bind at 1. cbn [bump modify_bot]. unfold bind.
  destruct (scheduler_update now w _) as [[e|a] s']; [done|].
  eapply bot_step_trans; [exact Hboth|apply Hk].
Qed.

Lemma respects_attempt (e : attempt_env) : respects (attempt e).
Proof.
  assert (Hnot : "adjustment_not_available" ∈ outcome_counters)
    by (unfold outcome_counters; rewrite !elem_of_cons; auto).
  assert (Hfail : "failures" ∈ outcome_counters)
    by (unfold outcome_counters; rewrite !elem_of_cons; auto).
  unfold attempt, attempt_body, on_exception.
  apply respects_try_except; [|intros err].
  - apply respects_bind; [apply respects_modify_order|intros _].
    apply respects_bind; [apply respects_order_id|intros id].
    destruct (negb (details_page e)); [apply respects_ret|].
    apply respects_bind; [destruct (tracking e); [apply respects_raise|apply respects_ret]|].
    intros info.
    repeat (apply respects_bind; [apply respects_set_field|intros _]).
    cbv zeta.
    apply respects_bind;
      [destruct (attempt_price_adjustment _).2; [apply respects_set_field|apply respects_ret]|].
    intros _.
    apply respects_bind.
    + destruct (attempt_price_adjustment _).1 as [[|]|].
      * apply respects_bump_success.
        repeat (apply respects_bind; [apply respects_set_field|intros _]).
        apply respects_set_result.
      * apply respects_bind; [by apply respects_bump|intros _].
        apply respects_bind; [apply respects_set_field|intros _].
        apply respects_set_result.
      * apply respects_bind; [by apply respects_bump|intros _].
        apply respects_bind; [apply respects_set_field|intros _].
        apply respects_set_field.
    + intros _. apply respects_bind; [apply respects_set_field|intros _].
      apply respects_bind; [apply respects_save_order|intros _].
      apply respects_save_order_to_txt.
  - apply respects_bind; [by apply respects_bump|intros _].
    apply respects_bind; [apply respects_order_id|intros _].
    apply respects_bind; [apply respects_set_field|intros _].
    apply respects_set_field.
Qed.

Lemma while_attempts_step (env : Z -> attempt_env) (fuel : nat) :
  forall (s s' : proc) (r : exn + unit),
    while_attempts fuel env s = Some (r, s') -> bot_step (the_bot s) (the_bot s').
Proof.
  induction fuel as [|fuel IH]; intros s s' r; rewrite while_attempts_unfold;
    destruct (_ && _); try discriminate;
    try (intros [= <- <-]; apply bot_step_refl).
  pose proof (respects_attempt (env (attempts_of (the_order s) + 1)) s) as Hone.
  destruct (attempt _ s) as [[e|a] s1]; cbn [snd] in Hone.
  - by intros [= <- <-].
  - intros Hrest. eapply bot_step_trans; [exact Hone|by eapply IH].
Qed.

(** Whatever the attempts of [process_order] meet: of the statistics only
    [success], [adjustment_not_available] and [failures] can change (so
    [adjustment_available] is never counted), no counter decreases, and
    the number of counted successes grows by the number of timestamps
    the scheduler recorded. *)
Theorem process_order_statistics (env : Z -> attempt_env) (b b' : bot)
    (o o' : order) (r : exn + bool) :
  process_order env b o = Some (r, b', o') ->
  (forall k, k ∉ outcome_counters -> stats b' !! k = stats b !! k)
  /\ stat "adjustment_available" b' = stat "adjustment_available" b
  /\ (forall k, stat k b <= stat k b')
  /\ stat "success" b' - stat "success" b = recorded b' - recorded b.
Proof.
  unfold process_order. intros Hrun.
  assert (Hstep : bot_step b b').
  { destruct (while_attempts _ env _) as [[[e|u] s']|] eqn:Hloop; [| |done];
      injection Hrun as <- <- <-;
      by apply (while_attempts_step _ _ _ _ _ Hloop). }
  destruct Hstep as (Hframe & Hmono & Hsucc & Hfiles).
  split_and!; try done.
  unfold stat. rewrite Hframe; [done|]. unfold outcome_counters.
  rewrite !not_elem_of_cons. split_and!; try done. apply not_elem_of_nil.
Qed.

Lemma process_order_statistics_witness :
  match process_order (fun _ => confirmed_attempt None) sample_bot sample_order with
  | Some (_, b', _) =>
      stat "adjustment_available" b' = stat "adjustment_available" sample_bot
      /\ stat "success" b' - stat "success" sample_bot
         = recorded b' - recorded sample_bot
  | None => False
  end.
Proof.
  destruct (process_order (fun _ => confirmed_attempt None) sample_bot sample_order)
    as [[[r b'] o']|] eqn:Hrun.
  - destruct (process_order_statistics _ _ _ _ _ _ Hrun)
      as (_ & Havail & _ & Hsucc).
    split; [exact Havail|exact Hsucc].
  - revert Hrun. apply run_not_none. vm_compute. reflexivity.
Defined.

(** ** Statistics and store of a batch *)

Lemma stat_bump_stat (k key : string) (b : bot) :
  stat k (bump_stat key b) = stat k b + (if decide (k = key) then 1 else 0).
Proof.
  unfold bump_stat. rewrite stat_set_stat. destruct (decide (k = key)) as [->|]; lia.
Qed.

Lemma process_order_step (env : Z -> attempt_env) (b b' : bot) (o o' : order)
    (r : exn + bool) :
  process_order env b o = Some (r, b', o') -> bot_step b b'.
Proof.
  unfold process_order. intros Hrun.
  destruct (while_attempts _ env _) as [[[e|u] s']|] eqn:Hloop; [| |done];
    injection Hrun as <- <- <-;
    by apply (while_attempts_step _ _ _ _ _ Hloop).
Qed.

Lemma processed_not_outcome : "processed" ∉ outcome_counters.
Proof.
  unfold outcome_counters. rewrite !not_elem_of_cons.
  split_and!; try done. apply not_elem_of_nil.
Qed.

Lemma process_each_statistics (env : run_env) (todo : list order) :
  forall i b r b' trace,
    process_each i todo env b = Some (r, b', trace) ->
    (forall k, k <> "processed" -> k ∉ outcome_counters ->
               stats b' !! k = stats b !! k)
    /\ Z.of_nat (length trace) <= stat "processed" b' - stat "processed" b
       <= Z.of_nat (length trace) + 1
    /\ (r = inr tt ->
        stat "processed" b' = stat "processed" b + Z.of_nat (length trace))
    /\ stat "success" b' - stat "success" b = recorded b' - recorded b.
Proof.
  induction todo as [|o rest IH]; intros i b r b' trace Hrun; cbn [process_each] in Hrun.
  { injection Hrun as <- <- <-. simpl. split_and!; try done; lia. }
  assert (Hbump : forall k, k <> "processed" ->
            stats (bump_stat "processed" b) !! k = stats b !! k).
  { intros k Hk. cbn [bump_stat set_stat stats]. by apply lookup_insert_ne. }
  assert (Hproc : stat "processed" (bump_stat "processed" b) = stat "processed" b + 1).
  { rewrite stat_bump_stat. by rewrite decide_True. }
  assert (Hsucc : stat "success" (bump_stat "processed" b) = stat "success" b
                  /\ recorded (bump_stat "processed" b) = recorded b).
  { rewrite stat_bump_stat. rewrite decide_False by done. split; [lia|done]. }
  destruct Hsucc as [Hsucc Hrec].
  destruct (log_order o).
  { injection Hrun as <- <- <-. rewrite Hproc, Hsucc, Hrec. simpl.
    split_and!; try done; try lia. intros k Hk _. by apply Hbump. }
  destruct (process_order _ _ o) as [[[[e|ok] b2] o']|] eqn:Hone; [| |done];
    apply process_order_step in Hone as (Hframe & _ & Hcoupled & _);
    pose proof (Hframe "processed" processed_not_outcome) as Hsame;
    assert (Hp2 : stat "processed" b2 = stat "processed" b + 1)
      by (unfold stat in *; rewrite Hsame; exact Hproc).
  - injection Hrun as <- <- <-. simpl. split_and!; try done; try lia.
    intros k Hk Hout. by rewrite Hframe, Hbump.
  - destruct (process_each (S i) rest env b2) as [[[r3 b3] trace3]|] eqn:Hrest;
      [|done].
    injection Hrun as <- <- <-.
    destruct (IH _ _ _ _ _ Hrest) as (Hframe3 & Hbounds & Hexact & Hcoupled3).
    cbn [length]. split_and!; try lia.
    + intros k Hk Hout. by rewrite Hframe3, Hframe, Hbump.
    + intros Hr. specialize (Hexact Hr). lia.
Qed.

(** The counters of a run: [total_orders] and [valid_orders] are the
    numbers of listed and of valid orders, [processed] grows by the
    number of orders handed to [process_order] (by one more only when
    the loop stops on an order it could not log), [adjustment_available]
    never moves, and the successes counted are the timestamps recorded
    by the scheduler. A run that finds no orders changes nothing. *)
Theorem process_orders_statistics (env : run_env) (b b' : bot) (ok : bool)
    (trace : list (order * order * bool)) (valid : list order) :
  valid_orders (listed env) = inr valid ->
  process_orders env b = Some (ok, b', trace) ->
  (listed env = [] -> b' = b /\ ok = true)
  /\ (listed env <> [] ->
      stats b' !! "total_orders" = Some (Z.of_nat (length (listed env)))
      /\ stats b' !! "valid_orders" = Some (Z.of_nat (length valid)))
  /\ Z.of_nat (length trace) <= stat "processed" b' - stat "processed" b
     <= Z.of_nat (length trace) + 1
  /\ (ok = true ->
      stat "processed" b' = stat "processed" b + Z.of_nat (length trace))
  /\ stat "adjustment_available" b' = stat "adjustment_available" b
  /\ stat "success" b' - stat "success" b = recorded b' - recorded b.
Proof.
  intros Hvalid. unfold process_orders.
  destruct (listed env) as [|o rest] eqn:Hlisted.
  { intros [= <- <- <-]. simpl. split_and!; try done; lia. }
  rewrite Hvalid. cbv zeta.
  set (b1 := set_stat "total_orders" (Z.of_nat (length (o :: rest))) b).
  set (b2 := set_stat "valid_orders" (Z.of_nat (length valid)) b1).
  destruct (process_each 0 _ env b2) as [[[r b3] trace3]|] eqn:Heach; [|done].
  destruct (process_each_statistics _ _ _ _ _ _ _ Heach)
    as (Hframe & Hbounds & Hexact & Hcoupled).
  assert (Hnot : forall k, k ∈ ["total_orders"; "valid_orders"; "adjustment_available"] ->
            k <> "processed" /\ k ∉ outcome_counters).
  { intros k Hk. unfold outcome_counters. rewrite !not_elem_of_cons.
    rewrite !elem_of_cons, elem_of_nil in Hk.
    destruct Hk as [->|[->|[->|[]]]]; split_and!; try done; apply not_elem_of_nil. }
  assert (Hstat : forall k, k <> "total_orders" -> k <> "valid_orders" ->
            stat k b2 = stat k b).
  { intros k H1 H2. unfold b2, b1. rewrite !stat_set_stat.
    by rewrite !decide_False by done. }
  assert (Hres : b' = b3 -> trace = trace3 -> (ok = true -> r = inr tt) ->
    (o :: rest = [] -> b' = b /\ ok = true)
    /\ (o :: rest <> [] ->
        stats b' !! "total_orders" = Some (Z.of_nat (length (o :: rest)))
        /\ stats b' !! "valid_orders" = Some (Z.of_nat (length valid)))
    /\ Z.of_nat (length trace) <= stat "processed" b' - stat "processed" b
       <= Z.of_nat (length trace) + 1
    /\ (ok = true ->
        stat "processed" b' = stat "processed" b + Z.of_nat (length trace))
    /\ stat "adjustment_available" b' = stat "adjustment_available" b
    /\ stat "success" b' - stat "success" b = recorded b' - recorded b).
  { intros -> -> Hok. split; [done|]. split; [|split; [|split; [|split]]].
    - intros _. rewrite !Hframe by (apply Hnot; rewrite !elem_of_cons; auto).
      unfold b2, b1. cbn [set_stat stats].
      rewrite lookup_insert_ne by done. by rewrite !lookup_insert_eq.
    - rewrite <- (Hstat "processed") by done. lia.
    - intros Hr. rewrite <- (Hstat "processed") by done. by apply Hexact, Hok.
    - rewrite <- (Hstat "adjustment_available") by done. unfold stat.
      by rewrite Hframe by (apply Hnot; rewrite !elem_of_cons; auto).
    - rewrite <- (Hstat "success") by done. rewrite Hcoupled. done. }
  destruct r as [e|[]]; intros [= <- <- <-]; by apply Hres.
Qed.

Lemma process_orders_statistics_witness :
  match process_orders sample_run sample_bot with
  | Some (ok, b', trace) =>
      stats b' !! "total_orders" = Some 13
      /\ stats b' !! "valid_orders" = Some 12
      /\ stat "processed" b' = 10
      /\ stat "adjustment_available" b' = 0
  | None => False
  end.
Proof.
  assert (Hvalid : valid_orders (listed sample_run) = inr (drop 1 thirteen_orders))
    by vm_cast_no_check (eq_refl (inr (drop 1 thirteen_orders) : exn + list order)).
  destruct (process_orders sample_run sample_bot) as [[[ok b'] trace]|] eqn:Hrun.
  - destruct (process_orders_statistics _ _ _ _ _ _ Hvalid Hrun)
      as (_ & Hcounts & _ & Hprocessed & Havail & _).
    destruct Hcounts as [Htotal Hvalids]; [discriminate|].
    assert (Hok : ok = true /\ length trace = 10%nat).
    { assert (Heval : (fun r => (r.1.1, length r.2))
                      <$> process_orders sample_run sample_bot = Some (true, 10%nat))
        by (vm_compute; reflexivity).
      rewrite Hrun in Heval. injection Heval as Hok Hlen.
      split; [exact Hok|exact Hlen]. }
    destruct Hok as [-> Hlen]. rewrite Hlen in Hprocessed.
    split; [exact Htotal|]. split; [exact Hvalids|].
    split; [exact (Hprocessed eq_refl)|exact Havail].
  - revert Hrun. apply run_not_none. vm_compute. reflexivity.
Defined.

Lemma consistent_bot_stats (b : bot) (key : string) (n : Z) :
  consistent_bot b -> consistent_bot (set_stat key n b).
Proof. done. Qed.

Lemma process_each_consistent (env : run_env) (todo : list order) :
  Forall has_plain_id todo ->
  forall i b r b' trace,
    process_each i todo env b = Some (r, b', trace) ->
    consistent_bot b -> consistent_bot b'.
Proof.
  induction 1 as [|o rest (id & Hid & Hel) _ IH]; intros i b r b' trace Hrun Hb;
    cbn [process_each] in Hrun.
  { by injection Hrun as <- <- <-. }
  destruct (log_order o); [by injection Hrun as <- <- <-|].
  destruct (process_order_spec (attempt_envs env i) (bump_stat "processed" b) o id
              Hid Hel) as (b2 & o' & n & Hone & _ & _ & _ & _ & Hcons & _).
  rewrite Hone in Hrun.
  destruct (process_each (S i) rest env b2) as [[[r3 b3] trace3]|] eqn:Hrest;
    [|done].
  injection Hrun as <- <- <-. eapply IH; [done|]. apply Hcons.
  by apply consistent_bot_stats.
Qed.

(** A run keeps orders.json and the status files consistent: if every
    stored record and every status file with [adjustment_success] true
    has the status ["success"] before the run, so it is after it,
    whatever the attempts meet. *)
Theorem process_orders_store_consistent (env : run_env) (b b' : bot) (ok : bool)
    (trace : list (order * order * bool)) (valid : list order) :
  valid_orders (listed env) = inr valid ->
  Forall has_plain_id valid ->
  process_orders env b = Some (ok, b', trace) ->
  consistent_bot b -> consistent_bot b'.
Proof.
  intros Hvalid Hids. unfold process_orders.
  destruct (listed env) as [|o rest] eqn:Hlisted; [by intros [= <- <- <-]|].
  rewrite Hvalid. cbv zeta.
  destruct (process_each 0 _ env _) as [[[r b3] trace3]|] eqn:Heach; [|done].
  intros Hrun Hb.
  assert (b' = b3) as -> by (destruct r; congruence).
  eapply process_each_consistent; [|exact Heach|].
  - by apply Forall_take.
  - by do 2 apply consistent_bot_stats.
Qed.

Lemma process_orders_store_consistent_witness :
  match process_orders sample_run sample_bot with
  | Some (ok, b', trace) => consistent_bot b'
  | None => False
  end.
Proof.
  assert (Hvalid : valid_orders (listed sample_run) = inr (drop 1 thirteen_orders))
    by vm_cast_no_check (eq_refl (inr (drop 1 thirteen_orders) : exn + list order)).
  assert (Hids : Forall has_plain_id (drop 1 thirteen_orders)).
  { repeat (apply Forall_cons_2; [eexists; split; vm_compute; reflexivity|]).
    apply Forall_nil_2. }
  destruct (process_orders sample_run sample_bot) as [[[ok b'] trace]|] eqn:Hrun.
  - apply (process_orders_store_consistent _ _ _ _ _ _ Hvalid Hids Hrun).
    split; constructor.
  - revert Hrun. apply run_not_none. vm_compute. reflexivity.
Defined.

(** ** At most one write per order *)

Section Preserves.

Context (P : proc -> Prop).

Lemma preserves_ret {A} (a : A) : preserves P (ret a).
Proof. by intros s. Qed.

Lemma preserves_raise {A} (e : exn) : preserves P (@raise A e).
Proof. by intros s. Qed.

Lemma preserves_bind {A B} (m : M A) (k : A -> M B) :
  preserves P m -> (forall a, preserves P (k a)) -> preserves P (bind m k).
Proof.
  intros Hm Hk s Hs. unfold bind. specialize (Hm s Hs).
  destruct (m s) as [[e|a] s']; [done|]. by apply Hk.
Qed.

Lemma preserves_try_except (m : M unit) (handler : exn -> M unit) :
  preserves P m -> (forall e, preserves P (handler e)) ->
  preserves P (try_except m handler).
Proof.
  intros Hm Hh s Hs. unfold try_except. specialize (Hm s Hs).
  destruct (m s) as [[e|a] s']; [by apply Hh|done].
Qed.

End Preserves.

Lemma attempts_of_insert_ne (key : string) (v : value) (o : order) :
  key <> "attempts" -> attempts_of (<[key := v]> o) = attempts_of o.
Proof. intros. unfold attempts_of. by rewrite lookup_insert_ne. Qed.

Lemma attempts_of_drop_elements (o : order) :
  attempts_of (drop_elements o) = attempts_of o.
Proof.
  unfold attempts_of.
  destruct (o !! "attempts") as [v|] eqn:Hv.
  - destruct (is_element v) eqn:Hel.
    + destruct (drop_elements o !! "attempts") as [v'|] eqn:Hv'.
      * apply drop_elements_lookup in Hv' as (? & _ & ?). by simplify_eq.
      * by destruct v.
    + by rewrite (drop_elements_keeps o "attempts" v).
  - destruct (drop_elements o !! "attempts") as [v'|] eqn:Hv'; [|done].
    apply drop_elements_lookup in Hv' as (? & _). congruence.
Qed.

Lemma date_serialised_insert (key : string) (v : value) (o : order) :
  key <> "date_obj" -> date_serialised o -> date_serialised (<[key := v]> o).
Proof. intros Hk (iso & Hd & Hne). exists iso. by rewrite lookup_insert_ne. Qed.

Section SavedOnce.

Context (d : datetime) (file : orders_file).

(** A step that changes neither the date, nor the counter of attempts
    downwards, nor the file. *)
Lemma saved_once_step (s s' : proc) :
  the_order s' !! "date_obj" = the_order s !! "date_obj" ->
  attempts_of (the_order s) <= attempts_of (the_order s') ->
  orders_json (the_bot s') = orders_json (the_bot s) ->
  saved_once d file s -> saved_once d file s'.
Proof.
  intros Hdate Hatt Hfile [[Hd Hf]|[(iso & Hd & Hne) (w & from & ? & ? & Hf)]].
  - left. by rewrite Hdate, Hfile.
  - right. split; [exists iso; by rewrite Hdate|].
    exists w, from. rewrite Hfile. split_and!; try done. lia.
Qed.

Lemma saved_once_set_field (key : string) (v : value) :
  key <> "date_obj" -> key <> "attempts" ->
  preserves (saved_once d file) (set_field key v).
Proof.
  intros Hk Ha s. apply saved_once_step; cbn.
  - by rewrite lookup_insert_ne.
  - by rewrite attempts_of_insert_ne.
  - done.
Qed.

Lemma saved_once_count_attempt :
  preserves (saved_once d file)
    (modify_order (fun o => <["attempts" := VInt (attempts_of o + 1)]> o)).
Proof.
  intros s. apply saved_once_step; cbn.
  - by rewrite lookup_insert_ne.
  - rewrite attempts_of_set. lia.
  - done.
Qed.

Lemma saved_once_same_order {A} (m : M A) :
  (forall s, the_order (m s).2 = the_order s
             /\ orders_json (the_bot (m s).2) = orders_json (the_bot s)) ->
  preserves (saved_once d file) m.
Proof.
  intros Hm s. destruct (Hm s) as [Ho Hf].
  apply saved_once_step; rewrite ?Ho; [done|lia|done].
Qed.

(** The one step that writes the file: the first call converts the
    date and writes, every later call fails on the converted date. *)
Lemma saved_once_save_order (w : write_outcome) :
  preserves (saved_once d file) (save_order w).
Proof.
  intros s [[Hd Hf]|[(iso & Hd & Hne) (w' & from & Hfrom & Hatt & Hf)]];
    unfold save_order.
  - pose proof (main_save_order_data_dict w (orders_json (the_bot s)) _ _ Hd)
      as Hdict.
    destruct (Main.save_order_data w (orders_json (the_bot s)) (the_order s))
      as [[ok o'] file'] eqn:Hsave.
    right. cbn [snd the_order the_bot orders_json fst] in *. subst o'. split.
    + exists (isoformat d). split; [by rewrite lookup_insert_eq|].
      apply isoformat_nonempty.
    + exists w, (the_order s). rewrite <- Hf, Hsave.
      rewrite attempts_of_insert_ne, attempts_of_drop_elements by done.
      split_and!; try done; lia.
  - rewrite (main_save_order_data_serialised w _ _ iso Hd Hne). right. cbn [snd the_order the_bot orders_json]. split.
    + exists iso. split; [by apply drop_elements_keeps|done].
    + exists w', from. rewrite attempts_of_drop_elements. by split_and!.
Qed.

Lemma saved_once_attempt (e : attempt_env) :
  preserves (saved_once d file) (attempt e).
Proof.
  assert (Hbump : forall key, preserves (saved_once d file) (bump key)).
  { intros key. by apply saved_once_same_order. }
  assert (Hid : preserves (saved_once d file) order_id).
  { apply saved_once_same_order. intros s. unfold order_id. by destruct (_ !! _). }
  unfold attempt, attempt_body, on_exception.
  apply preserves_try_except; [|intros err].
  - apply preserves_bind; [apply saved_once_count_attempt|intros _].
    apply preserves_bind; [apply Hid|intros id].
    destruct (negb (details_page e)); [apply preserves_ret|].
    apply preserves_bind;
      [destruct (tracking e); [apply preserves_raise|apply preserves_ret]|].
    intros info.
    repeat (apply preserves_bind; [by apply saved_once_set_field|intros _]).
    cbv zeta.
    apply preserves_bind;
      [destruct (attempt_price_adjustment _).2;
         [by apply saved_once_set_field|apply preserves_ret]|].
    intros _.
    apply preserves_bind.
    + destruct (attempt_price_adjustment _).1 as [[|]|].
      * apply preserves_bind; [apply Hbump|intros _].
        apply preserves_bind.
        { apply saved_once_same_order. intros s. unfold scheduler_update.
          destruct (update_success _ _ _) as [[err|] sch]; done. }
        intros _.
        repeat (apply preserves_bind; [by apply saved_once_set_field|intros _]).
        by apply saved_once_same_order.
      * apply preserves_bind; [apply Hbump|intros _].
        apply preserves_bind; [by apply saved_once_set_field|intros _].
        by apply saved_once_same_order.
      * apply preserves_bind; [apply Hbump|intros _].
        apply preserves_bind; [by apply saved_once_set_field|intros _].
        by apply saved_once_set_field.
    + intros _. apply preserves_bind; [by apply saved_once_set_field|intros _].
      apply preserves_bind; [apply saved_once_save_order|intros _].
      apply saved_once_same_order. intros s. unfold save_order_to_txt.
      by destruct (status_write e).
  - apply preserves_bind; [apply Hbump|intros _].
    apply preserves_bind; [apply Hid|intros _].
    apply preserves_bind; [by apply saved_once_set_field|intros _].
    by apply saved_once_set_field.
Qed.

Lemma saved_once_while (env : Z -> attempt_env) (fuel : nat) :
  forall (s s' : proc) (r : exn + unit),
    while_attempts fuel env s = Some (r, s') ->
    saved_once d file s -> saved_once d file s'.
Proof.
  induction fuel as [|fuel IH]; intros s s' r; rewrite while_attempts_unfold;
    destruct (_ && _); try discriminate; try (by intros [= <- <-]).
  pose proof (saved_once_attempt (env (attempts_of (the_order s) + 1)) s) as Hone.
  destruct (attempt _ s) as [[e|a] s1]; cbn [snd] in Hone.
  - intros [= <- <-]. exact Hone.
  - intros Hrest Hs. eapply IH; [exact Hrest|by apply Hone].
Qed.

End SavedOnce.

(** [process_order] changes orders.json at most once for an order that
    carries a datetime, however many attempts it makes: the first call
    of [save_order_data] leaves the date as a string in the dict, and
    every later call fails on it. The file holds what that first call
    wrote, from the dict as it was then, not the outcome of the last
    attempt. *)
Theorem process_order_saves_once (env : Z -> attempt_env) (b b' : bot)
    (o o' : order) (d : datetime) (r : exn + bool) :
  o !! "date_obj" = Some (VDatetime d) ->
  process_order env b o = Some (r, b', o') ->
  (o' !! "date_obj" = Some (VDatetime d) /\ orders_json b' = orders_json b)
  \/ (date_serialised o'
      /\ exists w saved_from,
           saved_from !! "date_obj" = Some (VDatetime d)
           /\ attempts_of saved_from <= attempts_of o'
           /\ orders_json b' = (Main.save_order_data w (orders_json b) saved_from).2).
Proof.
  intros Hd. unfold process_order.
  destruct (while_attempts _ env _) as [[res s']|] eqn:Hloop; [|done].
  assert (Hinv : saved_once d (orders_json b) s').
  { apply (saved_once_while d (orders_json b) _ _ _ _ _ Hloop).
    left. cbn. split; [by rewrite lookup_insert_ne|done]. }
  by destruct res; intros [= <- <- <-].
Qed.

Lemma process_order_saves_once_witness :
  match retried_order with
  | Some (_, b', o') =>
      (o' !! "date_obj" = Some (VDatetime sample_date)
       /\ orders_json b' = orders_json sample_bot)
      \/ (date_serialised o'
          /\ exists w saved_from,
               saved_from !! "date_obj" = Some (VDatetime sample_date)
               /\ attempts_of saved_from <= attempts_of o'
               /\ orders_json b'
                  = (Main.save_order_data w (orders_json sample_bot) saved_from).2)
  | None => False
  end.
Proof.
  destruct retried_order as [[[r b'] o']|] eqn:Hrun.
  - unfold retried_order in Hrun.
    exact (process_order_saves_once _ _ _ _ _ sample_date _
             (eq_refl : sample_order !! "date_obj" = Some (VDatetime sample_date))
             Hrun).
  - revert Hrun. apply run_not_none. vm_compute. reflexivity.
Defined.

(** The second attempt of an order succeeds after a first one that
    failed: the call returns [True] and the dict says ["success"], and
    orders.json keeps the record of the first attempt. *)
Example process_order_stale_store :
  (fun r => r.1.1) <$> retried_order = Some (inr true)
  /\ (fun r => (attempts_of r.2, r.2 !! "adjustment_status")) <$> retried_order
     = Some (2, Some (VStr "success"))
  /\ (fun r => (fun saved => (saved !! "attempts", saved !! "adjustment_status"))
               <$> load_orders (orders_json r.1.2)) <$> retried_order
     = Some [(Some (VInt 1), Some (VStr "failed"))].
Proof. split_and!; vm_compute; reflexivity. Qed.

(** ** How much a match consumes *)

Section Lengths.

Variable ic : bool.

Lemma class_runs_le (f : Z -> bool) (hi : nat) (s rest : text) (k : nat) :
  (k, rest) ∈ class_runs f hi s -> (k <= hi)%nat.
Proof.
  revert s k. induction hi as [|hi IH]; intros s k Hin.
  - destruct s; simpl in Hin; apply list_elem_of_singleton in Hin;
      injection Hin as -> ->; lia.
  - destruct s as [|c s]; simpl in Hin.
    { apply list_elem_of_singleton in Hin. injection Hin as -> ->. lia. }
    destruct (f c).
    + apply elem_of_app in Hin as [Hin|Hin].
      * apply list_elem_of_In, in_map_iff in Hin as ([k' rest'] & [= <- <-] & Hin).
        apply list_elem_of_In, IH in Hin. simpl. lia.
      * apply list_elem_of_singleton in Hin. injection Hin as -> ->. lia.
    + apply list_elem_of_singleton in Hin. injection Hin as -> ->. lia.
Qed.

Lemma rx_match_lengths (r : regex) :
  forall s caps rest,
    (caps, rest) ∈ rx_match ic r s ->
    (min_len r + length rest <= length s)%nat
    /\ (forall n, max_len r = Some n -> (length s <= n + length rest)%nat).
Proof.
  induction r as [|p|cs lo hi|cs|r IH|r1 IH1 r2 IH2|r1 IH1 r2 IH2|name r IH];
    intros s caps rest Hin; cbn [rx_match] in Hin; cbn [min_len max_len].
  - apply list_elem_of_singleton in Hin. injection Hin as -> ->.
    split; [lia|]. intros n [= <-]. lia.
  - destruct (lit_match ic p s) as [rest'|] eqn:Hm; [|by apply not_elem_of_nil in Hin].
    apply list_elem_of_singleton in Hin. injection Hin as -> ->.
    apply lit_match_spec in Hm as (pre & -> & Hall).
    apply Forall2_length in Hall. rewrite length_app.
    split; [lia|]. intros n [= <-]. lia.
  - apply list_elem_of_In, in_map_iff in Hin as ([k rest'] & [= <- <-] & Hin).
    apply list_elem_of_In, list_elem_of_filter in Hin as [Hlo Hin]. cbn [fst] in Hlo.
    pose proof (class_runs_le _ _ _ _ _ Hin) as Hhi.
    apply class_runs_spec in Hin as (pre & -> & <- & _). rewrite length_app.
    cbn [snd]. split; [lia|]. intros n [= <-]. lia.
  - apply list_elem_of_In, in_map_iff in Hin as ([k rest'] & [= <- <-] & Hin).
    apply list_elem_of_In, list_elem_of_filter in Hin as [Hlo Hin]. cbn [fst] in Hlo.
    apply class_runs_spec in Hin as (pre & -> & <- & _). rewrite length_app.
    cbn [snd]. split; [lia|done].
  - apply elem_of_app in Hin as [Hin|Hin].
    + apply IH in Hin as [Hmin Hmax]. split; [lia|done].
    + apply list_elem_of_singleton in Hin. injection Hin as -> ->.
      split; [lia|]. intros; lia.
  - apply list_elem_of_bind in Hin as ([c1 mid] & Hin & H1).
    apply list_elem_of_bind in Hin as ([c2 rest2] & Hin & H2).
    apply list_elem_of_singleton in Hin. injection Hin as -> ->. cbn [snd] in *.
    apply IH1 in H1 as [Hmin1 Hmax1]. apply IH2 in H2 as [Hmin2 Hmax2].
    split; [lia|]. intros n Hn.
    destruct (max_len r1) as [a|]; [|done]. destruct (max_len r2) as [b|]; [|done].
    injection Hn as <-. specialize (Hmax1 a eq_refl). specialize (Hmax2 b eq_refl).
    lia.
  - apply elem_of_app in Hin as [Hin|Hin].
    + apply IH1 in Hin as [Hmin Hmax]. split; [lia|]. intros n Hn.
      destruct (max_len r1) as [a|]; [|done]. destruct (max_len r2) as [b|]; [|done].
      injection Hn as <-. specialize (Hmax a eq_refl). lia.
    + apply IH2 in Hin as [Hmin Hmax]. split; [lia|]. intros n Hn.
      destruct (max_len r1) as [a|]; [|done]. destruct (max_len r2) as [b|]; [|done].
      injection Hn as <-. specialize (Hmax b eq_refl). lia.
  - apply list_elem_of_In, in_map_iff in Hin as ([c1 rest1] & [= <- <-] & Hin).
    apply list_elem_of_In in Hin. by apply IH in Hin.
Qed.

Lemma re_search_max_len (r : regex) (s m : text) (n : nat) :
  re_search ic r s = Some m -> max_len r = Some n -> (length m <= n)%nat.
Proof.
  intros (before & caps & rest & _ & Hin)%re_search_spec Hn.
  apply rx_match_lengths in Hin as [_ Hmax]. specialize (Hmax n Hn).
  rewrite length_app in Hmax. lia.
Qed.

End Lengths.

(** What [strptime] returns was built by [datetime(year, month, day)]
    from a match of the whole text. *)
Lemma strptime_full_match (data fmt : text) (d : datetime) :
  strptime data fmt = Some d ->
  (exists rs caps, format_regex false fmt = Some rs
     /\ (caps, []) ∈ rx_match true (cat rs) data)
  /\ exists y m dd, make_date y m dd = Some d.
Proof.
  unfold strptime. destruct (format_regex false fmt) as [rs|]; [|done].
  cbn [mbind option_bind].
  unfold re_match. destruct (rx_match true (cat rs) data) as [|[caps rest] l] eqn:Hm;
    [done|]. cbn [head mbind option_bind fst snd].
  destruct (bool_decide (rest = [])) eqn:Hrest; [|done].
  apply bool_decide_eq_true in Hrest as ->. cbn [negb].
  intros Hd. split.
  - exists rs, caps. split; [done|]. rewrite Hm. left.
  - destruct (match group "b" caps with Some _ => _ | None => _ end) as [month|];
      [|done].
    cbn [mbind option_bind] in Hd. eauto.
Qed.

Lemma try_formats_some (data : text) (d : datetime) :
  try_formats data = Some d -> exists fmt, fmt ∈ formats /\ strptime data fmt = Some d.
Proof.
  unfold try_formats. intros Hhead.
  assert (Hin : d ∈ omap (strptime data) formats).
  { destruct (omap (strptime data) formats) as [|d' l]; [done|].
    injection Hhead as ->. left. }
  apply list_elem_of_omap in Hin as (fmt & Hfmt & Hd). eauto.
Qed.

(** Every format needs at least eight characters. *)
Lemma try_formats_short (data : text) : (length data < 8)%nat -> try_formats data = None.
Proof.
  intros Hshort. destruct (try_formats data) as [d|] eqn:Hd; [|done].
  apply try_formats_some in Hd as (fmt & Hfmt & Hd).
  apply strptime_full_match in Hd as [(rs & caps & Hrs & Hin) _].
  apply rx_match_lengths in Hin as [Hmin _].
  unfold formats in Hfmt. cbn [map] in Hfmt.
  assert (Hlong : (8 <= min_len (cat rs))%nat); [|lia].
  repeat (apply elem_of_cons in Hfmt as [->|Hfmt];
          [vm_compute in Hrs; injection Hrs as <-; vm_compute; lia|]).
  by apply not_elem_of_nil in Hfmt.
Qed.

Lemma remove_char_length (c : Z) (s : text) : (length (remove_char c s) <= length s)%nat.
Proof. apply length_filter. Qed.


(** ** Matching inside a longer text *)

Section Extension.

Variable ic : bool.

Lemma lit_match_extend (p s rest post : text) :
  lit_match ic p s = Some rest -> lit_match ic p (s ++ post) = Some (rest ++ post).
Proof.
  revert s. induction p as [|a p IH]; intros s; cbn [lit_match].
  - by intros [= ->].
  - destruct s as [|c s]; [done|]. cbn [app].
    destruct (char_matches ic a c); [apply IH|done].
Qed.

Lemma class_runs_empty (f : Z -> bool) (hi : nat) (s : text) :
  (O, s) ∈ class_runs f hi s.
Proof.
  destruct hi as [|hi], s as [|c s]; cbn [class_runs]; try apply list_elem_of_here.
  destruct (f c); [|apply list_elem_of_here].
  apply elem_of_app. right. apply list_elem_of_here.
Qed.

Lemma class_runs_extend (f : Z -> bool) (hi hi' : nat) (s rest post : text) (k : nat) :
  (k, rest) ∈ class_runs f hi s -> (hi <= hi')%nat ->
  (k, rest ++ post) ∈ class_runs f hi' (s ++ post).
Proof.
  revert hi' s k. induction hi as [|hi IH]; intros hi' s k Hin Hle.
  - assert ((k, rest) = (O, s)) as [= -> ->].
    { destruct s; cbn [class_runs] in Hin; by apply list_elem_of_singleton in Hin. }
    apply class_runs_empty.
  - destruct s as [|c s]; cbn [class_runs] in Hin.
    { apply list_elem_of_singleton in Hin. injection Hin as -> ->.
      apply class_runs_empty. }
    destruct (f c) eqn:Hc.
    + apply elem_of_app in Hin as [Hin|Hin].
      * apply list_elem_of_In, in_map_iff in Hin as ([k' rest'] & [= <- <-] & Hin).
        apply list_elem_of_In in Hin.
        destruct hi' as [|hi']; [lia|]. cbn [app class_runs]. rewrite Hc.
        apply elem_of_app. left. apply list_elem_of_In, in_map_iff.
        exists (k', rest' ++ post). split; [done|].
        apply list_elem_of_In, IH; [done|lia].
      * apply list_elem_of_singleton in Hin. injection Hin as -> ->.
        apply class_runs_empty.
    + apply list_elem_of_singleton in Hin. injection Hin as -> ->.
      apply class_runs_empty.
Qed.

(** A way to match a text is a way to match the text with more after it. *)
Lemma rx_match_extend (r : regex) (post : text) :
  forall s caps rest,
    (caps, rest) ∈ rx_match ic r s ->
    exists caps', (caps', rest ++ post) ∈ rx_match ic r (s ++ post).
Proof.
  induction r as [|p|cs lo hi|cs|r IH|r1 IH1 r2 IH2|r1 IH1 r2 IH2|name r IH];
    intros s caps rest Hin; cbn [rx_match] in *.
  - apply list_elem_of_singleton in Hin. injection Hin as -> ->.
    exists []. apply list_elem_of_here.
  - destruct (lit_match ic p s) as [rest'|] eqn:Hm; [|by apply not_elem_of_nil in Hin].
    apply list_elem_of_singleton in Hin. injection Hin as -> ->.
    rewrite (lit_match_extend _ _ _ post Hm). exists []. apply list_elem_of_here.
  - apply list_elem_of_In, in_map_iff in Hin as ([k rest'] & [= <- <-] & Hin).
    apply list_elem_of_In, list_elem_of_filter in Hin as [Hlo Hin].
    exists []. apply list_elem_of_In, in_map_iff. exists (k, rest' ++ post).
    split; [done|]. apply list_elem_of_In, list_elem_of_filter. split; [done|].
    by apply (class_runs_extend _ hi hi).
  - apply list_elem_of_In, in_map_iff in Hin as ([k rest'] & [= <- <-] & Hin).
    apply list_elem_of_In, list_elem_of_filter in Hin as [Hlo Hin].
    exists []. apply list_elem_of_In, in_map_iff. exists (k, rest' ++ post).
    split; [done|]. apply list_elem_of_In, list_elem_of_filter. split; [done|].
    apply (class_runs_extend _ (length s)); [done|]. rewrite length_app. lia.
  - apply elem_of_app in Hin as [Hin|Hin].
    + apply IH in Hin as [caps' Hin]. exists caps'. apply elem_of_app. by left.
    + apply list_elem_of_singleton in Hin. injection Hin as -> ->.
      exists []. apply elem_of_app. right. apply list_elem_of_here.
  - apply list_elem_of_bind in Hin as ([c1 mid] & Hin & H1).
    apply list_elem_of_bind in Hin as ([c2 rest2] & Hin & H2).
    apply list_elem_of_singleton in Hin. injection Hin as -> ->. cbn [fst snd] in *.
    apply IH1 in H1 as [c1' H1]. apply IH2 in H2 as [c2' H2].
    exists (c1' ++ c2'). apply list_elem_of_bind. exists (c1', mid ++ post).
    split; [|done]. apply list_elem_of_bind. exists (c2', rest2 ++ post).
    split; [apply list_elem_of_here|done].
  - apply elem_of_app in Hin as [Hin|Hin].
    + apply IH1 in Hin as [caps' Hin]. exists caps'. apply elem_of_app. by left.
    + apply IH2 in Hin as [caps' Hin]. exists caps'. apply elem_of_app. by right.
  - apply list_elem_of_In, in_map_iff in Hin as ([c1 rest1] & [= <- <-] & Hin).
    apply list_elem_of_In, IH in Hin as [caps' Hin].
    eexists. apply list_elem_of_In, in_map_iff. exists (caps', rest1 ++ post).
    split; [done|]. by apply list_elem_of_In.
Qed.

Lemma re_search_found (r : regex) (s : text) :
  is_Some (re_search ic r s)
  <-> exists before t, s = before ++ t /\ rx_match ic r t <> [].
Proof.
  split.
  - intros [m (before & caps & rest & -> & Hin)%re_search_spec].
    exists before, (m ++ rest). split; [done|]. intros Hnil. rewrite Hnil in Hin.
    by apply not_elem_of_nil in Hin.
  - intros (before & t & -> & Hne).
    induction before as [|c before IH]; cbn [app].
    + destruct t as [|c t]; cbn [re_search]; unfold re_match;
        destruct (rx_match ic r _); done.
    + cbn [re_search]. destruct (re_match ic r (c :: before ++ t)); done.
Qed.

(** [re.search] finds the pattern in a text if it finds it in a part of
    the text. *)
Lemma re_search_extend (r : regex) (pre s post : text) :
  is_Some (re_search ic r s) -> is_Some (re_search ic r (pre ++ s ++ post)).
Proof.
  rewrite !re_search_found. intros (before & t & -> & Hne).
  exists (pre ++ before), (t ++ post). split; [by rewrite <- !app_assoc|].
  destruct (rx_match ic r t) as [|[caps rest] l] eqn:Hm; [done|].
  destruct (rx_match_extend r post t caps rest) as [caps' Hin]; [rewrite Hm; left|].
  intros Hnil. rewrite Hnil in Hin. by apply not_elem_of_nil in Hin.
Qed.

End Extension.

(** ** The parts of [str.split] *)

Lemma split_aux_head (sep : text) (s : text) :
  forall (skip : nat) (cur : text),
    exists a rest,
      split_aux sep skip cur s = (reverse cur ++ a) :: rest
      /\ exists post, drop skip s = a ++ post.
Proof.
  induction s as [|c s IH]; intros skip cur; cbn [split_aux].
  - exists [], []. rewrite app_nil_r. split; [done|]. exists []. by destruct skip.
  - destruct skip as [|skip].
    + destruct (is_prefix sep (c :: s)).
      * exists [], (split_aux sep (length sep - 1) [] s). rewrite app_nil_r.
        split; [done|]. by exists (c :: s).
      * destruct (IH O (c :: cur)) as (a & rest & -> & post & Hpost).
        exists (c :: a), rest. rewrite reverse_cons, <- app_assoc.
        split; [done|]. exists post. rewrite drop_0 in Hpost |- *.
        cbn [app]. by rewrite <- Hpost.
    + destruct (IH skip cur) as (a & rest & -> & post & Hpost).
      exists a, rest. split; [done|]. by exists post.
Qed.

(** Every part after the first is a piece of the text. *)
Lemma split_aux_parts (sep : text) (s : text) :
  forall (skip : nat) (cur : text) (i : nat) (part : text),
    split_aux sep skip cur s !! S i = Some part ->
    exists pre post, s = pre ++ part ++ post.
Proof.
  induction s as [|c s IH]; intros skip cur i part; cbn [split_aux]; [done|].
  assert (Hcons : forall pre post, s = pre ++ part ++ post ->
            exists pre' post', c :: s = pre' ++ part ++ post').
  { intros pre post ->. by exists (c :: pre), post. }
  destruct skip as [|skip].
  - destruct (is_prefix sep (c :: s)).
    + cbn [lookup list_lookup]. destruct i as [|i].
      * destruct (split_aux_head sep s (length sep - 1) [])
          as (a & rest & -> & post & Hpost).
        cbn. intros [= <-].
        apply (Hcons (take (length sep - 1) s) post).
        by rewrite <- Hpost, take_drop.
      * intros (pre & post & ?)%IH. by eapply Hcons.
    + intros (pre & post & ?)%IH. by eapply Hcons.
  - intros (pre & post & ?)%IH. by eapply Hcons.
Qed.

(** ** Dates without a readable year *)

Lemma try_patterns_needs_year (date_str : text) :
  (forall p, p ∈ year_patterns -> re_search false p date_str = None) ->
  try_patterns patterns date_str = None.
Proof.
  intros Hnone.
  assert (Hyear : forall i p, i ∈ [0; 1; 3]%nat -> patterns !! i = Some p ->
            re_search false p date_str = None).
  { intros i p Hi Hp. apply Hnone. unfold year_patterns.
    apply list_elem_of_omap. eauto. }
  unfold patterns in *. cbn [try_patterns].
  rewrite (Hyear 0%nat _ ltac:(rewrite !elem_of_cons; auto) eq_refl).
  rewrite (Hyear 1%nat _ ltac:(rewrite !elem_of_cons; auto) eq_refl).
  rewrite (Hyear 3%nat _ ltac:(rewrite !elem_of_cons; auto) eq_refl).
  assert (Hdash : match re_search false dash_pattern date_str with
                  | Some m =>
                      match try_formats (remove_char 44 m) with
                      | Some d => Some d
                      | None => None
                      end
                  | None => None
                  end = None).
  { destruct (re_search false dash_pattern date_str) as [m|] eqn:Hm; [|done].
    rewrite try_formats_dash; [done|].
    apply remove_char_keeps; [done|]. by apply dash_match_has_dash in Hm. }
  match goal with
  | |- context [re_search false ?p3 date_str] =>
      destruct (re_search false p3 date_str) as [m|] eqn:Hm
  end; [|exact Hdash].
  rewrite try_formats_short; [exact Hdash|].
  pose proof (remove_char_length 44 m).
  apply (re_search_max_len false _ _ _ 6%nat) in Hm; [lia|reflexivity].
Qed.


(** No pattern with a readable year matches: nothing is parsed, on the
    text itself and on the text after "Order time:", which is a part of
    the text. *)
Lemma parse_order_date_none (frames : nat) (date_str : text) :
  (forall p, p ∈ year_patterns -> re_search false p date_str = None) ->
  parse_order_date frames date_str = None.
Proof.
  revert date_str. induction frames as [|frames IH]; intros date_str Hnone; [done|].
  rewrite parse_order_date_unfold, try_patterns_needs_year by done.
  destruct (contains _ _); [|done].
  destruct (split _ _) as [|first [|part more]] eqn:Hsplit; try done.
  apply IH. intros p Hp.
  destruct (split_aux_parts (str "Order time:") date_str O [] O part)
    as (pre & post & ->); [unfold split in Hsplit; by rewrite Hsplit|].
  destruct (re_search false p part) as [m|] eqn:Hm; [|done].
  assert (Hsome : is_Some (re_search false p (pre ++ part ++ post))).
  { apply re_search_extend. by rewrite Hm. }
  rewrite (Hnone p Hp) in Hsome. by destruct Hsome.
Qed.

(** [parse_order_date] returns a date only for a text in which one of
    the three patterns with a readable year matches: month name, day
    and year; day, month name and year; or a slash date. The two other
    patterns of its list never give a date: what the third (month name
    and day) matches is too short for every format, and what the fifth
    (dash date) matches has a dash no format reads. *)
Theorem parse_order_date_needs_year (frames : nat) (date_str : text)
    (d : datetime) :
  parse_order_date frames date_str = Some d ->
  exists p found, p ∈ year_patterns /\ re_search false p date_str = Some found.
Proof.
  intros Hd.
  assert (Hsearch : forall ps : list regex,
            (forall p, p ∈ ps -> re_search false p date_str = None)
            \/ exists p found, p ∈ ps /\ re_search false p date_str = Some found).
  { induction ps as [|p ps [IH|(q & found & Hq & Hfound)]].
    - left. by intros p ?%not_elem_of_nil.
    - destruct (re_search false p date_str) as [found|] eqn:Hp.
      + right. exists p, found. split; [left|done].
      + left. intros q [->|Hq]%elem_of_cons; [done|by apply IH].
    - right. exists q, found. split; [by right|done]. }
  destruct (Hsearch year_patterns) as [Hnone|?]; [|done].
  by rewrite (parse_order_date_none frames date_str Hnone) in Hd.
Qed.

Lemma parse_order_date_needs_year_witness :
  exists p found,
    p ∈ year_patterns /\ re_search false p (str "Ordered on 25/01/2024") = Some found.
Proof.
  apply (parse_order_date_needs_year 1 _ (mk_datetime 738910 0 0 0 0)).
  vm_compute. reflexivity.
Defined.

(** A text with a month and a day, and with a dash date, is not parsed,
    with or without the label. *)
Example parse_order_date_without_year :
  parse_order_date 5 (str "Order time: Jan 5, delivered 25-01-2024") = None.
Proof.
  apply parse_order_date_none.
  intros p Hp. unfold year_patterns, patterns in Hp.
  cbn [omap list_omap lookup list_lookup] in Hp.
  repeat (apply elem_of_cons in Hp as [->|Hp]; [by vm_compute|]).
  by apply not_elem_of_nil in Hp.
Qed.


(** ** Parsed dates and the window *)

Lemma days_before_year_range (year : Z) :
  1 <= year <= 9999 ->
  0 <= days_before_year year <= 3651694
  /\ (year <= 9998 -> days_before_year year <= 3651329).
Proof.
  intros Hy. unfold days_before_year. cbv zeta.
  Z.div_mod_to_equations. lia.
Qed.

Lemma day_of_year_range (year month day : Z) :
  1 <= month <= 12 -> 1 <= day <= days_in_month year month ->
  1 <= days_before_month year month + day
     <= 365 + (if is_leap year then 1 else 0).
Proof.
  intros Hm. unfold days_in_month, days_before_month.
  assert (Hcases : month = 1 \/ month = 2 \/ month = 3 \/ month = 4 \/ month = 5
                   \/ month = 6 \/ month = 7 \/ month = 8 \/ month = 9
                   \/ month = 10 \/ month = 11 \/ month = 12) by lia.
  destruct (is_leap year);
    destruct Hcases as [->|[->|[->|[->|[->|[->|[->|[->|[->|[->|[->| ->]]]]]]]]]]];
    simpl;
    repeat match goal with
           | |- context [month_entry ?table ?m] =>
               let v := eval vm_compute in (month_entry table m) in
               change (month_entry table m) with v
           end;
    lia.
Qed.

(** [datetime(year, month, day)] is a day of the calendar at midnight. *)
Lemma make_date_spec (year month day : Z) (d : datetime) :
  make_date year month day = Some d -> wf_datetime d /\ is_midnight d.
Proof.
  unfold make_date. destruct (_ && _) eqn:Hok; [|done]. intros [= <-].
  repeat (apply andb_true_iff in Hok as [Hok ?]).
  split; [|done]. unfold wf_datetime, MAXORDINAL. cbn [ordinal hour minute second microsecond].
  split; [|lia]. unfold ymd2ord.
  destruct (days_before_year_range year) as [Hdby Hearly]; [lia|].
  pose proof (day_of_year_range year month day) as Hdoy.
  destruct (decide (year = 9999)) as [->|Hne].
  - change (is_leap 9999) with false in Hdoy. lia.
  - destruct (is_leap year); lia.
Qed.

Lemma try_patterns_some (ps : list regex) (date_str : text) (d : datetime) :
  try_patterns ps date_str = Some d ->
  exists p m, p ∈ ps /\ re_search false p date_str = Some m
              /\ try_formats (remove_char 44 m) = Some d.
Proof.
  induction ps as [|p ps IH]; [done|]. cbn [try_patterns].
  destruct (re_search false p date_str) as [m|] eqn:Hm.
  - destruct (try_formats (remove_char 44 m)) as [d'|] eqn:Hd.
    + intros [= ->]. exists p, m. split; [left|done].
    + intros (q & m' & Hq & ?)%IH. exists q, m'. split; [by right|done].
  - intros (q & m' & Hq & ?)%IH. exists q, m'. split; [by right|done].
Qed.

Lemma parse_order_date_some (frames : nat) (date_str : text) (d : datetime) :
  parse_order_date frames date_str = Some d ->
  exists y m dd, make_date y m dd = Some d.
Proof.
  revert date_str. induction frames as [|frames IH]; intros date_str; [done|].
  rewrite parse_order_date_unfold.
  destruct (try_patterns patterns date_str) as [d'|] eqn:Hd.
  - intros [= ->]. apply try_patterns_some in Hd as (p & m & _ & _ & Hd).
    apply try_formats_some in Hd as (fmt & _ & Hd).
    by apply strptime_full_match in Hd as [_ ?].
  - destruct (contains _ _); [|done].
    destruct (split _ _) as [|? [|part ?]]; try done. apply IH.
Qed.

(** [validate_order_date] on a date at midnight. *)
Lemma validate_midnight_date (now d : datetime) :
  is_midnight d -> wf_datetime now -> 30 < ordinal now ->
  exists valid,
    validate_order_date now (Some d) = Some valid
    /\ (valid = true <-> in_window now d).
Proof.
  intros (Hdh & Hdm & Hds & Hdu) (Ho & Hh & Hm & Hs & Hu) Hlate.
  unfold validate_order_date. rewrite add_days_in_range by lia.
  cbn [mbind option_bind]. eexists. split; [done|].
  rewrite datetime_ge_to_us by (cbn [hour minute second microsecond]; lia).
  unfold in_window, is_midnight, to_us. cbn [ordinal hour minute second microsecond].
  rewrite Hdh, Hdm, Hds, Hdu. lia.
Qed.

(** Every date [parse_order_date] returns is a day of the calendar at
    00:00:00, so [validate_order_date] accepts it exactly when it is at
    most 29 days before today, or 30 days before today with the clock
    at midnight: an order placed 30 days ago is outside the window for
    the rest of the day. *)
Theorem parsed_date_window (frames : nat) (date_str : text) (d now : datetime) :
  parse_order_date frames date_str = Some d ->
  wf_datetime now -> 30 < ordinal now ->
  wf_datetime d /\ is_midnight d
  /\ exists valid,
       validate_order_date now (Some d) = Some valid
       /\ (valid = true <-> in_window now d).
Proof.
  intros (y & m & dd & Hd)%parse_order_date_some Hnow Hlate.
  apply make_date_spec in Hd as [Hwf Hmid]. split; [done|]. split; [done|].
  by apply validate_midnight_date.
Qed.

Lemma parsed_date_window_witness :
  wf_datetime sample_date /\ is_midnight sample_date
  /\ exists valid,
       validate_order_date sample_now (Some sample_date) = Some valid
       /\ (valid = true <-> in_window sample_now sample_date).
Proof.
  apply (parsed_date_window 1 (str "Jan 5, 2024")).
  - vm_compute. reflexivity.
  - unfold wf_datetime, MAXORDINAL; simpl; lia.
  - simpl; lia.
Defined.

(** ** The listed orders *)

Example get_orders_sample :
  (fun o => (o !! "id", o !! "item_count", o !! "valid", o !! "date_obj"))
  <$> get_orders 5 (Some sample_elements)
  = [(Some (VStr "PO-211-00001"), Some (VStr "3"), Some (VBool true),
      Some (VDatetime (mk_datetime 738891 0 0 0 0)));
     (Some (VStr "PO-211-00002"), Some (VStr "1"), Some (VBool false),
      Some VNone)].
Proof. vm_compute. reflexivity. Qed.

Example to_string_str :
  to_string (str "Ajuste de preço: 5 €") = "Ajuste de preço: 5 €".
Proof. vm_compute. reflexivity. Qed.

(** What [get_order] puts in the dict. *)
Lemma get_order_fields (frames : nat) (el : order_element) (o : order) :
  get_order frames el = Some o ->
  exists order_id date_str item_count valid,
    date_text el = Some date_str
    /\ o !! "id" = Some (VStr order_id)
    /\ o !! "date_str" = Some (VStr (to_string date_str))
    /\ o !! "date_obj"
       = Some (from_option VDatetime VNone (parse_order_date frames date_str))
    /\ o !! "item_count" = Some (VStr item_count)
    /\ o !! "valid" = Some (VBool valid)
    /\ o !! "element" = Some (VElement (element_handle el))
    /\ match parse_order_date frames date_str with
       | Some d => validate_order_date (now_read el) (Some d) = Some valid
       | None => valid = false
       end.
Proof.
  unfold get_order. destruct (id_text el) as [order_id_text|]; [|done].
  destruct (date_text el) as [date_str|]; [|done].
  destruct (items_text el) as [items|]; [|done]. cbn [mbind option_bind].
  destruct (match parse_order_date frames date_str with Some _ => _ | None => _ end)
    as [valid|] eqn:Hvalid; [|done].
  cbn [mbind option_bind]. intros [= <-].
  do 4 eexists. split; [done|]. split_and!; try reflexivity.
  by destruct (parse_order_date frames date_str); [|injection Hvalid as <-].
Qed.

Lemma get_order_well_listed (frames : nat) (el : order_element) (o : order) :
  get_order frames el = Some o -> well_listed o /\ is_Some (o !! "valid").
Proof.
  intros (order_id & date_str & item_count & valid & _ & Hid & _ & Hdate & Hcount
          & Hvalid & _)%get_order_fields.
  split; [split|by eauto]; [by eauto|].
  unfold log_order. rewrite Hid, Hdate, Hcount.
  by destruct (parse_order_date frames date_str).
Qed.


(** The flag [valid] of a listed order. *)
Lemma get_order_window (frames : nat) (el : order_element) (o : order)
    (date_str : text) :
  get_order frames el = Some o -> date_text el = Some date_str ->
  wf_datetime (now_read el) ->
  is_valid o
  <-> exists d, parse_order_date frames date_str = Some d
                /\ o !! "date_obj" = Some (VDatetime d)
                /\ in_window (now_read el) d.
Proof.
  intros (order_id & date_str' & item_count & valid & Htext & _ & _ & Hdate & _
          & Hvalid & _ & Hwindow)%get_order_fields Htext' Hnow.
  assert (date_str' = date_str) as -> by congruence. unfold is_valid.
  rewrite Hvalid, Hdate.
  destruct (parse_order_date frames date_str) as [d|] eqn:Hd.
  - assert (Hlate : 30 < ordinal (now_read el)).
    { unfold validate_order_date, add_days in Hwindow.
      destruct (_ && _) eqn:Hrange; [|done].
      apply andb_true_iff in Hrange as [?%Z.leb_le _]. lia. }
    destruct (parse_order_date_some _ _ _ Hd) as (y & m & dd & Hmade).
    apply make_date_spec in Hmade as [_ Hmid].
    destruct (validate_midnight_date _ _ Hmid Hnow Hlate) as (valid' & Hvalid' & Hiff).
    assert (valid' = valid) as -> by congruence.
    split.
    + intros [= ->]. exists d. split; [done|]. split; [done|]. by apply Hiff.
    + intros (d' & [= <-] & _ & Hin). do 2 f_equal. by apply Hiff.
  - subst valid. split; [done|]. by intros (d & ? & _).
Qed.

(** For a date text of Basic Latin characters: an order is listed as
    valid exactly when its date text parses to a date in the window; a
    text in which no pattern with a readable year matches gives an order
    without date that is not valid. *)
Theorem get_order_valid (frames : nat) (el : order_element) (o : order)
    (date_str : text) :
  get_order frames el = Some o -> date_text el = Some date_str ->
  basic_latin date_str ->
  wf_datetime (now_read el) ->
  (is_valid o
   <-> exists d, parse_order_date frames date_str = Some d
                 /\ o !! "date_obj" = Some (VDatetime d)
                 /\ in_window (now_read el) d)
  /\ ((forall p, p ∈ year_patterns -> re_search false p date_str = None) ->
      o !! "date_obj" = Some VNone /\ o !! "valid" = Some (VBool false)).
Proof.
  intros Ho Htext _ Hnow. split; [by apply get_order_window|].
  intros Hnone.
  destruct (get_order_fields _ _ _ Ho)
    as (order_id & date_str' & item_count & valid & Htext' & _ & _ & Hdate & _
        & Hvalid & _ & Hwindow).
  assert (date_str' = date_str) as -> by congruence.
  rewrite (parse_order_date_none frames date_str Hnone) in *.
  by subst valid.
Qed.

Lemma get_order_valid_witness :
  let el := mk_order_element 1 (Some (str "PO-211-00001"))
              (Some (str "Jan 6, 2024")) (Some (str "3 items")) sample_now in
  let o := default ∅ (get_order 5 el) in
  (is_valid o
   <-> exists d, parse_order_date 5 (str "Jan 6, 2024") = Some d
                 /\ o !! "date_obj" = Some (VDatetime d)
                 /\ in_window (now_read el) d)
  /\ ((forall p, p ∈ year_patterns -> re_search false p (str "Jan 6, 2024") = None) ->
      o !! "date_obj" = Some VNone /\ o !! "valid" = Some (VBool false)).
Proof.
  cbv zeta. apply get_order_valid.
  - vm_compute. reflexivity.
  - reflexivity.
  - apply basic_latin_forallb. vm_compute. reflexivity.
  - unfold wf_datetime, MAXORDINAL; simpl; lia.
Defined.


Lemma filter_ext_Forall {A} (P Q : A -> Prop) `{!forall x, Decision (P x)}
    `{!forall x, Decision (Q x)} (l : list A) :
  Forall (fun x => P x <-> Q x) l -> filter P l = filter Q l.
Proof.
  induction 1 as [|x l Hx _ IH]; [done|]. rewrite !filter_cons, IH.
  destruct (decide (P x)), (decide (Q x)); tauto.
Qed.

Lemma get_orders_listed (frames : nat) (elements : option (list order_element))
    (o : order) :
  o ∈ get_orders frames elements ->
  exists el, el ∈ default [] elements /\ get_order frames el = Some o.
Proof.
  destruct elements as [els|]; [|by intros ?%not_elem_of_nil].
  cbn [get_orders default]. by intros (el & ? & ?)%list_elem_of_omap; eauto.
Qed.

(** A run over what [get_orders] lists never fails on the dicts: it
    returns [True] and hands to [process_order] the first ten orders
    listed as valid, in the order of the page; each of them has a date
    that was parsed from its text and lies in the window. Elements whose
    spans are missing are skipped, and orders whose date was not parsed
    are never processed. *)
Theorem process_orders_of_get_orders (frames : nat)
    (elements : option (list order_element))
    (envs : nat -> Z -> attempt_env) (b : bot) :
  Forall (fun el => wf_datetime (now_read el)) (default [] elements) ->
  let found := get_orders frames elements in
  exists b' trace,
    process_orders (mk_run_env found envs) b = Some (true, b', trace)
    /\ handed trace = take 10 (filter is_valid found)
    /\ Forall (fun o => exists el date_str d,
                 el ∈ default [] elements /\ get_order frames el = Some o
                 /\ date_text el = Some date_str
                 /\ parse_order_date frames date_str = Some d
                 /\ o !! "date_obj" = Some (VDatetime d)
                 /\ in_window (now_read el) d)
         (handed trace).
Proof.
  intros Hclock found.
  assert (Hwell : Forall (fun o => well_listed o /\ is_Some (o !! "valid")) found).
  { apply Forall_forall. intros o (el & _ & Ho)%get_orders_listed.
    by eapply get_order_well_listed. }
  assert (Hvalid : valid_orders found = inr (filter is_valid found)).
  { rewrite valid_orders_filter by (eapply Forall_impl; [exact Hwell|by intros ? [_ ?]]).
    f_equal. apply filter_ext_Forall, Forall_forall.
    intros o (el & _ & Ho)%get_orders_listed.
    apply get_order_fields in Ho
      as (? & ? & ? & valid & _ & _ & _ & _ & _ & Hv & _).
    unfold is_valid. rewrite Hv. cbn [from_option truthy].
    split; [by intros ->|by intros [= ->]]. }
  assert (Hdates : Forall (fun o => exists el date_str d,
                 el ∈ default [] elements /\ get_order frames el = Some o
                 /\ date_text el = Some date_str
                 /\ parse_order_date frames date_str = Some d
                 /\ o !! "date_obj" = Some (VDatetime d)
                 /\ in_window (now_read el) d)
            (take 10 (filter is_valid found))).
  { apply Forall_take, Forall_forall.
    intros o [Hflag (el & Hel & Ho)%get_orders_listed]%list_elem_of_filter.
    destruct (get_order_fields _ _ _ Ho) as (? & date_str & ? & ? & Htext & _).
    rewrite Forall_forall in Hclock.
    pose proof (get_order_window frames el o date_str Ho Htext (Hclock el Hel))
      as Hiff.
    destruct (proj1 Hiff Hflag) as (d & Hd & Hobj & Hin).
    by exists el, date_str, d. }
  unfold process_orders. cbn [listed].
  destruct found as [|o rest] eqn:Hfound.
  { exists b, []. split; [done|]. split; [done|]. constructor. }
  rewrite Hvalid. cbv zeta.
  assert (Htake : take (Nat.min MAX_ORDERS (length (filter is_valid (o :: rest))))
                    (filter is_valid (o :: rest))
                  = take 10 (filter is_valid (o :: rest))).
  { unfold MAX_ORDERS.
    destruct (Nat.min_spec 10 (length (filter is_valid (o :: rest))))
      as [[_ ->]|[Hle ->]]; [done|]. by rewrite !take_ge by lia. }
  rewrite Htake.
  destruct (process_each_all (mk_run_env (o :: rest) envs)
              (take 10 (filter is_valid (o :: rest)))) with (i := 0%nat)
      (b := set_stat "valid_orders"
              (Z.of_nat (length (filter is_valid (o :: rest))))
              (set_stat "total_orders" (Z.of_nat (length (o :: rest))) b))
    as (b3 & trace & Hrun & Htrace).
  { apply Forall_take, Forall_forall. intros o' [_ Ho']%list_elem_of_filter.
    rewrite Forall_forall in Hwell. by apply Hwell. }
  rewrite Hrun. exists b3, trace. split; [done|]. split; [done|]. by rewrite Htrace.
Qed.

Lemma process_orders_of_get_orders_witness :
  exists b' trace,
    process_orders (mk_run_env (get_orders 5 (Some sample_elements))
                      (fun _ _ => ineligible_attempt)) sample_bot
    = Some (true, b', trace)
    /\ (fun o => o !! "id") <$> handed trace = [Some (VStr "PO-211-00001")].
Proof.
  destruct (process_orders_of_get_orders 5 (Some sample_elements)
              (fun _ _ => ineligible_attempt) sample_bot)
    as (b' & trace & Hrun & Htrace & _).
  - repeat (apply Forall_cons_2; [unfold wf_datetime, MAXORDINAL; simpl; lia|]).
    apply Forall_nil_2.
  - exists b', trace. split; [exact Hrun|]. rewrite Htrace. vm_compute. reflexivity.
Defined.

(** ** Delivery ranges *)

Example parse_delivery_date_samples :
  parse_delivery_date (str "Delivery: Jan 5-9") = str "5 to 9 January"
  /\ parse_delivery_date (str "Delivery: 5-9 Jan") = str "Delivery: 5-9 Jan"
  /\ parse_delivery_date (str "5 Jan - 9 Jan") = str "5 Jan - 9 Jan"
  /\ parse_delivery_date (str "12-15 Mar") = str "12-15 Mar"
  /\ parse_delivery_date (str "Arrives 12-15 Mar") = str "12 to 15 ves"
  /\ parse_delivery_date (str "Delivery 5-9 Jan") = str "5 to 9 ery"
  /\ parse_delivery_date (str "N/A") = str "N/A".
Proof. split_and!; vm_compute; reflexivity. Qed.

(** ** Pieces of a match *)

Lemma rx_match_piece (ic : bool) (r : regex) (s rest : text) (caps : captures) :
  (caps, rest) ∈ rx_match ic r s ->
  exists piece, s = piece ++ rest /\ piece_of ic r piece.
Proof.
  intros Hin.
  destruct (rx_match_consumes ic r _ _ _ Hin) as (piece & -> & Hall).
  destruct (rx_match_lengths ic r _ _ _ Hin) as [Hmin Hmax].
  rewrite length_app in Hmin, Hmax.
  exists piece. split; [done|]. split_and!; [done|lia| |].
  - intros n Hn. specialize (Hmax n Hn). lia.
  - intros p -> ->. cbn [rx_match] in Hin.
    destruct (lit_match false p (piece ++ rest)) as [rest'|] eqn:Hm;
      [|by apply not_elem_of_nil in Hin].
    apply list_elem_of_singleton in Hin. injection Hin as -> ->.
    apply lit_match_spec in Hm as (pre & Hs & Hall2).
    assert (pre = p) as ->.
    { clear -Hall2. induction Hall2 as [|a c p pre Hc _ IH]; [done|].
      unfold char_matches in Hc. rewrite orb_false_r in Hc.
      apply Z.eqb_eq in Hc as ->. by rewrite IH. }
    by apply app_inv_tail in Hs.
Qed.

Lemma rx_match_cat (ic : bool) (rs : list regex) :
  forall (s rest : text) (caps : captures),
    (caps, rest) ∈ rx_match ic (cat rs) s ->
    exists pieces, s = concat pieces ++ rest /\ Forall2 (piece_of ic) rs pieces.
Proof.
  induction rs as [|r rs IH]; intros s rest caps Hin.
  - cbn in Hin. apply list_elem_of_singleton in Hin. injection Hin as -> ->.
    by exists [].
  - change (cat (r :: rs)) with (Seq r (cat rs)) in Hin.
    apply rx_match_seq in Hin as (c1 & c2 & mid & H1 & H2).
    apply rx_match_piece in H1 as (piece & -> & Hpiece).
    apply IH in H2 as (pieces & -> & Hpieces).
    exists (piece :: pieces). split; [|by constructor].
    cbn [concat]. by rewrite <- app_assoc.
Qed.

Lemma re_search_cat (rs : list regex) (s m : text) :
  re_search false (cat rs) s = Some m ->
  exists pieces, m = concat pieces /\ Forall2 (piece_of false) rs pieces.
Proof.
  intros (before & caps & rest & _ & Hin)%re_search_spec.
  apply rx_match_cat in Hin as (pieces & Hm & Hpieces).
  exists pieces. split; [by apply app_inv_tail in Hm|done].
Qed.

(** ** [str.split] and [in] with a separator of one character *)

Lemma split_aux_run (c : Z) (a t cur : text) :
  c ∉ a ->
  split_aux [c] O cur (a ++ c :: t) = (reverse cur ++ a) :: split_aux [c] O [] t.
Proof.
  revert cur. induction a as [|x a IH]; intros cur Hc; cbn [app split_aux is_prefix].
  - rewrite Z.eqb_refl. cbn [andb length Nat.sub]. by rewrite app_nil_r.
  - apply not_elem_of_cons in Hc as [Hx Ha].
    replace (c =? x) with false by (symmetry; apply Z.eqb_neq; congruence).
    cbn [andb]. rewrite IH by done. by rewrite reverse_cons, <- app_assoc.
Qed.

Lemma split_aux_end (c : Z) (a cur : text) :
  c ∉ a -> split_aux [c] O cur a = [reverse cur ++ a].
Proof.
  revert cur. induction a as [|x a IH]; intros cur Hc; cbn [split_aux is_prefix].
  - by rewrite app_nil_r.
  - apply not_elem_of_cons in Hc as [Hx Ha].
    replace (c =? x) with false by (symmetry; apply Z.eqb_neq; congruence).
    cbn [andb]. rewrite IH by done. by rewrite reverse_cons, <- app_assoc.
Qed.

Lemma split_first (c : Z) (a t : text) :
  c ∉ a -> split [c] (a ++ c :: t) = a :: split [c] t.
Proof. intros. unfold split. by rewrite split_aux_run. Qed.

Lemma split_none (c : Z) (a : text) : c ∉ a -> split [c] a = [a].
Proof. intros. unfold split. by rewrite split_aux_end. Qed.

Lemma split_aux_nonempty (sep : text) (s : text) :
  forall (skip : nat) (cur : text), (1 <= length (split_aux sep skip cur s))%nat.
Proof.
  induction s as [|x s IH]; intros skip cur; cbn [split_aux]; [simpl; lia|].
  destruct skip; [|apply IH]. destruct (is_prefix sep (x :: s)); [simpl; lia|apply IH].
Qed.

Lemma split_two_parts (c : Z) (t : text) : c ∈ t -> (2 <= length (split [c] t))%nat.
Proof.
  intros (a & t' & -> & Ha)%list_elem_of_split_l.
  rewrite split_first by done. cbn [length].
  pose proof (split_aux_nonempty [c] t' O []). unfold split. lia.
Qed.

Lemma contains_elem (c : Z) (s : text) : c ∈ s -> contains [c] s = true.
Proof.
  induction s as [|x s IH]; [by intros ?%not_elem_of_nil|].
  intros [->|Hin]%elem_of_cons; cbn [contains is_prefix].
  - by rewrite Z.eqb_refl.
  - rewrite IH by done. apply orb_true_r.
Qed.

(** ** The pieces of a delivery range *)

Lemma digits_piece (lo hi : nat) (piece : text) :
  piece_of false (digits lo hi) piece -> (32 ∉ piece) /\ (45 ∉ piece).
Proof.
  intros (Hall & _). rewrite Forall_forall in Hall.
  split; intros Hin; apply Hall in Hin; vm_compute in Hin; discriminate.
Qed.

Lemma word3_piece (piece : text) :
  piece_of false word3 piece -> (32 ∉ piece) /\ (45 ∉ piece).
Proof.
  intros (Hall & _). rewrite Forall_forall in Hall.
  split; intros Hin; apply Hall in Hin; vm_compute in Hin; discriminate.
Qed.

Lemma lit_piece (p piece : text) : piece_of false (Lit p) piece -> piece = p.
Proof. intros (_ & _ & _ & Hlit). by apply Hlit. Qed.

Ltac elem_solve :=
  repeat (rewrite elem_of_app || rewrite elem_of_cons); auto 10.

Ltac pieces H :=
  repeat match type of H with
         | Forall2 _ (_ :: _) _ =>
             let piece := fresh "piece" in
             let rest := fresh "rest" in
             let Hp := fresh "Hpiece" in
             apply Forall2_cons_inv_l in H as (piece & rest & Hp & H & ->)
         | Forall2 _ [] _ => apply Forall2_nil_inv_l in H as ->
         end.

(** What the first pattern matches is rewritten. *)
Lemma on_delivery_match_first (s m : text) :
  re_search false month_days_pattern s = Some m ->
  exists month start_day end_day,
    m = month ++ str " " ++ start_day ++ str "-" ++ end_day
    /\ length month = 3%nat
    /\ (1 <= length start_day <= 2)%nat /\ (1 <= length end_day <= 2)%nat
    /\ on_delivery_match m = Returns (format_delivery start_day end_day month).
Proof.
  intros Hm.
  apply (re_search_cat _ s m) in Hm as (ps & -> & Hps).
  change (str " ") with [32] in Hps. change (str "-") with [45] in Hps.
  change (str " - ") with [32; 45; 32] in Hps. pieces Hps.
  apply lit_piece in Hpiece0 as ->. apply lit_piece in Hpiece2 as ->.
  destruct (word3_piece _ Hpiece) as [Hw _].
  destruct (digits_piece _ _ _ Hpiece1) as [Hd1s Hd1].
  destruct (digits_piece _ _ _ Hpiece3) as [Hd2s Hd2].
  destruct Hpiece as (_ & Hmin & Hmax & _). specialize (Hmax 3%nat eq_refl).
  destruct Hpiece1 as (_ & Hmin1 & Hmax1 & _). specialize (Hmax1 2%nat eq_refl).
  destruct Hpiece3 as (_ & Hmin3 & Hmax3 & _). specialize (Hmax3 2%nat eq_refl).
  change (min_len word3) with 3%nat in Hmin.
  change (min_len (digits 1 2)) with 1%nat in Hmin1, Hmin3.
  exists piece, piece1, piece3.
  change (str " ") with [32]. change (str "-") with [45].
  cbn [concat app]. rewrite app_nil_r.
  split; [done|]. split; [lia|]. split; [lia|]. split; [lia|].
  unfold on_delivery_match. change (str "-") with [45]. change (str " ") with [32].
  rewrite contains_elem by elem_solve.
  rewrite split_first by done.
  rewrite split_none
    by (rewrite elem_of_app, elem_of_cons; intros [?|[?|?]]; done).
  rewrite split_first by done. by rewrite split_none by done.
Qed.

(** What the second or the third pattern matches raises. *)
Lemma on_delivery_match_second (s m : text) :
  re_search false days_month_pattern s = Some m ->
  on_delivery_match m = Raises.
Proof.
  intros Hm.
  apply (re_search_cat _ s m) in Hm as (ps & -> & Hps).
  change (str " ") with [32] in Hps. change (str "-") with [45] in Hps.
  change (str " - ") with [32; 45; 32] in Hps. pieces Hps.
  apply lit_piece in Hpiece0 as ->. apply lit_piece in Hpiece2 as ->.
  destruct (word3_piece _ Hpiece3) as [Hws Hw].
  destruct (digits_piece _ _ _ Hpiece) as [Hd1s Hd1].
  destruct (digits_piece _ _ _ Hpiece1) as [Hd2s Hd2].
  cbn [concat app]. rewrite app_nil_r.
  unfold on_delivery_match. change (str "-") with [45]. change (str " ") with [32].
  rewrite contains_elem by elem_solve.
  replace (piece ++ 45 :: piece1 ++ 32 :: piece3)
    with ((piece ++ 45 :: piece1) ++ 32 :: piece3) by (by rewrite <- app_assoc).
  rewrite split_first
    by (rewrite elem_of_app, elem_of_cons; intros [?|[?|?]]; done).
  rewrite split_none by done. by rewrite split_none by done.
Qed.

Lemma on_delivery_match_third (s m : text) :
  re_search false two_days_pattern s = Some m ->
  on_delivery_match m = Raises.
Proof.
  intros Hm.
  apply (re_search_cat _ s m) in Hm as (ps & -> & Hps).
  change (str " ") with [32] in Hps. change (str "-") with [45] in Hps.
  change (str " - ") with [32; 45; 32] in Hps. pieces Hps.
  apply lit_piece in Hpiece0 as ->. apply lit_piece in Hpiece2 as ->.
  apply lit_piece in Hpiece4 as ->.
  destruct (digits_piece _ _ _ Hpiece) as [Hd1s Hd1].
  cbn [concat app]. rewrite app_nil_r.
  unfold on_delivery_match. change (str "-") with [45]. change (str " ") with [32].
  rewrite contains_elem by elem_solve.
  rewrite split_first by done.
  pose proof (split_two_parts 32 (piece1 ++ 32 :: 45 :: 32 :: piece3 ++ 32 :: piece5))
    as Hlen.
  destruct (split [32] _) as [|a [|b l]]; [done| |done].
  cbn [length] in Hlen. exfalso.
  assert (2 <= 1)%nat; [|lia]. apply Hlen. elem_solve.
Qed.

(** [parse_delivery_date] rewrites a text exactly when its first pattern
    matches somewhere in it: three word characters, a space and a range
    of days "dd-dd", given back as "dd to dd" and the name of the month,
    or the three characters as they are when they are no abbreviation
    of a month. *)
Theorem parse_delivery_date_first_format (delivery_text date_range : text) :
  re_search false month_days_pattern delivery_text = Some date_range ->
  exists month start_day end_day,
    date_range = month ++ str " " ++ start_day ++ str "-" ++ end_day
    /\ length month = 3%nat
    /\ (1 <= length start_day <= 2)%nat /\ (1 <= length end_day <= 2)%nat
    /\ parse_delivery_date delivery_text
       = start_day ++ str " to " ++ end_day ++ str " " ++ month_name month.
Proof.
  intros Hm.
  destruct (on_delivery_match_first _ _ Hm)
    as (month & start_day & end_day & Hrange & Hlen & Hs & He & Hstep).
  exists month, start_day, end_day.
  split; [done|]. split; [done|]. split; [done|]. split; [done|].
  unfold parse_delivery_date, delivery_patterns.
  cbn [delivery_loop]. by rewrite Hm, Hstep.
Qed.

Lemma parse_delivery_date_first_format_witness :
  exists month start_day end_day,
    str "Jan 5-9" = month ++ str " " ++ start_day ++ str "-" ++ end_day
    /\ length month = 3%nat
    /\ (1 <= length start_day <= 2)%nat /\ (1 <= length end_day <= 2)%nat
    /\ parse_delivery_date (str "Delivery: Jan 5-9, by courier")
       = start_day ++ str " to " ++ end_day ++ str " " ++ month_name month.
Proof.
  apply parse_delivery_date_first_format. vm_compute. reflexivity.
Defined.

(** The two other formats the function lists, "dd-dd MMM" and
    "dd MMM - dd MMM", are never rewritten: in a text of Basic Latin
    characters where the first pattern does not match, the text comes
    back as it was, whatever the second and the third pattern match. *)
Theorem parse_delivery_date_other_formats (delivery_text : text) :
  basic_latin delivery_text ->
  re_search false month_days_pattern delivery_text = None ->
  parse_delivery_date delivery_text = delivery_text.
Proof.
  intros _ Hnone.
  unfold parse_delivery_date, delivery_patterns.
  cbn [delivery_loop]. rewrite Hnone.
  destruct (re_search false days_month_pattern delivery_text) as [m|] eqn:Hsecond.
  { by rewrite (on_delivery_match_second _ _ Hsecond). }
  destruct (re_search false two_days_pattern delivery_text) as [m|] eqn:Hthird.
  - by rewrite (on_delivery_match_third _ _ Hthird).
  - reflexivity.
Qed.

Lemma parse_delivery_date_other_formats_witness :
  parse_delivery_date (str "Delivery: 5-9 Jan") = str "Delivery: 5-9 Jan".
Proof.
  apply parse_delivery_date_other_formats.
  - apply basic_latin_forallb. vm_compute. reflexivity.
  - vm_compute. reflexivity.
Defined.

(** ** Dialogs with more text *)

Lemma any_indicator_extend (indicators : list regex) (pre shown post : text) :
  any_indicator indicators (lower shown) = true ->
  any_indicator indicators (lower (pre ++ shown ++ post)) = true.
Proof.
  unfold any_indicator. rewrite !existsb_exists.
  intros (r & Hr & Hfound%bool_decide_eq_true). exists r. split; [done|].
  apply bool_decide_eq_true. rewrite !lower_app. by apply re_search_extend.
Qed.

(** Among texts of Basic Latin and Latin-1 characters, a dialog
    classified by its words keeps its class, or turns into a refusal,
    when it shows more text around them: a refusal stays a refusal
    whatever is added and whatever markers the page carries, and a
    request form never becomes unknown. *)
Theorem check_dialog_type_more_text (shown pre post : text)
    (find : string -> option nat) :
  latin1 pre -> latin1 shown -> latin1 post ->
  let alone := mk_dialog_env (Some shown) (fun _ => Some O) in
  let inside := mk_dialog_env (Some (pre ++ shown ++ post)) find in
  (check_dialog_type alone = Failure -> check_dialog_type inside = Failure)
  /\ (check_dialog_type alone = Success -> check_dialog_type inside <> Unknown).
Proof.
  intros _ _ _.
  cbv zeta. unfold check_dialog_type. cbn [dialog_text find_by_class].
  change (found_classes (fun _ => Some O) class_indicators) with (Some O).
  cbn [Nat.leb].
  destruct (any_indicator failure_indicators (lower shown)) eqn:Hfail.
  { rewrite (any_indicator_extend _ pre shown post Hfail).
    split; intros Heq; [reflexivity|discriminate Heq]. }
  destruct (any_indicator success_indicators (lower shown)) eqn:Hsucc.
  - rewrite (any_indicator_extend _ pre shown post Hsucc).
    split; [intros Heq; discriminate Heq|intros _].
    generalize (any_indicator failure_indicators (lower (pre ++ shown ++ post))).
    intros [|] Heq; discriminate Heq.
  - split; intros Heq; discriminate Heq.
Qed.

Lemma check_dialog_type_more_text_witness :
  check_dialog_type
    (mk_dialog_env
       (Some (str "Notice: " ++ str "This order is NOT eligible for price adjustment"
              ++ str ". Request a price adjustment for other orders."))
       (fun _ => None))
  = Failure.
Proof.
  refine (proj1 (check_dialog_type_more_text
                   (str "This order is NOT eligible for price adjustment")
                   (str "Notice: ")
                   (str ". Request a price adjustment for other orders.")
                   (fun _ => None) _ _ _) _);
    try apply latin1_forallb; vm_compute; reflexivity.
Defined.

(** ** Loading more orders *)

Lemma load_more_from (check : nat -> view_more) (k : nat) :
  forall fuel checks,
    (checks <= k)%nat -> (k - checks <= fuel)%nat ->
    (forall j, (checks <= j < k)%nat -> check j = Present) ->
    check k <> Present ->
    load_more fuel check checks
    = Some (k, match check k with CheckRaises e => Some e | _ => None end).
Proof.
  induction fuel as [|fuel IH]; intros checks Hle Hfuel Hbefore Hk.
  - assert (checks = k) as -> by lia. cbn [load_more]. by destruct (check k).
  - destruct (decide (checks = k)) as [->|Hne].
    + cbn [load_more]. by destruct (check k).
    + cbn [load_more]. rewrite Hbefore by lia. apply IH; [lia|lia| |done].
      intros j Hj. apply Hbefore. lia.
Qed.

(** The loop that loads more orders clicks "View more" once for every
    check that finds the button and ends at the first check that does
    not, after that many clicks; while the button stays present, as it
    does when every click fails, the loop does not end. *)
Theorem load_more_ends (check : nat -> view_more) :
  (forall k, (forall j, (j < k)%nat -> check j = Present) -> check k <> Present ->
     forall fuel, (k <= fuel)%nat ->
       load_more fuel check 0
       = Some (k, match check k with CheckRaises e => Some e | _ => None end))
  /\ ((forall k, check k = Present) -> forall fuel, load_more fuel check 0 = None)
  /\ (forall fuel clicks r,
        load_more fuel check 0 = Some (clicks, r) ->
        (forall j, (j < clicks)%nat -> check j = Present)
        /\ check clicks <> Present).
Proof.
  split_and!.
  - intros k Hbefore Hk fuel Hfuel. apply load_more_from; try done; try lia.
    intros j Hj. apply Hbefore. lia.
  - intros Hall fuel. generalize O.
    induction fuel as [|fuel IH]; intros checks; cbn [load_more]; by rewrite Hall.
  - intros fuel clicks r.
    assert (Hgen : forall checks,
              (forall j, (j < checks)%nat -> check j = Present) ->
              load_more fuel check checks = Some (clicks, r) ->
              (forall j, (j < clicks)%nat -> check j = Present)
              /\ check clicks <> Present).
    { induction fuel as [|fuel IH]; intros checks Hbefore; cbn [load_more].
      - destruct (check checks) eqn:Hc; [done| |]; intros [= <- <-];
          split; [done|by rewrite Hc|done|by rewrite Hc].
      - destruct (check checks) eqn:Hc.
        + apply IH. intros j Hj. destruct (decide (j = checks)) as [->|]; [done|].
          apply Hbefore. lia.
        + intros [= <- <-]. split; [done|by rewrite Hc].
        + intros [= <- <-]. split; [done|by rewrite Hc]. }
    apply Hgen. intros j Hj. lia.
Qed.

Lemma load_more_ends_witness :
  load_more 5 (fun k => if (k <? 3)%nat then Present else Absent) 0 = Some (3%nat, None).
Proof.
  destruct (load_more_ends (fun k => if (k <? 3)%nat then Present else Absent))
    as [Hends _].
  apply (Hends 3%nat).
  - intros j Hj. by replace (j <? 3)%nat with true by (symmetry; apply Nat.ltb_lt; lia).
  - discriminate.
  - lia.
Defined.
